(** * Smartnode: the watchtower's solo-migration check and the validator
      activity process

    A shallow embedding of [checkSoloMigrations], [scrubVacantMinipool] and
    [run] (package watchtower) and of the beacon [ActivityProcess] (package
    minipool), followed by the properties of these functions; with them the
    constructor [newCheckSoloMigrations], the service commands of the
    command line (package service) and [getNodeStatus] (package node).

    The file has two parts: the model (modules [Go], [Watchtower],
    [Activity], [SingleFlight], [TaskSetup], [ServiceCli], [NodeStatus] and
    the specification-side definitions), then the lemmas and theorems about
    it. *)

From Stdlib Require Import ZArith Lia Bool List String.
From Stdlib Require Import Floats.SpecFloat.
From stdpp Require Import gmap strings.

Local Open Scope Z_scope.

(* ===================================================================== *)
(** * Part I: the model                                                   *)
(* ===================================================================== *)

(** ** Go values used by the code: fixed-width integers, [big.Int],
       [float64], [time.Duration] and [time.Time] *)
Module Go.

(** [uint64] and [int64] arithmetic wraps around. *)
Definition wrap_uint64 (z : Z) : Z := z mod 2 ^ 64.
Definition wrap_int64 (z : Z) : Z := (z + 2 ^ 63) mod 2 ^ 64 - 2 ^ 63.
Definition minInt64 : Z := - 2 ^ 63.
Definition maxInt64 : Z := 2 ^ 63 - 1.

Definition add_uint64 (a b : Z) : Z := wrap_uint64 (a + b).
Definition sub_uint64 (a b : Z) : Z := wrap_uint64 (a - b).
Definition mul_uint64 (a b : Z) : Z := wrap_uint64 (a * b).
Definition mul_int64 (a b : Z) : Z := wrap_int64 (a * b).

(** [*big.Int] values are unbounded integers.  [Div] is Euclidean
    division; [Uint64] and [Int64] keep the low 64 bits of the magnitude. *)
Definition bigInt_Div (x y : Z) : Z := Z.sgn y * (x / Z.abs y).
Definition bigInt_Uint64 (x : Z) : Z := Z.abs x mod 2 ^ 64.
Definition bigInt_Int64 (x : Z) : Z := wrap_int64 x.

(** [float64] is IEEE 754 binary64: precision 53, exponent bound 1024. *)
Definition float64 : Type := spec_float.
Definition f64_add : float64 -> float64 -> float64 := SFadd 53 1024.
Definition f64_mul : float64 -> float64 -> float64 := SFmul 53 1024.
Definition f64_div : float64 -> float64 -> float64 := SFdiv 53 1024.
(** Conversion of an integer to [float64] rounds to nearest, ties to even. *)
Definition f64_of_int (z : Z) : float64 := binary_normalize 53 1024 z 0 false.

(** Conversion of a [float64] to an integer discards the fraction
    (truncation towards zero). *)
Definition f64_trunc (x : float64) : option Z :=
  match x with
  | S754_zero _ => Some 0
  | S754_finite s m e => Some (cond_Zopp s (Z.shiftl (Zpos m) e))
  | _ => None
  end.

(** A value that does not fit the integer type converts to an
    implementation-specific value; on amd64 it is the smallest [int64]. *)
Definition int64_of_f64 (x : float64) : Z :=
  match f64_trunc x with
  | Some z => if (minInt64 <=? z) && (z <=? maxInt64) then z else minInt64
  | None => minInt64
  end.

(** [time.Duration] is an [int64] count of nanoseconds. *)
Definition Duration : Type := Z.
Definition Second : Duration := 1000000000.
Definition minDuration : Duration := minInt64.
Definition maxDuration : Duration := maxInt64.

(** [Duration.Seconds]:
    [sec := d / Second; nsec := d % Second;
     return float64(sec) + float64(nsec)/1e9]. *)
Definition Duration_Seconds (d : Duration) : float64 :=
  let sec := Z.quot d Second in
  let nsec := Z.rem d Second in
  f64_add (f64_of_int sec) (f64_div (f64_of_int nsec) (f64_of_int 1000000000)).

(** A [time.Time] without monotonic reading, as package [time] keeps it:
    [ext] holds the seconds since January 1 of year 1 as an [int64], [nsec]
    the nanoseconds within the second (the low bits of [wall]). *)
Record Time : Type := { ext : Z; nsec : Z }.

(** [unixToInternal]: the seconds from year 1 to the Unix epoch. *)
Definition unixToInternal : Z := 62135596800.

(** [time.Unix(sec, 0)]: [Time{0, sec + unixToInternal, Local}]; the sum is
    an [int64] sum and wraps. *)
Definition Unix (sec : Z) : Time :=
  {| ext := wrap_int64 (sec + unixToInternal); nsec := 0 |}.

(** [addSec] on a time without monotonic reading:
    [sum := t.ext + d;
     if (sum > t.ext) == (d > 0) { t.ext = sum }
     else if d > 0 { t.ext = 1<<63 - 1 } else { t.ext = -(1<<63 - 1) }].
    The sum saturates, as in the current releases of Go. *)
Definition addSec (e d : Z) : Z :=
  let sum := wrap_int64 (e + d) in
  if Bool.eqb (e <? sum) (0 <? d) then sum
  else if 0 <? d then maxInt64 else - maxInt64.

(** [Time.Add]:
    [dsec := int64(d / 1e9); nsec := t.nsec() + int32(d%1e9);
     if nsec >= 1e9 { dsec++; nsec -= 1e9 }
     else if nsec < 0 { dsec--; nsec += 1e9 };
     t.addSec(dsec)]. *)
Definition Time_Add (t : Time) (d : Duration) : Time :=
  let dsec := Z.quot d 1000000000 in
  let ns := nsec t + Z.rem d 1000000000 in
  if 1000000000 <=? ns then
    {| ext := addSec (ext t) (dsec + 1); nsec := ns - 1000000000 |}
  else if ns <? 0 then
    {| ext := addSec (ext t) (dsec - 1); nsec := ns + 1000000000 |}
  else {| ext := addSec (ext t) dsec; nsec := ns |}.

(** [Time.Equal] and [Time.Before] compare seconds, then nanoseconds. *)
Definition Time_Equal (t u : Time) : bool :=
  (ext t =? ext u) && (nsec t =? nsec u).
Definition Time_Before (t u : Time) : bool :=
  (ext t <? ext u) || ((ext t =? ext u) && (nsec t <? nsec u)).

(** [Time.Sub]:
    [d := Duration(t.sec()-u.sec())*Second + Duration(t.nsec()-u.nsec());
     switch {
     case u.Add(d).Equal(t): return d
     case t.Before(u): return minDuration
     default: return maxDuration }],
    the arithmetic on [d] being that of [int64]. *)
Definition Time_Sub (t u : Time) : Duration :=
  let d := wrap_int64 (wrap_int64 (wrap_int64 (ext t - ext u) * Second)
                       + (nsec t - nsec u)) in
  if Time_Equal (Time_Add u d) t then d
  else if Time_Before t u then minDuration else maxDuration.

End Go.

(** ** The solo-migration check of the watchtower *)
Module Watchtower.
Import Go.

(** *** Constants *)

(** [soloMigrationCheckThreshold float64 = 0.85]: the [float64] nearest
    to 85/100. *)
Definition soloMigrationCheckThreshold : float64 :=
  Eval vm_compute in f64_div (f64_of_int 85) (f64_of_int 100).
Definition blsPrefix : Z := 0.
Definition elPrefix : Z := 1.
(** [migrationBalanceBuffer float64 = 0.001]. *)
Definition migrationBalanceBuffer : float64 :=
  Eval vm_compute in f64_div (f64_of_int 1) (f64_of_int 1000).
(** [eth.WeiPerGwei = 1e9] and [eth.GweiToWei(1)] of rocketpool-go. *)
Definition WeiPerGwei : float64 := Eval vm_compute in f64_of_int 1000000000.
Definition oneGwei : Z := 1000000000.

(** [threshold := uint64(32000000000)] *)
Definition threshold : Z := 32000000000.
(** [buffer := uint64(migrationBalanceBuffer * eth.WeiPerGwei)] *)
Definition buffer : Z :=
  Eval vm_compute in
    match f64_trunc (f64_mul migrationBalanceBuffer WeiPerGwei) with
    | Some z => wrap_uint64 z
    | None => 0
    end.

(** *** The network state snapshot (package state) *)

Definition Address : Type := Z.            (* common.Address, 20 bytes *)
Definition ValidatorPubkey : Type := Z.    (* types.ValidatorPubkey, 48 bytes *)
Definition Hash : Type := Z.               (* common.Hash, 32 bytes, big endian *)

(** [h[0]], the first byte of a 32-byte hash. *)
Definition hash_byte0 (h : Hash) : Z := Z.land (Z.shiftr h 248) 255.

Inductive MinipoolStatus : Type :=
  | Initialized | Prelaunch | Staking | Withdrawable | Dissolved.

Definition MinipoolStatus_eqb (a b : MinipoolStatus) : bool :=
  match a, b with
  | Initialized, Initialized | Prelaunch, Prelaunch | Staking, Staking
  | Withdrawable, Withdrawable | Dissolved, Dissolved => true
  | _, _ => false
  end.

(** [beacon.ValidatorState] is a string type. *)
Definition ValidatorState : Type := string.
Definition ValidatorState_ActiveOngoing : ValidatorState := "active_ongoing".

Record NativeMinipoolDetails : Type := {
  Status : MinipoolStatus;
  IsVacant : bool;
  Pubkey : ValidatorPubkey;
  MinipoolAddress : Address;
  WithdrawalCredentials : Hash;
  StatusTime : Z;             (* *big.Int, seconds *)
  PreMigrationBalance : Z;    (* *big.Int, wei *)
  Balance : Z                 (* *big.Int, wei *)
}.

Record ValidatorStatus : Type := {
  Exists : bool;
  vStatus : ValidatorState;
  vWithdrawalCredentials : Hash;
  vBalance : Z                (* uint64, gwei *)
}.

(** The zero value a map lookup yields for a missing key. *)
Definition zeroValidatorStatus : ValidatorStatus :=
  {| Exists := false; vStatus := ""; vWithdrawalCredentials := 0; vBalance := 0 |}.

Record BeaconConfig : Type := {
  GenesisTime : Z;            (* uint64 *)
  SecondsPerSlot : Z          (* uint64 *)
}.

Record NetworkDetails : Type := {
  PromotionScrubPeriod : Duration
}.

Record NetworkState : Type := {
  BeaconSlotNumber : Z;       (* uint64 *)
  ElBlockNumber : Z;          (* uint64 *)
  beaconConfig : BeaconConfig;
  networkDetails : NetworkDetails;
  MinipoolDetails : list NativeMinipoolDetails;
  ValidatorDetails : gmap Z ValidatorStatus
}.

(** *** Messages, errors and the world the task acts on *)

(** The reasons [checkSoloMigrations] formats for a scrub, one constructor
    per format string, with the arguments of the format. *)
Inductive ScrubReason : Type :=
  | NotOnBeacon (minipool : Address) (pubkey : ValidatorPubkey)
  | WrongState (minipool : Address) (pubkey : ValidatorPubkey) (state : ValidatorState)
  | TimedOut (created current : Time) (scrubbedAfter : Duration)
  | CredentialsMismatch (expected actual : Hash)
  | UnexpectedPrefix (creds : Hash)
  | BelowThreshold (current thresh : Z)
  | BelowCreationBalance (current creation buf : Z).

Inductive GoError : Type :=
  | ExternalError (msg : string)
  (* "error scrubbing migration of minipool %s: %w" *)
  | ErrScrubbingMigration (minipool : Address) (inner : GoError)
  (* "could not estimate the gas required to scrub the minipool: %w" *)
  | ErrEstimateGas (inner : GoError)
  (* "%s %w" with t.generationPrefix, the name of the task *)
  | ErrTask (inner : GoError).

(** The lines the task writes with [t.errLog]. *)
Inductive ErrLine : Type :=
  | ErrValue (err : GoError)
  | ErrCheckFailed.             (* "*** Solo migration check failed. ***" *)

(** The lines the task writes with [t.log] (through [printMessage], which
    prefixes them with [generationPrefix]).  [MsgScrubbing] stands for the
    four-line block [scrubVacantMinipool] prints on entry: the banner, the
    minipool address, the reason and the closing rule. *)
Inductive LogLine : Type :=
  | MsgStarting                 (* "Starting solo migration check in a separate thread." *)
  | MsgCheckingSlot (slot elBlock : Z)
  | MsgScrubbing (minipool : Address) (reason : ScrubReason)
  | MsgVoted (minipool : Address)
  | MsgExternal (text : string).

Record GasInfo : Type := { EstGasLimit : Z; SafeGasLimit : Z }.
Record TransactOpts : Type := {
  From : Address;               (* the node account the transactor signs for *)
  GasFeeCap : Z; GasTipCap : Z; GasLimit : Z
}.
Definition TxHash : Type := Z.

(** A submitted [voteScrub] transaction. *)
Record Tx : Type := { txMinipool : Address; txOpts : TransactOpts }.

Record World : Type := {
  logOut : list LogLine;      (* what t.log printed *)
  errOut : list ErrLine;      (* what t.errLog printed *)
  sentTxs : list Tx;          (* transactions handed to the execution client *)
  wallClock : Z               (* the clock of the machine running the task *)
}.

Definition emptyWorld (now : Z) : World :=
  {| logOut := []; errOut := []; sentTxs := []; wallClock := now |}.

(** The collaborators of [scrubVacantMinipool].  Each may answer according to
    everything that has happened so far, the wall clock included. *)
Record Backend : Type := {
  (* minipool.NewMinipool(t.rp, address, nil) *)
  NewMinipool : Address -> World -> option GoError;
  (* t.w.GetNodeAccountTransactor() *)
  GetNodeAccountTransactor : World -> TransactOpts + GoError;
  (* mp.EstimateVoteScrubGas(opts) *)
  EstimateVoteScrubGas : Address -> TransactOpts -> World -> GasInfo + GoError;
  (* eth.GweiToWei(getWatchtowerMaxFee(t.cfg)), eth.GweiToWei(getWatchtowerPrioFee(t.cfg)) *)
  watchtowerMaxFee : Z;
  watchtowerPrioFee : Z;
  (* api.PrintAndCheckGasInfo(gasInfo, false, 0, t.log, maxFee, 0): verdict and printed lines *)
  PrintAndCheckGasInfo : GasInfo -> Z -> World -> bool * list string;
  (* mp.VoteScrub(opts) *)
  VoteScrub : Address -> TransactOpts -> World -> TxHash + GoError;
  (* api.PrintAndWaitForTransaction(t.cfg, hash, t.rp.Client, t.log): error and printed lines *)
  PrintAndWaitForTransaction : TxHash -> World -> option GoError * list string
}.

(** *** State passing *)

Definition M (A : Type) : Type := World -> A * World.

#[global] Instance M_ret : MRet M := fun A (a : A) (w : World) => (a, w).
#[global] Instance M_bind : MBind M :=
  fun A B (f : A -> M B) (c : M A) (w : World) => let '(a, w') := c w in f a w'.

Definition ask {A : Type} (f : World -> A) : M A := fun w => (f w, w).

Definition logPrint (lines : list LogLine) : M unit :=
  fun w => (tt, {| logOut := logOut w ++ lines; errOut := errOut w;
                   sentTxs := sentTxs w; wallClock := wallClock w |}).

Definition errPrint (e : ErrLine) : M unit :=
  fun w => (tt, {| logOut := logOut w; errOut := errOut w ++ [e];
                   sentTxs := sentTxs w; wallClock := wallClock w |}).

Definition submit (tx : Tx) : M unit :=
  fun w => (tt, {| logOut := logOut w; errOut := errOut w;
                   sentTxs := sentTxs w ++ [tx]; wallClock := wallClock w |}).

(** [printMessage]: [t.log.Printlnf("%s %s", t.generationPrefix, message)] *)
Definition printMessage (message : LogLine) : M unit := logPrint [message].

Section Task.
Variable B : Backend.

(** *** [scrubVacantMinipool] *)
Definition scrubVacantMinipool (address : Address) (reason : ScrubReason)
  : M (option GoError) :=
  (* Log *)
  printMessage (MsgScrubbing address reason);;
  (* Make the binding *)
  mp ← ask (NewMinipool B address);
  match mp with
  | Some err => mret (Some (ErrScrubbingMigration address err))
  | None =>
    (* Get transactor *)
    tr ← ask (GetNodeAccountTransactor B);
    match tr with
    | inr err => mret (Some err)
    | inl opts =>
      (* Get the gas limit *)
      est ← ask (EstimateVoteScrubGas B address opts);
      match est with
      | inr err => mret (Some (ErrEstimateGas err))
      | inl gasInfo =>
        (* Print the gas info *)
        let maxFee := watchtowerMaxFee B in
        chk ← ask (PrintAndCheckGasInfo B gasInfo maxFee);
        logPrint (map MsgExternal (snd chk));;
        if negb (fst chk) then mret None
        else
          (* Set the gas settings *)
          let opts' := {| From := From opts;
                          GasFeeCap := maxFee;
                          GasTipCap := watchtowerPrioFee B;
                          GasLimit := SafeGasLimit gasInfo |} in
          (* Cancel the reduction *)
          sent ← ask (VoteScrub B address opts');
          match sent with
          | inr err => mret (Some err)
          | inl hash =>
            submit {| txMinipool := address; txOpts := opts' |};;
            (* Print TX info and wait for it to be included in a block *)
            waited ← ask (PrintAndWaitForTransaction B hash);
            logPrint (map MsgExternal (snd waited));;
            match fst waited with
            | Some err => mret (Some err)
            | None =>
              (* Log *)
              logPrint [MsgVoted address];;
              mret None
            end
          end
      end
    end
  end.

(** *** [checkSoloMigrations] *)

(** [scrubThreshold := time.Duration(
      state.NetworkDetails.PromotionScrubPeriod.Seconds()
      * soloMigrationCheckThreshold) * time.Second] *)
Definition scrubThreshold (state : NetworkState) : Duration :=
  mul_int64
    (int64_of_f64
       (f64_mul (Duration_Seconds (PromotionScrubPeriod (networkDetails state)))
                soloMigrationCheckThreshold))
    Second.

(** [genesisTime := time.Unix(int64(state.BeaconConfig.GenesisTime), 0)] *)
Definition genesisTime (state : NetworkState) : Time :=
  Unix (wrap_int64 (GenesisTime (beaconConfig state))).

(** [secondsForSlot := time.Duration(
      state.BeaconSlotNumber*state.BeaconConfig.SecondsPerSlot) * time.Second] *)
Definition secondsForSlot (state : NetworkState) : Duration :=
  mul_int64
    (wrap_int64 (mul_uint64 (BeaconSlotNumber state)
                            (SecondsPerSlot (beaconConfig state))))
    Second.

(** [blockTime := genesisTime.Add(secondsForSlot)] *)
Definition blockTime (state : NetworkState) : Time :=
  Time_Add (genesisTime state) (secondsForSlot state).

(** The body of the loop over [state.MinipoolDetails]; a [continue] ends
    the body. *)
Definition auditMinipool (state : NetworkState) (mpd : NativeMinipoolDetails)
  : M unit :=
  if MinipoolStatus_eqb (Status mpd) Dissolved then
    (* Ignore minipools that are already dissolved *)
    mret tt
  else if negb (IsVacant mpd) then
    (* Ignore minipools that aren't vacant *)
    mret tt
  else
    (* Scrub minipools that aren't seen on Beacon yet *)
    let validator := default zeroValidatorStatus (ValidatorDetails state !! Pubkey mpd) in
    (if negb (Exists validator) then
       scrubVacantMinipool (MinipoolAddress mpd)
         (NotOnBeacon (MinipoolAddress mpd) (Pubkey mpd));;
       mret tt
     else mret tt);;
    (* Scrub minipools that are in the wrong state *)
    if negb (String.eqb (vStatus validator) ValidatorState_ActiveOngoing) then
      scrubVacantMinipool (MinipoolAddress mpd)
        (WrongState (MinipoolAddress mpd) (Pubkey mpd) (vStatus validator));;
      mret tt
    else
      (* Check the withdrawal credentials *)
      let withdrawalCreds := vWithdrawalCredentials validator in
      if hash_byte0 withdrawalCreds =? blsPrefix then
        let creationTime := Unix (bigInt_Int64 (StatusTime mpd)) in
        let remainingTime :=
          Time_Sub (Time_Add creationTime (scrubThreshold state)) (blockTime state) in
        if remainingTime <? 0 then
          scrubVacantMinipool (MinipoolAddress mpd)
            (TimedOut creationTime (blockTime state) (scrubThreshold state));;
          mret tt
        else mret tt
      else if hash_byte0 withdrawalCreds =? elPrefix then
        if negb (withdrawalCreds =? WithdrawalCredentials mpd) then
          scrubVacantMinipool (MinipoolAddress mpd)
            (CredentialsMismatch (WithdrawalCredentials mpd) withdrawalCreds);;
          mret tt
        else
          (* Check the balance *)
          let creationBalanceGwei :=
            bigInt_Uint64 (bigInt_Div (PreMigrationBalance mpd) oneGwei) in
          let currentBalance := vBalance validator in
          (* Add the minipool balance to the Beacon balance in case it
             already got skimmed *)
          let minipoolBalanceGwei := bigInt_Uint64 (bigInt_Div (Balance mpd) oneGwei) in
          let currentBalance := add_uint64 currentBalance minipoolBalanceGwei in
          if currentBalance <? threshold then
            scrubVacantMinipool (MinipoolAddress mpd)
              (BelowThreshold currentBalance threshold);;
            mret tt
          else if currentBalance <? sub_uint64 creationBalanceGwei buffer then
            scrubVacantMinipool (MinipoolAddress mpd)
              (BelowCreationBalance currentBalance creationBalanceGwei buffer);;
            mret tt
          else mret tt
      else
        scrubVacantMinipool (MinipoolAddress mpd) (UnexpectedPrefix withdrawalCreds);;
        mret tt.

(** [for _, mpd := range state.MinipoolDetails { ... }] *)
Fixpoint forEachMinipool (state : NetworkState) (mpds : list NativeMinipoolDetails)
  : M unit :=
  match mpds with
  | [] => mret tt
  | mpd :: rest => auditMinipool state mpd;; forEachMinipool state rest
  end.

Definition checkSoloMigrations (state : NetworkState) : M (option GoError) :=
  printMessage (MsgCheckingSlot (BeaconSlotNumber state) (ElBlockNumber state));;
  (* Go through each minipool *)
  forEachMinipool state (MinipoolDetails state);;
  mret None.

(** *** [handleError] and the goroutine of [run]

    The writes of [t.isRunning] under the lock are the subject of module
    [SingleFlight]; here are the other effects. *)
Definition handleError (err : GoError) : M unit :=
  errPrint (ErrValue err);;
  errPrint ErrCheckFailed.

Definition scanGoroutine (state : NetworkState) : M unit :=
  printMessage MsgStarting;;
  err ← checkSoloMigrations state;
  match err with
  | Some e => handleError (ErrTask e)
  | None => mret tt
  end.

End Task.

(** *** Reading scrub decisions off a run *)

(** The scrub decisions a log records: one per call of
    [scrubVacantMinipool], with the minipool and the reason given. *)
Definition decisions (log : list LogLine) : list (Address * ScrubReason) :=
  omap (fun l => match l with MsgScrubbing a r => Some (a, r) | _ => None end) log.

(** The decisions taken between world [w] and the later world [w']. *)
Definition newDecisions (w w' : World) : list (Address * ScrubReason) :=
  drop (length (decisions (logOut w))) (decisions (logOut w')).

(** One pass of the loop body over minipool [mpd] scrubs it. *)
Definition scrubs (B : Backend) (state : NetworkState) (mpd : NativeMinipoolDetails)
  (w : World) : Prop :=
  newDecisions w (snd (auditMinipool B state mpd w)) <> [].

End Watchtower.

(** ** The beacon activity process of a minipool *)
Module Activity.

(** The fields of [beaconchain.ServerMessage] and [beaconchain.ClientMessage]
    the process reads and writes. *)
Record ServerMessage : Type := {
  Message : string;
  sPubkey : string;
  StatusCode : string;        (* message.Status.Code *)
  Action : string;
  Error : string
}.

Record ClientMessage : Type := {
  cMessage : string;
  cPubkey : string
}.

(** The state of the channel [stop]: nothing is ever sent on it, it is only
    closed. *)
Inductive Chan : Type := Open | Closed.

Record ActivityProcess : Type := {
  (* hex.EncodeToString(p.minipool.Key.PublicKey.Marshal()) *)
  pubkeyHex : string;
  validatorActive : bool;
  stop : Chan
}.

(** The lines the process logs, one constructor per format string. *)
Inductive LogMsg : Type :=
  | LogEnding (pubkey : string)
  | LogErrEncodingStatusRequest
  | LogErrSendingStatusRequest (err : string)
  | LogErrDecoding
  | LogInactive (pubkey : string)
  | LogActive (pubkey : string)
  | LogExited (pubkey : string)
  | LogNewEpoch (pubkey : string)
  | LogErrSendingActivity (err : string)
  | LogProcessed
  | LogBeaconError (err : string).

Inductive Effect : Type :=
  | Log (line : LogMsg)
  (* p.p.Beacon.Send was called with the encoding of [payload] *)
  | Send (payload : ClientMessage).

(** A handler returns, or the runtime panics part-way through it. *)
Inductive Outcome : Type :=
  | Returns (p : ActivityProcess) (effects : list Effect)
  | Panics (p : ActivityProcess) (effects : list Effect).

(** The heartbeat the process sends for its validator. *)
Definition activityMessage (p : ActivityProcess) : ClientMessage :=
  {| cMessage := "activity"; cPubkey := pubkeyHex p |}.

Definition statusRequest (p : ActivityProcess) : ClientMessage :=
  {| cMessage := "get_validator_status"; cPubkey := pubkeyHex p |}.

Section Process.
(** The bytes of an event and their decoding by [json.Unmarshal]; the
    answer of [p.p.Beacon.Send] ([None] is success).  [json.Marshal] of a
    [ClientMessage], a struct of strings, does not fail. *)
Variable Payload : Type.
Variable unmarshal : Payload -> option ServerMessage.
Variable beaconSend : ClientMessage -> option string.

(** *** [StartActivityProcess]: the initial process *)
Definition newProcess (pubkey : string) : ActivityProcess :=
  {| pubkeyHex := pubkey; validatorActive := false; stop := Open |}.

(** *** [onBeaconClientConnected] *)
Definition onBeaconClientConnected (p : ActivityProcess) : Outcome :=
  (* Request validator status *)
  match beaconSend (statusRequest p) with
  | Some err => Returns p [Send (statusRequest p); Log (LogErrSendingStatusRequest err)]
  | None => Returns p [Send (statusRequest p)]
  end.

(** *** [onBeaconClientMessage] *)
Definition onBeaconClientMessage (p : ActivityProcess) (messageData : Payload)
  : Outcome :=
  (* Parse message *)
  match unmarshal messageData with
  | None => Returns p [Log LogErrDecoding]
  | Some message =>
    (* Handle message by type *)
    if String.eqb (Message message) "validator_status" then
      (* Check validator pubkey *)
      if negb (String.eqb (pubkeyHex p) (sPubkey message)) then Returns p []
      else
        (* Handle statuses *)
        if String.eqb (StatusCode message) "inactive" then
          Returns {| pubkeyHex := pubkeyHex p; validatorActive := false; stop := stop p |}
                  [Log (LogInactive (sPubkey message))]
        else if String.eqb (StatusCode message) "active" then
          Returns {| pubkeyHex := pubkeyHex p; validatorActive := true; stop := stop p |}
                  [Log (LogActive (sPubkey message))]
        else if String.eqb (StatusCode message) "exited"
             || String.eqb (StatusCode message) "withdrawable"
             || String.eqb (StatusCode message) "withdrawn" then
          (* p.validatorActive = false; close(p.stop) *)
          match stop p with
          | Open =>
            Returns {| pubkeyHex := pubkeyHex p; validatorActive := false; stop := Closed |}
                    [Log (LogExited (sPubkey message))]
          | Closed =>
            (* close of closed channel *)
            Panics {| pubkeyHex := pubkeyHex p; validatorActive := false; stop := Closed |}
                   [Log (LogExited (sPubkey message))]
          end
        else Returns p []
    else if String.eqb (Message message) "epoch" then
      (* Check validator active status, get pubkey string *)
      if negb (validatorActive p) then Returns p []
      else
        (* Log activity, send activity *)
        match beaconSend (activityMessage p) with
        | Some err =>
          Returns p [Log (LogNewEpoch (pubkeyHex p)); Send (activityMessage p);
                     Log (LogErrSendingActivity err)]
        | None =>
          Returns p [Log (LogNewEpoch (pubkeyHex p)); Send (activityMessage p)]
        end
    else if String.eqb (Message message) "success" then
      if String.eqb (Action message) "process_activity" then Returns p [Log LogProcessed]
      else Returns p []
    else if String.eqb (Message message) "error" then
      Returns p [Log (LogBeaconError (Error message))]
    else Returns p []
  end.

(** *** [start]: the event goroutine and the blocked caller

    [subscribed] is the loop variable of the goroutine, [blocked] says
    that [start] still waits in its [select], [doneSignals] counts the
    sends on [p.done], [crashed] that the program panicked. *)
Record System : Type := {
  proc : ActivityProcess;
  subscribed : bool;
  blocked : bool;
  doneSignals : nat;
  crashed : bool
}.

Definition startSystem (pubkey : string) : System :=
  {| proc := newProcess pubkey; subscribed := true; blocked := true;
     doneSignals := 0; crashed := false |}.

(** The communication a [select] proceeds with.  A receive from [p.stop]
    can proceed once the channel is closed; when a sender waits on
    [messageChannel] or [connectedChannel] as well, [select] picks any
    one of the ready cases. *)
Inductive Choice : Type :=
  | RecvConnected                    (* case <-connectedChannel *)
  | RecvMessage (data : Payload)     (* case eventData := <-messageChannel *)
  | LoopStop                         (* case <-p.stop, in the goroutine *)
  | MainStop.                        (* case <-p.stop, in start *)

Definition afterHandler (s : System) (o : Outcome) : System * list Effect :=
  match o with
  | Returns p effs =>
    ({| proc := p; subscribed := subscribed s; blocked := blocked s;
        doneSignals := doneSignals s; crashed := false |}, effs)
  | Panics p effs =>
    ({| proc := p; subscribed := subscribed s; blocked := blocked s;
        doneSignals := doneSignals s; crashed := true |}, effs)
  end.

Definition isClosed (c : Chan) : bool :=
  match c with Closed => true | Open => false end.

(** One step of the process; [None] when the communication cannot
    proceed. *)
Definition step (s : System) (c : Choice) : option (System * list Effect) :=
  if crashed s then None
  else
    match c with
    | RecvConnected =>
      if subscribed s then Some (afterHandler s (onBeaconClientConnected (proc s)))
      else None
    | RecvMessage data =>
      if subscribed s then Some (afterHandler s (onBeaconClientMessage (proc s) data))
      else None
    | LoopStop =>
      if subscribed s && isClosed (stop (proc s)) then
        (* RemoveSubscriber twice; subscribed = false *)
        Some ({| proc := proc s; subscribed := false; blocked := blocked s;
                 doneSignals := doneSignals s; crashed := false |}, [])
      else None
    | MainStop =>
      if blocked s && isClosed (stop (proc s)) then
        (* log.Println("Ending validator ..."); p.done <- struct{}{} *)
        Some ({| proc := proc s; subscribed := subscribed s; blocked := false;
                 doneSignals := S (doneSignals s); crashed := false |},
              [Log (LogEnding (pubkeyHex (proc s)))])
      else None
    end.

(** A run of the process along a sequence of communications, with the
    effects it produced in order. *)
Fixpoint exec (s : System) (cs : list Choice) : option (System * list Effect) :=
  match cs with
  | [] => Some (s, [])
  | c :: rest =>
    match step s c with
    | None => None
    | Some (s', effs) =>
      match exec s' rest with
      | None => None
      | Some (s'', effs') => Some (s'', effs ++ effs')
      end
    end
  end.

(** *** Reading the events of a run *)

(** The status code a communication applies to the process with public
    key [pubkey]: that of a decodable [validator_status] message for this
    key with one of the five codes the handler knows. *)
Definition knownStatus (code : string) : bool :=
  String.eqb code "inactive" || String.eqb code "active" || String.eqb code "exited"
  || String.eqb code "withdrawable" || String.eqb code "withdrawn".

Definition appliedStatus (pubkey : string) (c : Choice) : option string :=
  match c with
  | RecvMessage data =>
    match unmarshal data with
    | Some message =>
      if String.eqb (Message message) "validator_status"
         && String.eqb pubkey (sPubkey message)
         && knownStatus (StatusCode message)
      then Some (StatusCode message) else None
    | None => None
    end
  | _ => None
  end.

(** The status most recently applied along [cs]. *)
Definition lastApplied (pubkey : string) (cs : list Choice) : option string :=
  last (omap (appliedStatus pubkey) cs).

Definition isEpoch (c : Choice) : bool :=
  match c with
  | RecvMessage data =>
    match unmarshal data with
    | Some message =>
      String.eqb (Message message) "epoch"
    | None => false
    end
  | _ => false
  end.

Definition isHeartbeat (pubkey : string) (e : Effect) : bool :=
  match e with
  | Send payload => String.eqb (cMessage payload) "activity"
                    && String.eqb (cPubkey payload) pubkey
  | Log _ => false
  end.

(** Some effect in [effs] is a heartbeat for [pubkey]. *)
Definition sendsHeartbeat (pubkey : string) (effs : list Effect) : bool :=
  existsb (isHeartbeat pubkey) effs.

End Process.

Arguments RecvConnected {Payload}.
Arguments RecvMessage {Payload} data.
Arguments LoopStop {Payload}.
Arguments MainStop {Payload}.

(** What [validatorActive] is after a status was applied, or was not. *)
Definition activeAfter (applied : option string) (before : bool) : bool :=
  match applied with
  | Some code => String.eqb code "active"
  | None => before
  end.

End Activity.

(** ** The single-flight guard of [run] *)
Module SingleFlight.

(** The threads of one task: calls of [run] and the goroutines they start,
    each at a point of its code.  The state they share is the flag
    [isRunning] and the mutex [lock]; a [Lock] can be taken only while the
    mutex is free. *)
Inductive CallPc : Type :=
  | CallStart (synced isAtlasDeployed : bool)   (* entry of run *)
  | CallLock           (* at t.lock.Lock() *)
  | CallCheck          (* holding the lock, at [if t.isRunning] *)
  | CallSpawn          (* the flag was clear; at [go func()] *)
  | CallReturned (failed : bool).

Inductive ScanPc : Type :=
  | ScanLockSet        (* at the first t.lock.Lock() of the goroutine *)
  | ScanSet            (* holding the lock, at [t.isRunning = true] *)
  | ScanAnnounce       (* at t.printMessage("Starting ...") *)
  | ScanInFlight       (* executing t.checkSoloMigrations(state) *)
  | ScanLockClear      (* checkSoloMigrations returned nil; at t.lock.Lock() *)
  | ScanClear          (* holding the lock, at [t.isRunning = false] *)
  | ScanFinished.

Inductive Thread : Type :=
  | Call (pc : CallPc)
  | Scan (pc : ScanPc).

Inductive Line : Type :=
  | LineChecking       (* "Checking for solo migrations..." *)
  | LineAlreadyRunning (* "Solo migration check is already running in the background." *)
  | LineStarting.      (* "Starting solo migration check in a separate thread." *)

Record Task : Type := {
  isRunning : bool;
  lock : option nat;            (* the thread holding the mutex *)
  threads : list Thread;
  printed : list Line
}.

(** [newCheckSoloMigrations]: [isRunning: false], a fresh mutex. *)
Definition newTask : Task :=
  {| isRunning := false; lock := None; threads := []; printed := [] |}.

Inductive Action : Type :=
  | Invoke (synced isAtlasDeployed : bool)   (* the scheduler calls run *)
  | Advance (i : nat).                       (* thread i executes its next statement *)

(** Thread [i] moves to [th]. *)
Definition move (t : Task) (i : nat) (th : Thread) : Task :=
  {| isRunning := isRunning t; lock := lock t;
     threads := <[i := th]> (threads t); printed := printed t |}.

Definition print (t : Task) (l : Line) : Task :=
  {| isRunning := isRunning t; lock := lock t;
     threads := threads t; printed := printed t ++ [l] |}.

Definition spawn (t : Task) (th : Thread) : Task :=
  {| isRunning := isRunning t; lock := lock t;
     threads := threads t ++ [th]; printed := printed t |}.

(** [t.lock.Lock()] by thread [i]: possible only while the mutex is free. *)
Definition acquire (t : Task) (i : nat) : option Task :=
  match lock t with
  | None => Some {| isRunning := isRunning t; lock := Some i;
                    threads := threads t; printed := printed t |}
  | Some _ => None
  end.

(** [t.isRunning = running; t.lock.Unlock()] *)
Definition release (t : Task) (running : bool) : Task :=
  {| isRunning := running; lock := None; threads := threads t; printed := printed t |}.

Definition step (t : Task) (a : Action) : option Task :=
  match a with
  | Invoke synced deployed => Some (spawn t (Call (CallStart synced deployed)))
  | Advance i =>
    match threads t !! i with
    | Some (Call (CallStart synced deployed)) =>
      (* Wait for eth clients to sync *)
      if negb synced then Some (move t i (Call (CallReturned true)))
      (* Check if Atlas has been deployed yet *)
      else if negb deployed then Some (move t i (Call (CallReturned false)))
      (* Log *)
      else Some (move (print t LineChecking) i (Call CallLock))
    | Some (Call CallLock) =>
      (* t.lock.Lock() *)
      option_map (fun t' => move t' i (Call CallCheck)) (acquire t i)
    | Some (Call CallCheck) =>
      (* if t.isRunning { log; t.lock.Unlock(); return nil }; t.lock.Unlock() *)
      if isRunning t then
        Some (move (release (print t LineAlreadyRunning) (isRunning t)) i
                (Call (CallReturned false)))
      else Some (move (release t (isRunning t)) i (Call CallSpawn))
    | Some (Call CallSpawn) =>
      (* go func() { ... }(); return nil *)
      Some (spawn (move t i (Call (CallReturned false))) (Scan ScanLockSet))
    | Some (Scan ScanLockSet) =>
      (* t.lock.Lock() *)
      option_map (fun t' => move t' i (Scan ScanSet)) (acquire t i)
    | Some (Scan ScanSet) =>
      (* t.isRunning = true; t.lock.Unlock() *)
      Some (move (release t true) i (Scan ScanAnnounce))
    | Some (Scan ScanAnnounce) =>
      (* t.printMessage("Starting solo migration check in a separate thread.") *)
      Some (move (print t LineStarting) i (Scan ScanInFlight))
    | Some (Scan ScanInFlight) =>
      (* err := t.checkSoloMigrations(state), which returns nil *)
      Some (move t i (Scan ScanLockClear))
    | Some (Scan ScanLockClear) =>
      (* t.lock.Lock() *)
      option_map (fun t' => move t' i (Scan ScanClear)) (acquire t i)
    | Some (Scan ScanClear) =>
      (* t.isRunning = false; t.lock.Unlock() *)
      Some (move (release t false) i (Scan ScanFinished))
    | _ => None
    end
  end.

Fixpoint exec (t : Task) (sched : list Action) : option Task :=
  match sched with
  | [] => Some t
  | a :: rest =>
    match step t a with
    | Some t' => exec t' rest
    | None => None
    end
  end.

(** The goroutines executing [checkSoloMigrations]. *)
Definition inFlight (th : Thread) : bool :=
  match th with Scan ScanInFlight => true | _ => false end.

Definition scansInFlight (t : Task) : nat :=
  length (List.filter inFlight (threads t)).

End SingleFlight.

(** ** Specification-side definitions

    The notions the statements of Part II are phrased with. *)
Module Spec.
Import Go Watchtower.

(** *** Rounding *)

(** Where a non-negative integer [m] lies between the multiples of [2^j]
    around it: the location [j] halvings of an exact mantissa record. *)
Definition shr_loc (m : Z) (j : Z) : location :=
  if m mod 2 ^ j =? 0 then loc_Exact else loc_Inexact (2 * (m mod 2 ^ j) ?= 2 ^ j).

(** *** The classification of one minipool *)

(** [creationBalanceGwei] and the final [currentBalance] of the balance
    check, as the loop body computes them. *)
Definition creationBalanceGwei (mpd : NativeMinipoolDetails) : Z :=
  bigInt_Uint64 (bigInt_Div (PreMigrationBalance mpd) oneGwei).

Definition currentBalance (validator : ValidatorStatus) (mpd : NativeMinipoolDetails) : Z :=
  add_uint64 (vBalance validator) (bigInt_Uint64 (bigInt_Div (Balance mpd) oneGwei)).

(** The scrub decisions of one pass of the loop body, as a function of the
    snapshot alone. *)
Definition verdict (state : NetworkState) (mpd : NativeMinipoolDetails)
  : list (Address * ScrubReason) :=
  let a := MinipoolAddress mpd in
  if MinipoolStatus_eqb (Status mpd) Dissolved then []
  else if negb (IsVacant mpd) then []
  else
    let validator := default zeroValidatorStatus (ValidatorDetails state !! Pubkey mpd) in
    let creds := vWithdrawalCredentials validator in
    let creationTime := Unix (bigInt_Int64 (StatusTime mpd)) in
    (if negb (Exists validator) then [(a, NotOnBeacon a (Pubkey mpd))] else [])
    ++
    (if negb (String.eqb (vStatus validator) ValidatorState_ActiveOngoing) then
       [(a, WrongState a (Pubkey mpd) (vStatus validator))]
     else if hash_byte0 creds =? blsPrefix then
       if Time_Sub (Time_Add creationTime (scrubThreshold state)) (blockTime state) <? 0
       then [(a, TimedOut creationTime (blockTime state) (scrubThreshold state))]
       else []
     else if hash_byte0 creds =? elPrefix then
       if negb (creds =? WithdrawalCredentials mpd) then
         [(a, CredentialsMismatch (WithdrawalCredentials mpd) creds)]
       else if currentBalance validator mpd <? threshold then
         [(a, BelowThreshold (currentBalance validator mpd) threshold)]
       else if currentBalance validator mpd <? sub_uint64 (creationBalanceGwei mpd) buffer then
         [(a, BelowCreationBalance (currentBalance validator mpd)
                (creationBalanceGwei mpd) buffer)]
       else []
     else [(a, UnexpectedPrefix creds)]).

(** The scrub decisions of a whole scan. *)
Definition plan (state : NetworkState) : list (Address * ScrubReason) :=
  concat (map (verdict state) (MinipoolDetails state)).

(** What a run from world [w] to world [w'] leaves behind: the decisions
    [ds] are added to the log, and the error log is as before. *)
Definition extends (w w' : World) (ds : list (Address * ScrubReason)) : Prop :=
  decisions (logOut w') = decisions (logOut w) ++ ds /\ errOut w' = errOut w.

(** A minipool the check audits, with its validator record [v]: vacant,
    not dissolved, the record exists and is active_ongoing. *)
Definition auditable (state : NetworkState) (mpd : NativeMinipoolDetails)
  (v : ValidatorStatus) : Prop :=
  Status mpd <> Dissolved /\ IsVacant mpd = true /\
  ValidatorDetails state !! Pubkey mpd = Some v /\
  Exists v = true /\ vStatus v = ValidatorState_ActiveOngoing.

(** *** The credential-prefix policy, in exact arithmetic *)

(** The block time of the snapshot in seconds: genesis time plus slot
    number times seconds per slot. *)
Definition snapshotBlockSeconds (state : NetworkState) : Z :=
  GenesisTime (beaconConfig state)
  + BeaconSlotNumber state * SecondsPerSlot (beaconConfig state).

(** The instant a [Time] denotes, in nanoseconds since the Unix epoch. *)
Definition instant (t : Time) : Z := (ext t - unixToInternal) * Second + nsec t.

(** Times whose seconds lie well inside the range of [int64], where [Add]
    and [Sub] neither wrap nor saturate. *)
Definition settled (t : Time) : Prop :=
  0 <= nsec t < Second /\ 0 <= ext t <= 2 ^ 62 + 2 ^ 37.

(** Snapshots whose times Go represents without wrap-around: genesis time
    and status-change time below [2^62] seconds, slot number times seconds
    per slot within the range of a [Duration]. *)
Definition timesRepresentable (state : NetworkState) (mpd : NativeMinipoolDetails)
  : Prop :=
  0 <= GenesisTime (beaconConfig state) < 2 ^ 62 /\
  0 <= BeaconSlotNumber state /\ 0 <= SecondsPerSlot (beaconConfig state) /\
  BeaconSlotNumber state * SecondsPerSlot (beaconConfig state) * Second <= maxDuration /\
  0 <= StatusTime mpd < 2 ^ 62.

(** A wei amount in whole gwei. *)
Definition gwei (wei : Z) : Z := wei / 1000000000.

(** The policy in exact arithmetic on integers.  For prefix 0x00 both
    sides are in nanoseconds and scaled by 100, so that
    [blockTime > statusChangeTime + 0.85 * scrubPeriod] reads
    [100 * blockTime > 100 * statusChangeTime + 85 * scrubPeriod]. *)
Definition credentialPolicy (state : NetworkState) (mpd : NativeMinipoolDetails)
  (v : ValidatorStatus) : Prop :=
  let prefix := hash_byte0 (vWithdrawalCredentials v) in
  if prefix =? 0 then
    100 * (snapshotBlockSeconds state * Second)
    > 100 * (StatusTime mpd * Second)
      + 85 * PromotionScrubPeriod (networkDetails state)
  else if prefix =? 1 then
    vWithdrawalCredentials v <> WithdrawalCredentials mpd \/
    vBalance v + gwei (Balance mpd) < 32000000000 \/
    vBalance v + gwei (Balance mpd) < gwei (PreMigrationBalance mpd) - 1000000
  else True.


(** A minipool that reaches the balance check: auditable, prefix 0x01 and
    matching credentials. *)
Definition reachesBalanceCheck (state : NetworkState) (mpd : NativeMinipoolDetails)
  (v : ValidatorStatus) : Prop :=
  auditable state mpd v /\
  hash_byte0 (vWithdrawalCredentials v) = elPrefix /\
  vWithdrawalCredentials v = WithdrawalCredentials mpd.

(** The world [scrubVacantMinipool] consults its collaborators in: the one
    after its opening log block. *)
Definition entryWorld (address : Address) (reason : ScrubReason) (w : World) : World :=
  snd (printMessage (MsgScrubbing address reason) w).

(** *** Concrete inputs *)

Definition someOpts : TransactOpts :=
  {| From := 4096; GasFeeCap := 0; GasTipCap := 0; GasLimit := 0 |}.
Definition someGas : GasInfo := {| EstGasLimit := 100000; SafeGasLimit := 150000 |}.

(** Every collaborator succeeds and the fee gate approves. *)
Definition approvingBackend : Backend :=
  {| NewMinipool := fun _ _ => None;
     GetNodeAccountTransactor := fun _ => inl someOpts;
     EstimateVoteScrubGas := fun _ _ _ => inl someGas;
     watchtowerMaxFee := 200000000000;
     watchtowerPrioFee := 3000000000;
     PrintAndCheckGasInfo := fun _ _ _ => (true, []);
     VoteScrub := fun a _ _ => inl a;
     PrintAndWaitForTransaction := fun _ _ => (None, []) |}.

(** The fee gate vetoes. *)
Definition vetoingBackend : Backend :=
  {| NewMinipool := fun _ _ => None;
     GetNodeAccountTransactor := fun _ => inl someOpts;
     EstimateVoteScrubGas := fun _ _ _ => inl someGas;
     watchtowerMaxFee := 200000000000;
     watchtowerPrioFee := 3000000000;
     PrintAndCheckGasInfo := fun _ _ _ => (false, ["gas price too high"%string]);
     VoteScrub := fun a _ _ => inl a;
     PrintAndWaitForTransaction := fun _ _ => (None, []) |}.

(** Gas estimation fails. *)
Definition failingBackend : Backend :=
  {| NewMinipool := fun _ _ => None;
     GetNodeAccountTransactor := fun _ => inl someOpts;
     EstimateVoteScrubGas := fun _ _ _ => inr (ExternalError "execution reverted");
     watchtowerMaxFee := 200000000000;
     watchtowerPrioFee := 3000000000;
     PrintAndCheckGasInfo := fun _ _ _ => (true, []);
     VoteScrub := fun a _ _ => inl a;
     PrintAndWaitForTransaction := fun _ _ => (None, []) |}.

(** The execution client rejects the transaction. *)
Definition rejectingBackend : Backend :=
  {| NewMinipool := fun _ _ => None;
     GetNodeAccountTransactor := fun _ => inl someOpts;
     EstimateVoteScrubGas := fun _ _ _ => inl someGas;
     watchtowerMaxFee := 200000000000;
     watchtowerPrioFee := 3000000000;
     PrintAndCheckGasInfo := fun _ _ _ => (true, []);
     VoteScrub := fun _ _ _ => inr (ExternalError "nonce too low");
     PrintAndWaitForTransaction := fun _ _ => (None, []) |}.

(** Credentials with prefix 0x00, 0x01 and 0x02. *)
Definition blsCreds : Hash := 11.
Definition elCreds : Hash := 2 ^ 248 + 170.
Definition otherElCreds : Hash := 2 ^ 248 + 187.
Definition oddCreds : Hash := 2 * 2 ^ 248 + 5.

Definition minipoolWith (pubkey address : Z) (creds : Hash) (statusTime preMigration balance : Z)
  : NativeMinipoolDetails :=
  {| Status := Staking; IsVacant := true; Pubkey := pubkey; MinipoolAddress := address;
     WithdrawalCredentials := creds; StatusTime := statusTime;
     PreMigrationBalance := preMigration; Balance := balance |}.

Definition activeValidator (creds : Hash) (balance : Z) : ValidatorStatus :=
  {| Exists := true; vStatus := ValidatorState_ActiveOngoing;
     vWithdrawalCredentials := creds; vBalance := balance |}.

(** A snapshot at slot 750 of a chain with genesis at second 1000 and
    12-second slots (block time 10000 s), scrub period 10000 s. *)
Definition snapshotWith (mpds : list NativeMinipoolDetails)
  (validators : gmap Z ValidatorStatus) : NetworkState :=
  {| BeaconSlotNumber := 750; ElBlockNumber := 5;
     beaconConfig := {| GenesisTime := 1000; SecondsPerSlot := 12 |};
     networkDetails := {| PromotionScrubPeriod := 10000 * Second |};
     MinipoolDetails := mpds; ValidatorDetails := validators |}.

Definition oneEther : Z := 1000000000000000000.

(** M1: prefix 0x00, status change at second 1000, so 9000 s before the
    block time and past the deadline of 8500 s. *)
Definition minipoolM1 : NativeMinipoolDetails :=
  minipoolWith 101 1 elCreds 1000 (32 * oneEther) 0.
Definition validatorM1 : ValidatorStatus := activeValidator blsCreds 32000000000.

(** M2: prefix 0x01, credentials other than the expected ones. *)
Definition minipoolM2 : NativeMinipoolDetails :=
  minipoolWith 102 2 elCreds 1000 (32 * oneEther) 0.
Definition validatorM2 : ValidatorStatus := activeValidator otherElCreds 32000000000.

(** M4: not vacant. *)
Definition minipoolM4 : NativeMinipoolDetails :=
  {| Status := Staking; IsVacant := false; Pubkey := 109; MinipoolAddress := 9;
     WithdrawalCredentials := elCreds; StatusTime := 1000;
     PreMigrationBalance := 0; Balance := 0 |}.

(** M3: prefix 0x01, matching credentials, 32 ETH at creation, 31.999 ETH now. *)
Definition minipoolM3 : NativeMinipoolDetails :=
  minipoolWith 103 3 elCreds 1000 (32 * oneEther) 0.
Definition validatorM3 : ValidatorStatus := activeValidator elCreds 31999000000.


(** A pre-migration balance of zero and a validator holding 32 ETH. *)
Definition minipoolNoDeposit : NativeMinipoolDetails :=
  minipoolWith 105 5 elCreds 1000 0 0.
Definition validatorNoDeposit : ValidatorStatus := activeValidator elCreds 32000000000.

(** A pre-migration balance of zero and a validator balance of [2^64 - 1] gwei. *)
Definition minipoolEdge : NativeMinipoolDetails :=
  minipoolWith 106 6 elCreds 1000 0 0.
Definition validatorEdge : ValidatorStatus := activeValidator elCreds (2 ^ 64 - 1).

(** A minipool whose public key has no validator record, and one whose
    validator has credentials with prefix 0x02. *)
Definition minipoolUnseen : NativeMinipoolDetails :=
  minipoolWith 107 7 elCreds 1000 (32 * oneEther) 0.
Definition minipoolOdd : NativeMinipoolDetails :=
  minipoolWith 108 8 elCreds 1000 (32 * oneEther) 0.
Definition validatorOdd : ValidatorStatus := activeValidator oddCreds 32000000000.

(** A scrub period of 30 days and 5.882352941 seconds, of which 0.85 is just
    below 2203205 seconds; the block time is 2203205 seconds after the status
    change of the minipool. *)
Definition minipoolFraction : NativeMinipoolDetails :=
  minipoolWith 110 10 elCreds 995 (32 * oneEther) 0.
Definition validatorFraction : ValidatorStatus := activeValidator blsCreds 32000000000.
Definition snapshotFraction : NetworkState :=
  {| BeaconSlotNumber := 183600; ElBlockNumber := 5;
     beaconConfig := {| GenesisTime := 1000; SecondsPerSlot := 12 |};
     networkDetails := {| PromotionScrubPeriod := 2592005882352941 |};
     MinipoolDetails := [minipoolFraction];
     ValidatorDetails := {[ 110 := validatorFraction ]} |}.

(** Snapshots holding these minipools; the block time is second 10000. *)
Definition snapshotM1 : NetworkState :=
  snapshotWith [minipoolM1] {[ 101 := validatorM1 ]}.
Definition snapshotM3 : NetworkState :=
  snapshotWith [minipoolM3] {[ 103 := validatorM3 ]}.
Definition snapshotScenarios : NetworkState :=
  snapshotWith [minipoolM1; minipoolM2; minipoolM3; minipoolM4]
    (<[ 101 := validatorM1 ]> (<[ 102 := validatorM2 ]> {[ 103 := validatorM3 ]})).
Definition snapshotNoDeposit : NetworkState :=
  snapshotWith [minipoolNoDeposit] {[ 105 := validatorNoDeposit ]}.
Definition snapshotEdge : NetworkState :=
  snapshotWith [minipoolEdge] {[ 106 := validatorEdge ]}.
Definition snapshotUnseen : NetworkState :=
  snapshotWith [minipoolUnseen; minipoolOdd] {[ 108 := validatorOdd ]}.

End Spec.

(** ** Concrete runs of the activity process and of [run] *)
Module Scenarios.
Import Activity.

(** Events are identified with what [json.Unmarshal] makes of them; every
    send succeeds. *)
Definition decoded (data : option ServerMessage) : option ServerMessage := data.
Definition sendOk (payload : ClientMessage) : option string := None.

Definition statusMessage (pubkey code : string) : option ServerMessage :=
  Some {| Message := "validator_status"; sPubkey := pubkey; StatusCode := code;
          Action := ""; Error := "" |}.

Definition epochMessage : option ServerMessage :=
  Some {| Message := "epoch"; sPubkey := ""; StatusCode := ""; Action := ""; Error := "" |}.

(** The process of the validator with public key [8f3a]. *)
Definition key : string := "8f3a".
Definition process0 : System := startSystem key.

(** An [exited] status, then an [active] status and an epoch, all received
    before the goroutine takes the [stop] case. *)
Definition exitThenActive : list (Choice (option ServerMessage)) :=
  [RecvMessage (statusMessage key "exited");
   RecvMessage (statusMessage key "active");
   RecvMessage epochMessage].

(** Two exit-family statuses received in sequence. *)
Definition exitTwice : list (Choice (option ServerMessage)) :=
  [RecvMessage (statusMessage key "exited");
   RecvMessage (statusMessage key "withdrawn")].

(** An [active] status, an epoch, an [exited] status, and both receivers of
    [stop]. *)
Definition activeThenExit : list (Choice (option ServerMessage)) :=
  [RecvMessage (statusMessage key "active");
   RecvMessage epochMessage;
   RecvMessage (statusMessage key "exited");
   LoopStop; MainStop].

(** Two calls of [run] with synced clients and Atlas deployed.  The first
    (thread 0) checks the flag, starts its goroutine (thread 1) and returns;
    the second (thread 2) is made before thread 1 has run, checks the flag
    and starts thread 3; then both goroutines set the flag and scan. *)
Definition twoCalls : list SingleFlight.Action :=
  [SingleFlight.Invoke true true;
   SingleFlight.Advance 0; SingleFlight.Advance 0; SingleFlight.Advance 0;
   SingleFlight.Advance 0;
   SingleFlight.Invoke true true;
   SingleFlight.Advance 2; SingleFlight.Advance 2; SingleFlight.Advance 2;
   SingleFlight.Advance 2;
   SingleFlight.Advance 1; SingleFlight.Advance 1; SingleFlight.Advance 1;
   SingleFlight.Advance 3; SingleFlight.Advance 3; SingleFlight.Advance 3].

(** After [twoCalls]: the scan of thread 1 returns and clears the flag while
    thread 3 still scans; a third call (thread 4) then finds the flag clear
    and starts thread 5, which scans as well. *)
Definition thirdCall : list SingleFlight.Action :=
  [SingleFlight.Advance 1; SingleFlight.Advance 1; SingleFlight.Advance 1;
   SingleFlight.Invoke true true;
   SingleFlight.Advance 4; SingleFlight.Advance 4; SingleFlight.Advance 4;
   SingleFlight.Advance 4;
   SingleFlight.Advance 5; SingleFlight.Advance 5; SingleFlight.Advance 5].

End Scenarios.

(** ** Further notions about a scan *)
Module ScanNotions.
Import Go Watchtower Spec.

(** The validator record the loop body reads for a minipool: the entry of
    [ValidatorDetails], or the zero value. *)
Definition validatorOf (state : NetworkState) (mpd : NativeMinipoolDetails)
  : ValidatorStatus :=
  default zeroValidatorStatus (ValidatorDetails state !! Pubkey mpd).

(** What a reason says, read against the snapshot.  For a timeout: the
    remaining time the check computed is negative, and where Go represents
    the times of the snapshot without wrap-around, the status-change time
    plus the scrub threshold lies before the block time. *)
Definition justified (state : NetworkState) (mpd : NativeMinipoolDetails)
  (r : ScrubReason) : Prop :=
  let v := validatorOf state mpd in
  let creds := vWithdrawalCredentials v in
  match r with
  | NotOnBeacon a pk =>
    a = MinipoolAddress mpd /\ pk = Pubkey mpd /\ Exists v = false
  | WrongState a pk s =>
    a = MinipoolAddress mpd /\ pk = Pubkey mpd /\
    s = vStatus v /\ s <> ValidatorState_ActiveOngoing
  | TimedOut created current after =>
    vStatus v = ValidatorState_ActiveOngoing /\ hash_byte0 creds = blsPrefix /\
    created = Unix (bigInt_Int64 (StatusTime mpd)) /\
    current = blockTime state /\ after = scrubThreshold state /\
    Time_Sub (Time_Add created after) current < 0 /\
    (timesRepresentable state mpd ->
     StatusTime mpd * Second + after < snapshotBlockSeconds state * Second)
  | CredentialsMismatch expected actual =>
    vStatus v = ValidatorState_ActiveOngoing /\ hash_byte0 creds = elPrefix /\
    expected = WithdrawalCredentials mpd /\ actual = creds /\ actual <> expected
  | UnexpectedPrefix c =>
    vStatus v = ValidatorState_ActiveOngoing /\ c = creds /\
    hash_byte0 c <> blsPrefix /\ hash_byte0 c <> elPrefix
  | BelowThreshold current thresh =>
    vStatus v = ValidatorState_ActiveOngoing /\ hash_byte0 creds = elPrefix /\
    creds = WithdrawalCredentials mpd /\
    current = currentBalance v mpd /\ thresh = 32000000000 /\ current < thresh
  | BelowCreationBalance current creation buf =>
    vStatus v = ValidatorState_ActiveOngoing /\ hash_byte0 creds = elPrefix /\
    creds = WithdrawalCredentials mpd /\
    current = currentBalance v mpd /\ creation = creationBalanceGwei mpd /\
    buf = 1000000 /\ 32000000000 <= current /\ current < sub_uint64 creation buf
  end.

(** The transactions and log lines added between world [w] and the later
    world [w']. *)
Definition newTxs (w w' : World) : list Tx :=
  drop (length (sentTxs w)) (sentTxs w').

Definition newLines (w w' : World) : list LogLine :=
  drop (length (logOut w)) (logOut w').

(** A transaction carries the fees of the configuration. *)
Definition feesAsConfigured (B : Backend) (tx : Tx) : Prop :=
  GasFeeCap (txOpts tx) = watchtowerMaxFee B /\
  GasTipCap (txOpts tx) = watchtowerPrioFee B.

(** A run from [w] to [w'] only appends: the earlier log, error log and
    transactions are kept, the clock is not touched. *)
Definition appendsOnly (w w' : World) : Prop :=
  logOut w' = logOut w ++ newLines w w' /\
  sentTxs w' = sentTxs w ++ newTxs w w' /\
  errOut w' = errOut w /\ wallClock w' = wallClock w.

(** What a run from [w] to [w'] submits, against the decisions [ds] it takes:
    transactions for minipools of [ds], in the order of [ds], at most one per
    decision, with the configured fees. *)
Definition submitsWithin (B : Backend) (w w' : World)
  (ds : list (Address * ScrubReason)) : Prop :=
  appendsOnly w w' /\
  sublist (map txMinipool (newTxs w w')) (map fst ds) /\
  Forall (feesAsConfigured B) (newTxs w w').

(** The same, against the decisions the run takes itself. *)
Definition submitsOwn (B : Backend) (w w' : World) : Prop :=
  submitsWithin B w w' (newDecisions w w').

(** A minipool whose status-change time is the largest [int64]: in
    [time.Unix] the seconds since year 1 wrap around to a time long before
    the epoch. *)
Definition minipoolFarFuture : NativeMinipoolDetails :=
  minipoolWith 111 11 elCreds (2 ^ 63 - 1) (32 * oneEther) 0.
Definition snapshotFarFuture : NetworkState :=
  snapshotWith [minipoolFarFuture] {[ 111 := validatorM1 ]}.

(** The snapshot of M1 on a chain whose genesis time is the largest
    [int64]: the block time wraps around in the same way. *)
Definition snapshotLateGenesis : NetworkState :=
  {| BeaconSlotNumber := 750; ElBlockNumber := 5;
     beaconConfig := {| GenesisTime := 2 ^ 63 - 1; SecondsPerSlot := 12 |};
     networkDetails := {| PromotionScrubPeriod := 10000 * Second |};
     MinipoolDetails := [minipoolM1]; ValidatorDetails := {[ 101 := validatorM1 ]} |}.

(** Every collaborator succeeds, but waiting for the transaction to be
    included fails. *)
Definition stallingBackend : Backend :=
  {| NewMinipool := fun _ _ => None;
     GetNodeAccountTransactor := fun _ => inl someOpts;
     EstimateVoteScrubGas := fun _ _ _ => inl someGas;
     watchtowerMaxFee := 200000000000;
     watchtowerPrioFee := 3000000000;
     PrintAndCheckGasInfo := fun _ _ _ => (true, []);
     VoteScrub := fun a _ _ => inl a;
     PrintAndWaitForTransaction :=
       fun _ _ => (Some (ExternalError "timed out waiting for the transaction"), []) |}.

End ScanNotions.

(** ** Further notions about the activity process *)
Module ActivityNotions.
Import Activity.

(** The status codes on which the handler closes [stop]. *)
Definition isExitCode (code : string) : bool :=
  String.eqb code "exited" || String.eqb code "withdrawable" || String.eqb code "withdrawn".

(** The payloads handed to [Beacon.Send], in order. *)
Definition sends (effs : list Effect) : list ClientMessage :=
  omap (fun e => match e with Send payload => Some payload | Log _ => None end) effs.

Definition isStatusRequest (m : ClientMessage) : bool :=
  String.eqb (cMessage m) "get_validator_status".

Section Process.
Variable Payload : Type.
Variable unmarshal : Payload -> option ServerMessage.

(** The communication applies an exit-family status to the process with
    public key [pubkey]. *)
Definition appliesExit (pubkey : string) (c : Choice Payload) : bool :=
  match appliedStatus Payload unmarshal pubkey c with
  | Some code => isExitCode code
  | None => false
  end.

(** How many exit-family statuses are applied along [cs]. *)
Definition exitCount (pubkey : string) (cs : list (Choice Payload)) : nat :=
  length (List.filter (appliesExit pubkey) cs).

Definition isConnected (c : Choice Payload) : bool :=
  match c with RecvConnected => true | _ => false end.

End Process.

End ActivityNotions.

(** ** States of the process with public key [8f3a] *)
Module Endings.
Import Activity Scenarios.

Definition exitedProcess : ActivityProcess :=
  {| pubkeyHex := key; validatorActive := false; stop := Closed |}.

(** An exit status was applied; nobody has seen [stop] closed yet. *)
Definition exitedSystem : System :=
  {| proc := exitedProcess; subscribed := true; blocked := true;
     doneSignals := 0; crashed := false |}.

(** The goroutine has unsubscribed. *)
Definition unsubscribedSystem : System :=
  {| proc := exitedProcess; subscribed := false; blocked := true;
     doneSignals := 0; crashed := false |}.

(** [start] has signalled [done] as well. *)
Definition endedSystem : System :=
  {| proc := exitedProcess; subscribed := false; blocked := false;
     doneSignals := 1; crashed := false |}.

(** A second exit status was applied. *)
Definition crashedSystem : System :=
  {| proc := exitedProcess; subscribed := true; blocked := true;
     doneSignals := 0; crashed := true |}.

End Endings.

(** ** Further notions about the guard of [run] *)
Module GuardNotions.
Import SingleFlight.

(** The points of the code at which a thread holds the mutex: between a
    [t.lock.Lock()] and the [t.lock.Unlock()] after it. *)
Definition holdsLock (th : Thread) : bool :=
  match th with
  | Call CallCheck | Scan ScanSet | Scan ScanClear => true
  | _ => false
  end.

(** Thread [i] of the task is inside such a section. *)
Definition holder (t : Task) (i : nat) : Prop :=
  exists th, threads t !! i = Some th /\ holdsLock th = true.

(** The mutex is held by exactly the thread that is inside a section. *)
Definition mutexConsistent (t : Task) : Prop :=
  forall i, lock t = Some i <-> holder t i.

(** A thread that has run to its end. *)
Definition finished (th : Thread) : bool :=
  match th with
  | Call (CallReturned _) | Scan ScanFinished => true
  | _ => false
  end.

(** A goroutine that has set the flag and has not cleared it yet. *)
Definition pending (th : Thread) : bool :=
  match th with
  | Scan ScanAnnounce | Scan ScanInFlight | Scan ScanLockClear | Scan ScanClear => true
  | _ => false
  end.

(** An upper bound on the statements a thread has still to execute; for a
    call before [go func()], those of the goroutine it may start
    included. *)
Definition remaining (th : Thread) : nat :=
  match th with
  | Call (CallStart _ _) => 10
  | Call CallLock => 9
  | Call CallCheck => 8
  | Call CallSpawn => 7
  | Call (CallReturned _) => 0
  | Scan ScanLockSet => 6
  | Scan ScanSet => 5
  | Scan ScanAnnounce => 4
  | Scan ScanInFlight => 3
  | Scan ScanLockClear => 2
  | Scan ScanClear => 1
  | Scan ScanFinished => 0
  end.

Definition work (t : Task) : nat := sum_list_with remaining (threads t).

Definition isInvoke (a : Action) : bool :=
  match a with Invoke _ _ => true | Advance _ => false end.

Definition isAdvance (a : Action) : bool :=
  match a with Advance _ => true | Invoke _ _ => false end.

End GuardNotions.

(** ** The constructor of the solo-migration task *)
Module TaskSetup.
Import Watchtower.

Section Services.
(** The services of the daemon and the logger, as opaque values. *)
Variables Config Wallet EthClient RocketPool BeaconClient Logger : Type.

(** [c *cli.Context], through the getters of package [services]. *)
Record Context : Type := {
  GetConfig : Config + GoError;
  GetWallet : Wallet + GoError;
  GetEthClient : EthClient + GoError;
  GetRocketPool : RocketPool + GoError;
  GetBeaconClient : BeaconClient + GoError
}.

Record checkSoloMigrationsTask : Type := {
  c : Context;
  log : Logger;
  errLog : Logger;
  cfg : Config;
  w : Wallet;
  rp : RocketPool;
  ec : EthClient;
  bc : BeaconClient;
  lock : option nat;            (* [&sync.Mutex{}]: the thread holding it *)
  isRunning : bool;
  generationPrefix : string
}.

(** [newCheckSoloMigrations] *)
Definition newCheckSoloMigrations (c : Context) (logger errorLogger : Logger)
  : checkSoloMigrationsTask + GoError :=
  (* Get services *)
  match GetConfig c with
  | inr err => inr err
  | inl cfg =>
    match GetWallet c with
    | inr err => inr err
    | inl w =>
      match GetEthClient c with
      | inr err => inr err
      | inl ec =>
        match GetRocketPool c with
        | inr err => inr err
        | inl rp =>
          match GetBeaconClient c with
          | inr err => inr err
          | inl bc =>
            (* Return task *)
            inl {| c := c; log := logger; errLog := errorLogger;
                   cfg := cfg; w := w; rp := rp; ec := ec; bc := bc;
                   lock := None; isRunning := false;
                   generationPrefix := "[Solo Migration]" |}
          end
        end
      end
    end
  end.

(** The state of the guard of [run] in a task. *)
Definition guardOf (t : checkSoloMigrationsTask) : SingleFlight.Task :=
  {| SingleFlight.isRunning := isRunning t; SingleFlight.lock := lock t;
     SingleFlight.threads := []; SingleFlight.printed := [] |}.

(** The error of a getter, if it failed. *)
Definition failure {A : Type} (r : A + GoError) : option GoError :=
  match r with inl _ => None | inr err => Some err end.

(** The getters in the order of the constructor. *)
Definition getterFailures (c : Context) : list (option GoError) :=
  [failure (GetConfig c); failure (GetWallet c); failure (GetEthClient c);
   failure (GetRocketPool c); failure (GetBeaconClient c)].

End Services.

(** The first error of a list of results. *)
Definition firstError (rs : list (option GoError)) : option GoError :=
  head (omap id rs).

End TaskSetup.

(** ** The service commands of the command line (package service) *)
Module ServiceCli.

(** The methods of the Rocket Pool client the commands call. *)
Inductive Method : Type :=
  | PrintServiceStatus
  | StartService
  | PauseService
  | StopService
  | PrintServiceLogs (serviceNames : list string)
  | PrintServiceStats.

(** What a command does, in order. *)
Inductive Event : Type :=
  | EvConfirm (prompt : string) (answer : bool)   (* cliutils.Confirm(prompt) *)
  | EvPrintln (line : string)                     (* fmt.Println(line) *)
  | EvGetClient (ok : bool)                       (* services.GetRocketPoolClient(c) *)
  | EvCall (m : Method)                           (* rp.<m>(...) *)
  | EvClose.                                      (* rp.Close(), deferred *)

(** A client answers each method with an [error]; [None] is [nil]. *)
Definition Client : Type := Method -> option string.

(** The surroundings of a command: the user at the prompt and the
    services behind [c *cli.Context]. *)
Record Context : Type := {
  Confirm : string -> bool;
  GetRocketPoolClient : Client + string
}.

(** A run of a command: the events in order and the [error] returned. *)
Definition Run : Type := list Event * option string.

(** [serviceStatus] *)
Definition serviceStatus (c : Context) : Run :=
  (* Get services *)
  match GetRocketPoolClient c with
  | inr err => ([EvGetClient false], Some err)
  | inl rp =>
    (* defer rp.Close(); return rp.PrintServiceStatus() *)
    ([EvGetClient true; EvCall PrintServiceStatus; EvClose], rp PrintServiceStatus)
  end.

(** [startService] *)
Definition startService (c : Context) : Run :=
  match GetRocketPoolClient c with
  | inr err => ([EvGetClient false], Some err)
  | inl rp =>
    ([EvGetClient true; EvCall StartService; EvClose], rp StartService)
  end.

Definition pausePrompt : string :=
  "Are you sure you want to pause the Rocket Pool service? Any staking minipools will be penalized!".

(** [pauseService] *)
Definition pauseService (c : Context) : Run :=
  (* Prompt for confirmation *)
  if negb (Confirm c pausePrompt) then
    ([EvConfirm pausePrompt false; EvPrintln "Cancelled."], None)
  else
    match GetRocketPoolClient c with
    | inr err => ([EvConfirm pausePrompt true; EvGetClient false], Some err)
    | inl rp =>
      ([EvConfirm pausePrompt true; EvGetClient true; EvCall PauseService; EvClose],
       rp PauseService)
    end.

Definition stopPrompt : string :=
  "Are you sure you want to stop the Rocket Pool service? Any staking minipools will be penalized, and ethereum nodes will lose sync progress!".

(** [stopService] *)
Definition stopService (c : Context) : Run :=
  (* Prompt for confirmation *)
  if negb (Confirm c stopPrompt) then
    ([EvConfirm stopPrompt false; EvPrintln "Cancelled."], None)
  else
    match GetRocketPoolClient c with
    | inr err => ([EvConfirm stopPrompt true; EvGetClient false], Some err)
    | inl rp =>
      ([EvConfirm stopPrompt true; EvGetClient true; EvCall StopService; EvClose],
       rp StopService)
    end.

(** [serviceLogs] *)
Definition serviceLogs (c : Context) (serviceNames : list string) : Run :=
  match GetRocketPoolClient c with
  | inr err => ([EvGetClient false], Some err)
  | inl rp =>
    ([EvGetClient true; EvCall (PrintServiceLogs serviceNames); EvClose],
     rp (PrintServiceLogs serviceNames))
  end.

(** [serviceStats] *)
Definition serviceStats (c : Context) : Run :=
  match GetRocketPoolClient c with
  | inr err => ([EvGetClient false], Some err)
  | inl rp =>
    ([EvGetClient true; EvCall PrintServiceStats; EvClose], rp PrintServiceStats)
  end.

(** The six commands of the file, and the run of each. *)
Inductive Command : Type :=
  | CmdStatus | CmdStart | CmdPause | CmdStop
  | CmdLogs (serviceNames : list string) | CmdStats.

Definition runCommand (c : Context) (cmd : Command) : Run :=
  match cmd with
  | CmdStatus => serviceStatus c
  | CmdStart => startService c
  | CmdPause => pauseService c
  | CmdStop => stopService c
  | CmdLogs serviceNames => serviceLogs c serviceNames
  | CmdStats => serviceStats c
  end.

(** The method a command is there to call. *)
Definition methodOf (cmd : Command) : Method :=
  match cmd with
  | CmdStatus => PrintServiceStatus
  | CmdStart => StartService
  | CmdPause => PauseService
  | CmdStop => StopService
  | CmdLogs serviceNames => PrintServiceLogs serviceNames
  | CmdStats => PrintServiceStats
  end.

(** The commands that interrupt staking. *)
Definition interrupts (cmd : Command) : bool :=
  match cmd with CmdPause | CmdStop => true | _ => false end.

Definition isCall (e : Event) : bool :=
  match e with EvCall _ => true | _ => false end.

Definition isClose (e : Event) : bool :=
  match e with EvClose => true | _ => false end.

(** The user declined at some prompt of the run. *)
Definition declined (events : list Event) : bool :=
  existsb (fun e => match e with EvConfirm _ false => true | _ => false end) events.

(** The user agreed at some prompt of the run. *)
Definition agreed (events : list Event) : bool :=
  existsb (fun e => match e with EvConfirm _ true => true | _ => false end) events.

(** A context in which the user agrees to everything and every method of
    the client succeeds; one in which the user declines. *)
Definition agreeingContext : Context :=
  {| Confirm := fun _ => true; GetRocketPoolClient := inl (fun _ => None) |}.
Definition decliningContext : Context :=
  {| Confirm := fun _ => false; GetRocketPoolClient := inl (fun _ => None) |}.

End ServiceCli.

(** ** The node status command (package node) *)
Module NodeStatus.

Definition Address : Type := Z.            (* common.Address, 20 bytes *)

(** [node.Balances]: amounts in wei. *)
Record Balances : Type := { EtherWei : Z; RplWei : Z }.

(** The calls [getNodeStatus] makes to the outside. *)
Inductive Remote : Type :=
  | Dial                       (* ethclient.Dial *)
  | NewContractManager         (* rocketpool.NewContractManager *)
  | LoadContracts              (* rp.LoadContracts *)
  | LoadABIs                   (* rp.LoadABIs *)
  | GetAccountBalances         (* node.GetAccountBalances *)
  | GetContract                (* rocketNodeAPI.getContract *)
  | NewContract                (* rp.NewContract *)
  | GetTimezoneLocation        (* rocketNodeAPI.getTimezoneLocation *)
  | GetBalances.               (* node.GetBalances *)

(** The lines it prints, one constructor per format string, with the
    arguments of the format. *)
Inductive Line : Type :=
  | NotInitialized             (* "Node account has not been initialized" *)
  | AccountBalance (account : Address) (balances : Balances)
  | NotRegistered              (* "Node is not registered with Rocket Pool" *)
  | Registered (contract : Address) (timezone : string) (balances : Balances).

Inductive Event : Type :=
  | Called (r : Remote) (ok : bool)
  | Printed (l : Line).

(** The account manager and the answers of the outside: an error message
    or a value. *)
Record Services : Type := {
  NodeAccountExists : bool;
  NodeAccount : Address;                  (* am.GetNodeAccount().Address *)
  dial : option string;
  newContractManager : option string;
  loadContracts : option string;
  loadABIs : option string;
  getAccountBalances : Balances + string;
  getContract : Address + string;
  newContract : option string;
  getTimezoneLocation : string + string;
  getBalances : Balances + string
}.

Definition Run : Type := list Event * option string.

(** [getNodeStatus] *)
Definition getNodeStatus (s : Services) : Run :=
  (* Check if node account is initialised *)
  if negb (NodeAccountExists s) then ([Printed NotInitialized], None)
  else
    (* Connect to ethereum node *)
    match dial s with
    | Some err =>
      ([Called Dial false], Some ("Error connecting to ethereum node: " ++ err)%string)
    | None =>
      (* Initialise Rocket Pool contract manager *)
      match newContractManager s with
      | Some err => ([Called Dial true; Called NewContractManager false], Some err)
      | None =>
        (* Load Rocket Pool contracts *)
        match loadContracts s with
        | Some err =>
          ([Called Dial true; Called NewContractManager true; Called LoadContracts false],
           Some err)
        | None =>
          match loadABIs s with
          | Some err =>
            ([Called Dial true; Called NewContractManager true; Called LoadContracts true;
              Called LoadABIs false], Some err)
          | None =>
            (* Get node account balances *)
            match getAccountBalances s with
            | inr err =>
              ([Called Dial true; Called NewContractManager true;
                Called LoadContracts true; Called LoadABIs true;
                Called GetAccountBalances false], Some err)
            | inl accountBalances =>
              let setup :=
                [Called Dial true; Called NewContractManager true;
                 Called LoadContracts true; Called LoadABIs true;
                 Called GetAccountBalances true;
                 (* Log *)
                 Printed (AccountBalance (NodeAccount s) accountBalances)] in
              (* Check if node is registered & get node contract address *)
              match getContract s with
              | inr err =>
                (setup ++ [Called GetContract false],
                 Some ("Error checking node registration: " ++ err)%string)
              | inl nodeContractAddress =>
                if nodeContractAddress =? 0 then
                  (setup ++ [Called GetContract true; Printed NotRegistered], None)
                else
                  (* Initialise node contract *)
                  match newContract s with
                  | Some err =>
                    (setup ++ [Called GetContract true; Called NewContract false],
                     Some ("Error initialising node contract: " ++ err)%string)
                  | None =>
                    (* Get node timezone *)
                    match getTimezoneLocation s with
                    | inr err =>
                      (setup ++ [Called GetContract true; Called NewContract true;
                                 Called GetTimezoneLocation false],
                       Some ("Error retrieving node timezone: " ++ err)%string)
                    | inl nodeTimezone =>
                      (* Get node contract balances *)
                      match getBalances s with
                      | inr err =>
                        (setup ++ [Called GetContract true; Called NewContract true;
                                   Called GetTimezoneLocation true;
                                   Called GetBalances false], Some err)
                      | inl balances =>
                        (* Log & return *)
                        (setup ++ [Called GetContract true; Called NewContract true;
                                   Called GetTimezoneLocation true;
                                   Called GetBalances true;
                                   Printed (Registered nodeContractAddress nodeTimezone
                                              balances)], None)
                      end
                    end
                  end
              end
            end
          end
        end
      end
    end.

(** The error message of a call, if it fails. *)
Definition failureOf (s : Services) (r : Remote) : option string :=
  match r with
  | Dial => dial s
  | NewContractManager => newContractManager s
  | LoadContracts => loadContracts s
  | LoadABIs => loadABIs s
  | GetAccountBalances => match getAccountBalances s with inr e => Some e | inl _ => None end
  | GetContract => match getContract s with inr e => Some e | inl _ => None end
  | NewContract => newContract s
  | GetTimezoneLocation => match getTimezoneLocation s with inr e => Some e | inl _ => None end
  | GetBalances => match getBalances s with inr e => Some e | inl _ => None end
  end.

(** What a run records of a call agrees with the answer of the service. *)
Definition recordsTruly (s : Services) (e : Event) : Prop :=
  match e with
  | Called r true => failureOf s r = None
  | Called r false => failureOf s r <> None
  | Printed _ => True
  end.

Definition isFailure (e : Event) : bool :=
  match e with Called _ false => true | _ => false end.

(** The lines of a run and the calls it made, in order. *)
Definition printedLines (events : list Event) : list Line :=
  omap (fun e => match e with Printed l => Some l | Called _ _ => None end) events.

Definition calls (events : list Event) : list Remote :=
  omap (fun e => match e with Called r _ => Some r | Printed _ => None end) events.

(** A node with an account of 12.5 ETH, registered with a contract at
    address 77. *)
Definition registeredNode : Services :=
  {| NodeAccountExists := true; NodeAccount := 5;
     dial := None; newContractManager := None; loadContracts := None; loadABIs := None;
     getAccountBalances := inl {| EtherWei := 12500000000000000000; RplWei := 0 |};
     getContract := inl 77; newContract := None;
     getTimezoneLocation := inl "Australia/Brisbane"%string;
     getBalances := inl {| EtherWei := 0; RplWei := 0 |} |}.

(** The same node, not registered; and with a registration lookup that
    fails. *)
Definition unregisteredNode : Services :=
  {| NodeAccountExists := true; NodeAccount := 5;
     dial := None; newContractManager := None; loadContracts := None; loadABIs := None;
     getAccountBalances := inl {| EtherWei := 12500000000000000000; RplWei := 0 |};
     getContract := inl 0; newContract := None;
     getTimezoneLocation := inl "Australia/Brisbane"%string;
     getBalances := inl {| EtherWei := 0; RplWei := 0 |} |}.

Definition unreachableRegistry : Services :=
  {| NodeAccountExists := true; NodeAccount := 5;
     dial := None; newContractManager := None; loadContracts := None; loadABIs := None;
     getAccountBalances := inl {| EtherWei := 12500000000000000000; RplWei := 0 |};
     getContract := inr "execution reverted"%string; newContract := None;
     getTimezoneLocation := inl "Australia/Brisbane"%string;
     getBalances := inl {| EtherWei := 0; RplWei := 0 |} |}.

End NodeStatus.

(* ===================================================================== *)
(** * Part II: properties                                                 *)
(* ===================================================================== *)

(** ** binary64 rounding of the scrub threshold *)
Module GoFacts.
Import Go Watchtower Spec.

(** [digits2_pos] counts binary digits: [2^(d-1) <= p < 2^d]. *)
Lemma digits2_pos_size (p : positive) : digits2_pos p = Pos.size p.
Proof. induction p; simpl; congruence. Qed.

Lemma digits2_pos_bounds (p : positive) :
  2 ^ (Zpos (digits2_pos p) - 1) <= Zpos p < 2 ^ Zpos (digits2_pos p).
Proof.
  rewrite digits2_pos_size.
  pose proof (Pos.size_gt p) as Hgt. pose proof (Pos.size_le p) as Hle.
  apply Pos2Z.pos_lt_pos in Hgt. apply Pos2Z.pos_le_pos in Hle.
  rewrite Pos2Z.inj_pow in Hgt, Hle. change (Z.pos p~0) with (2 * Z.pos p) in Hle.
  assert (E : 2 ^ Zpos (Pos.size p) = 2 * 2 ^ (Zpos (Pos.size p) - 1)).
  { rewrite <- Z.pow_succ_r by lia. f_equal. lia. }
  split; lia.
Qed.

Lemma digits2_pos_unique (p : positive) (d : Z) :
  2 ^ (d - 1) <= Zpos p < 2 ^ d -> Zpos (digits2_pos p) = d.
Proof.
  intros [Hlo Hhi]. pose proof (digits2_pos_bounds p) as [Hlo' Hhi'].
  assert (0 < d).
  { destruct (Z.ltb_spec 0 d); [lia|]. rewrite (Z.pow_neg_r 2 (d-1)) in Hlo by lia.
    destruct (Z.eq_dec d 0) as [->|]; [simpl in Hhi; lia|].
    rewrite Z.pow_neg_r in Hhi by lia. lia. }
  destruct (Z.lt_trichotomy (Zpos (digits2_pos p)) d) as [Hc|[Hc|Hc]]; [|exact Hc|].
  - assert (2 ^ Zpos (digits2_pos p) <= 2 ^ (d - 1)) by (apply Z.pow_le_mono_r; lia). lia.
  - assert (2 ^ d <= 2 ^ (Zpos (digits2_pos p) - 1)) by (apply Z.pow_le_mono_r; lia). lia.
Qed.

(** Halving a mantissa record [j] times divides by [2^j] and records where
    the dropped bits lie. *)
Lemma iter_pos_nat {A} (f : A -> A) (p : positive) (x : A) :
  SpecFloat.iter_pos f p x = Nat.iter (Pos.to_nat p) f x.
Proof.
  revert x. induction p as [p IH|p IH|]; intros x; cbn [SpecFloat.iter_pos].
  - rewrite !IH, Pos2Nat.inj_xI. 
    replace (S (2 * Pos.to_nat p))%nat with (Pos.to_nat p + (Pos.to_nat p + 1))%nat by lia.
    rewrite !Nat.iter_add. reflexivity.
  - rewrite !IH, Pos2Nat.inj_xO.
    replace (2 * Pos.to_nat p)%nat with (Pos.to_nat p + Pos.to_nat p)%nat by lia.
    rewrite Nat.iter_add. reflexivity.
  - reflexivity.
Qed.

Lemma shr_1_nonneg (m : Z) (r s : bool) : 0 <= m ->
  shr_1 (Build_shr_record m r s) = Build_shr_record (m / 2) (Z.odd m) (r || s).
Proof.
  intros Hm. destruct m as [|p|p]; [reflexivity| |lia].
  destruct p as [p|p|]; simpl shr_1.
  - replace (Z.pos p~1 / 2) with (Z.pos p); [reflexivity|].
    apply (Z.div_unique _ 2 _ 1); lia.
  - replace (Z.pos p~0 / 2) with (Z.pos p); [reflexivity|].
    apply (Z.div_unique _ 2 _ 0); lia.
  - reflexivity.
Qed.

Lemma shr_iter_exact (m : Z) (j : nat) : 0 <= m ->
  let rec := Nat.iter j shr_1 (Build_shr_record m false false) in
  shr_m rec = m / 2 ^ Z.of_nat j /\ loc_of_shr_record rec = shr_loc m (Z.of_nat j).
Proof.
  intros Hm. induction j as [|j IH]; cbn zeta.
  - simpl. rewrite Z.div_1_r. unfold shr_loc. simpl. rewrite Z.mod_1_r. auto.
  - rewrite Nat2Z.inj_succ. simpl Nat.iter. cbn zeta in IH.
    destruct (Nat.iter j shr_1 _) as [q r s]. simpl in IH. destruct IH as [Hq Hl].
    assert (Hj : 0 < 2 ^ Z.of_nat j) by (apply Z.pow_pos_nonneg; lia).
    assert (0 <= q) by (subst q; apply Z.div_pos; lia).
    rewrite shr_1_nonneg by assumption. simpl shr_m.
    unfold shr_loc. rewrite !Z.pow_succ_r by lia.
    split.
    + subst q. rewrite Z.div_div by lia. f_equal. lia.
    + pose proof (Z.mod_pos_bound m (2 ^ Z.of_nat j) Hj) as Hlo.
      assert (Hsplit : m mod (2 * 2 ^ Z.of_nat j) = m mod 2 ^ Z.of_nat j + 2 ^ Z.of_nat j * (q mod 2)).
      { subst q. rewrite (Z.mul_comm 2). rewrite Z.rem_mul_r by lia. reflexivity. }
      assert (Hrs : r || s = negb (m mod 2 ^ Z.of_nat j =? 0)).
      { unfold shr_loc in Hl. destruct (m mod 2 ^ Z.of_nat j =? 0), r, s; simpl in *; congruence. }
      unfold shr_loc. rewrite Hsplit. rewrite Hrs. rewrite Zodd_mod.
      pose proof (Z.mod_pos_bound q 2 ltac:(lia)) as Hb.
      assert (Hq2 : q mod 2 = 0 \/ q mod 2 = 1) by lia.
      destruct Hq2 as [E|E]; rewrite E; change (0 =? 1) with false; change (1 =? 1) with true;
        destruct (Z.eqb_spec (m mod 2 ^ Z.of_nat j) 0) as [E0|E0];
        match goal with |- context [?a =? 0] => destruct (Z.eqb_spec a 0) end;
        simpl; try lia; try reflexivity;
        match goal with |- context [?a ?= ?b] => destruct (Z.compare_spec a b) end;
        try reflexivity; lia.
Qed.

(** A mantissa of 53 digits is kept as it is; a longer one is shifted down
    to 53 digits. *)
Lemma shr_fexp_noshift (m : positive) (e : Z) :
  Zpos (digits2_pos m) = 53 -> -1074 <= e ->
  shr_fexp 53 1024 (Zpos m) e loc_Exact = (Build_shr_record (Zpos m) false false, e).
Proof.
  intros Hd He. unfold shr_fexp, fexp, emin. simpl Zdigits2. rewrite Hd.
  replace (Z.max (53 + e - 53) (3 - 1024 - 53) - e) with 0 by lia. reflexivity.
Qed.

Lemma shr_fexp_shift (m : positive) (e k : Z) :
  Zpos (digits2_pos m) = 53 + k -> 0 < k -> -1074 <= e + k ->
  exists rec, shr_fexp 53 1024 (Zpos m) e loc_Exact = (rec, e + k) /\
    shr_m rec = Zpos m / 2 ^ k /\ loc_of_shr_record rec = shr_loc (Zpos m) k.
Proof.
  intros Hd Hk He. unfold shr_fexp, fexp, emin. simpl Zdigits2. rewrite Hd.
  replace (Z.max (53 + k + e - 53) (3 - 1024 - 53) - e) with k by lia.
  destruct k as [|p|p]; try lia. unfold shr, shr_record_of_loc.
  rewrite iter_pos_nat.
  destruct (shr_iter_exact (Zpos m) (Pos.to_nat p) ltac:(lia)) as [H1 H2].
  rewrite positive_nat_Z in H1, H2. eexists; split; [reflexivity|]. split; assumption.
Qed.

(** Rounding to nearest moves the value by at most half a unit of the
    last kept digit. *)
Lemma round_nearest_even_bound (m k : Z) : 0 <= m -> 0 < k ->
  let m1 := round_nearest_even (m / 2 ^ k) (shr_loc m k) in
  m / 2 ^ k <= m1 <= m / 2 ^ k + 1 /\ 2 * Z.abs (m1 * 2 ^ k - m) <= 2 ^ k.
Proof.
  intros Hm Hk. cbn zeta.
  assert (HP : 0 < 2 ^ k) by (apply Z.pow_pos_nonneg; lia).
  pose proof (Z.div_mod m (2 ^ k) ltac:(lia)) as Hdm.
  pose proof (Z.mod_pos_bound m (2 ^ k) HP) as Hlo.
  unfold shr_loc, round_nearest_even.
  destruct (Z.eqb_spec (m mod 2 ^ k) 0) as [E0|E0]; [split; nia|].
  destruct (Z.compare_spec (2 * (m mod 2 ^ k)) (2 ^ k)) as [E|E|E];
    [destruct (Z.even (m / 2 ^ k))| |]; split; nia.
Qed.

(** Rounding an exact product with [k] digits too many: the result is the
    mantissa [m1] nearest to [m / 2^k], renormalised when it reaches [2^53]. *)
Lemma binary_round_aux_exact (sx : bool) (m : positive) (e k : Z) :
  Zpos (digits2_pos m) = 53 + k -> 0 < k -> -1074 <= e + k -> e + k + 1 <= 971 ->
  exists m1, 2 ^ 52 <= m1 <= 2 ^ 53 /\ 2 * Z.abs (m1 * 2 ^ k - Zpos m) <= 2 ^ k /\
    ((m1 < 2 ^ 53 /\
      binary_round_aux 53 1024 sx (Zpos m) e loc_Exact = S754_finite sx (Z.to_pos m1) (e + k)) \/
     (m1 = 2 ^ 53 /\
      binary_round_aux 53 1024 sx (Zpos m) e loc_Exact
        = S754_finite sx (Z.to_pos (2 ^ 52)) (e + k + 1))).
Proof.
  intros Hd Hk Hlo Hhi.
  destruct (shr_fexp_shift m e k Hd Hk Hlo) as (rec & Hshr & Hq & Hloc).
  pose proof (digits2_pos_bounds m) as Hb. rewrite Hd in Hb.
  replace (53 + k - 1) with (52 + k) in Hb by lia.
  rewrite !Z.pow_add_r in Hb by lia.
  assert (HP : 0 < 2 ^ k) by (apply Z.pow_pos_nonneg; lia).
  assert (Hqb : 2 ^ 52 <= Zpos m / 2 ^ k < 2 ^ 53).
  { split; [apply Z.div_le_lower_bound; lia | apply Z.div_lt_upper_bound; lia]. }
  destruct (round_nearest_even_bound (Zpos m) k ltac:(lia) Hk) as [Hr1 Hr2].
  set (m1 := round_nearest_even (Zpos m / 2 ^ k) (shr_loc (Zpos m) k)) in *.
  exists m1. split; [lia|]. split; [exact Hr2|].
  unfold binary_round_aux. rewrite Hshr, Hq, Hloc. fold m1.
  destruct (Z.eq_dec m1 (2 ^ 53)) as [E|NE].
  - right. split; [exact E|]. rewrite E.
    destruct (shr_fexp_shift (Z.to_pos (2 ^ 53)) (e + k) 1 eq_refl ltac:(lia) ltac:(lia))
      as (rec2 & Hshr2 & Hq2 & _).
    change (Z.pos (Z.to_pos (2 ^ 53))) with (2 ^ 53) in Hshr2, Hq2.
    rewrite Hshr2, Hq2. change (2 ^ 53 / 2 ^ 1) with (Z.pos (Z.to_pos (2 ^ 52))).
    cbv iota beta. destruct (Z.leb_spec (e + k + 1) (1024 - 53)); [reflexivity|lia].
  - left. split; [lia|].
    assert (Hm1 : m1 = Zpos (Z.to_pos m1)) by (rewrite Z2Pos.id; lia).
    rewrite Hm1 at 1.
    rewrite shr_fexp_noshift; [| apply digits2_pos_unique; rewrite <- Hm1; simpl; lia | lia].
    simpl shr_m. cbv iota beta.
    destruct (Z.leb_spec (e + k) (1024 - 53)); [reflexivity|lia].
Qed.

(** Values a 53-bit-or-shorter positive integer converts to without rounding. *)
Lemma binary_normalize_small (n : positive) (s : Z) :
  Zpos (digits2_pos n) = 53 - s -> 0 <= s ->
  binary_normalize 53 1024 (Zpos n) 0 false
    = S754_finite false (Z.to_pos (Zpos n * 2 ^ s)) (- s).
Proof.
  intros Hd Hs. unfold binary_normalize, binary_round, shl_align, fexp, emin.
  rewrite Z.add_0_r, Hd.
  replace (Z.max (53 - s - 53) (3 - 1024 - 53) - 0) with (- s) by lia.
  replace (Z.max (53 - s - 53) (3 - 1024 - 53)) with (- s) by lia.
  pose proof (digits2_pos_bounds n) as Hb. rewrite Hd in Hb.
  destruct s as [|p|p]; try lia.
  - change (- 0) with 0. cbv iota beta. rewrite Z.mul_1_r. simpl Z.to_pos.
    unfold binary_round_aux. rewrite shr_fexp_noshift by (simpl; lia).
    simpl. rewrite shr_fexp_noshift by (simpl; lia). reflexivity.
  - change (- Z.pos p) with (Z.neg p). cbv iota beta.
    change (PosDef.Pos.iter xO n p) with (shift_pos p n).
    assert (E : Zpos (shift_pos p n) = Zpos n * 2 ^ Zpos p).
    { rewrite shift_pos_correct, Z.pow_pos_fold. lia. }
    assert (Hdig : Zpos (digits2_pos (shift_pos p n)) = 53).
    { apply digits2_pos_unique. rewrite E.
      assert (HP : 0 < 2 ^ Zpos p) by (apply Z.pow_pos_nonneg; lia).
      assert (E1 : 2 ^ 53 = 2 ^ (53 - Zpos p) * 2 ^ Zpos p).
      { rewrite <- Z.pow_add_r by lia. f_equal. lia. }
      assert (E2 : 2 ^ (53 - 1) = 2 ^ (53 - Zpos p - 1) * 2 ^ Zpos p).
      { rewrite <- Z.pow_add_r by lia. f_equal. lia. }
      rewrite E1, E2. split; nia. }
    unfold binary_round_aux. rewrite shr_fexp_noshift by (assumption || lia).
    simpl round_nearest_even. rewrite shr_fexp_noshift by (assumption || lia).
    simpl shr_m. cbv iota beta. 
    destruct (Z.leb_spec (Z.neg p) (1024 - 53)); [|lia].
    f_equal. rewrite <- E. reflexivity.
Qed.

(** The arithmetic core: 0.85 in binary64 is [7656119366529843 / 2^53],
    that is [(17 * 2^53 - 4) / (20 * 2^53)]; a mantissa [m1] within half a
    unit [K] of [a * 0.85], read at scale [T >= 32], has integer part
    [17 * n / 20]. *)
Lemma scaled_floor (n m1 a K T : Z) :
  0 <= n -> 0 < K -> 32 <= T ->
  4 * a < 8 * K ->
  0 <= a ->
  a * 2 ^ 53 = n * (T * K) ->
  2 * Z.abs (m1 * K - a * 7656119366529843) <= K ->
  m1 / T = 17 * n / 20.
Proof.
  intros Hn HK HT Ha Ha0 Hscale Hround.
  pose proof (Z.div_mod (17 * n) 20 ltac:(lia)) as Hdm.
  pose proof (Z.mod_pos_bound (17 * n) 20 ltac:(lia)) as Hrho.
  set (F := 17 * n / 20) in *. set (rho := (17 * n) mod 20) in *.
  assert (E20 : 20 * (a * 7656119366529843) = 17 * (n * (T * K)) - 4 * a).
  { rewrite <- Hscale. change (2 ^ 53) with 9007199254740992. lia. }
  assert (Hup : 20 * m1 * K <= (17 * n * T + 10) * K) by lia.
  assert (Hdn : (17 * n * T - 18) * K < 20 * m1 * K) by lia.
  assert (Hup' : 20 * m1 <= 17 * n * T + 10).
  { apply (Z.mul_le_mono_pos_r _ _ K); assumption. }
  assert (Hdn' : 17 * n * T - 18 < 20 * m1).
  { apply (Z.mul_lt_mono_pos_r K); assumption. }
  assert (HF0 : 0 <= F) by (apply Z.div_pos; lia).
  symmetry. apply (Z.div_unique_pos _ _ _ (m1 - F * T)); nia.
Qed.

Lemma pow2_lt_inv (x y v : Z) : 0 <= y -> 2 ^ x <= v < 2 ^ y -> x < y.
Proof.
  intros Hy [H1 H2]. destruct (Z.ltb_spec x y); [assumption|].
  assert (2 ^ y <= 2 ^ x) by (apply Z.pow_le_mono_r; lia). lia.
Qed.

(** For up to [2^48] seconds, the integer part of the binary64 product
    [seconds * 0.85] is [17 * seconds / 20], rounded down. *)
Lemma mul_085_trunc (n : Z) : 0 <= n < 2 ^ 48 ->
  f64_trunc (f64_mul (f64_of_int n) soloMigrationCheckThreshold) = Some (17 * n / 20).
Proof.
  intros [Hn0 Hn]. destruct n as [|p|p]; [reflexivity| |lia].
  pose proof (digits2_pos_bounds p) as Hb.
  set (d := Zpos (digits2_pos p)) in *.
  assert (Hd : 0 < d <= 48).
  { split; [unfold d; lia|]. 
    assert (d - 1 < 48) by (apply (pow2_lt_inv _ _ (Zpos p)); lia). lia. }
  unfold f64_of_int. rewrite (binary_normalize_small p (53 - d)) by (fold d; lia).
  set (s := 53 - d) in *. set (a := Zpos p * 2 ^ s).
  assert (HS : 0 < 2 ^ s) by (apply Z.pow_pos_nonneg; lia).
  assert (Ha : 2 ^ 52 <= a < 2 ^ 53).
  { assert (E1 : 2 ^ 53 = 2 ^ d * 2 ^ s) by (rewrite <- Z.pow_add_r by lia; f_equal; lia).
    assert (E2 : 2 ^ 52 = 2 ^ (d - 1) * 2 ^ s) by (rewrite <- Z.pow_add_r by lia; f_equal; lia).
    rewrite E1, E2. unfold a. split; nia. }
  unfold f64_mul, soloMigrationCheckThreshold, SFmul. simpl xorb.
  set (M := 7656119366529843%positive).
  assert (Em : Zpos (Z.to_pos a * M) = a * Zpos M).
  { rewrite Pos2Z.inj_mul, Z2Pos.id by lia. reflexivity. }
  pose proof (digits2_pos_bounds (Z.to_pos a * M)) as Hbm. rewrite Em in Hbm.
  set (d' := Zpos (digits2_pos (Z.to_pos a * M))) in *.
  assert (Hprod : 2 ^ 104 <= a * Zpos M < 2 ^ 106).
  { change (2 ^ 104) with (2 ^ 52 * 2 ^ 52). change (2 ^ 106) with (2 ^ 53 * 2 ^ 53).
    assert (2 ^ 52 <= Zpos M < 2 ^ 53) by (unfold M; lia). nia. }
  assert (Hd' : 105 <= d' <= 106).
  { assert (104 < d') by (apply (pow2_lt_inv _ _ (a * Zpos M)); [unfold d'|]; lia).
    assert (d' - 1 < 106) by (apply (pow2_lt_inv _ _ (a * Zpos M)); lia). lia. }
  destruct (binary_round_aux_exact false (Z.to_pos a * M) (- s + -53) (d' - 53))
    as (m1 & Hm1 & Hround & Hres); [fold d'; lia | lia | lia | lia |].
  rewrite Em in Hround.
  set (k := d' - 53) in *. set (t := s + 53 - k).
  assert (Ht : 5 <= t) by (unfold t, k; lia).
  assert (HK : 2 ^ 52 <= 2 ^ k) by (apply Z.pow_le_mono_r; unfold k; lia).
  assert (HT : 32 <= 2 ^ t) by (change 32 with (2 ^ 5); apply Z.pow_le_mono_r; lia).
  assert (Hscale : a * 2 ^ 53 = Zpos p * (2 ^ t * 2 ^ k)).
  { unfold a. rewrite <- Z.pow_add_r by (unfold k; lia).
    replace (t + k) with (s + 53) by (unfold t; lia).
    rewrite Z.pow_add_r by lia. lia. }
  assert (Hgoal : m1 / 2 ^ t = 17 * Zpos p / 20).
  { apply (scaled_floor (Zpos p) m1 a (2 ^ k) (2 ^ t)); try assumption; lia. }
  destruct Hres as [[Hlt ->]|[Heq ->]]; unfold f64_trunc, cond_Zopp; f_equal.
  - rewrite Z2Pos.id by lia. rewrite Z.shiftl_div_pow2 by (unfold k; lia).
    replace (- (- s + -53 + k)) with t by (unfold t; lia). exact Hgoal.
  - rewrite <- Hgoal, Heq. rewrite Z.shiftl_div_pow2 by (unfold k; lia).
    replace (- (- s + -53 + k + 1)) with (t - 1) by (unfold t; lia).
    replace (2 ^ t) with (2 * 2 ^ (t - 1)) by (rewrite <- Z.pow_succ_r by lia; f_equal; lia).
    change (2 ^ 53) with (2 * 2 ^ 52). change (Z.pos (Z.to_pos (2 ^ 52))) with (2 ^ 52).
    rewrite Z.div_mul_cancel_l; [reflexivity| |lia].
    apply Z.pow_nonzero; lia.
Qed.

End GoFacts.

(** ** The effects of a scan *)
Module WatchtowerFacts.
Import Go Watchtower Spec.

Lemma decisions_app (l1 l2 : list LogLine) :
  decisions (l1 ++ l2) = decisions l1 ++ decisions l2.
Proof. unfold decisions. apply omap_app. Qed.

Lemma decisions_external (texts : list string) : decisions (map MsgExternal texts) = [].
Proof. induction texts as [|t texts IH]; [reflexivity | exact IH]. Qed.

Lemma extends_refl (w : World) : extends w w [].
Proof. split; [rewrite app_nil_r|]; reflexivity. Qed.

Lemma extends_trans (w1 w2 w3 : World) (ds1 ds2 : list (Address * ScrubReason)) :
  extends w1 w2 ds1 -> extends w2 w3 ds2 -> extends w1 w3 (ds1 ++ ds2).
Proof.
  intros [H1 E1] [H2 E2]. split; [|congruence].
  rewrite H2, H1, app_assoc. reflexivity.
Qed.

Lemma extends_newDecisions (w w' : World) (ds : list (Address * ScrubReason)) :
  extends w w' ds -> newDecisions w w' = ds.
Proof. intros [H _]. unfold newDecisions. rewrite H. apply drop_app_length. Qed.

Ltac run_monad :=
  unfold mbind, M_bind, mret, M_ret, ask, printMessage, logPrint, errPrint, submit.

(** Every call of [scrubVacantMinipool] records exactly its own decision,
    whatever the collaborators answer, and writes nothing to the error log. *)
Lemma scrubVacantMinipool_extends (B : Backend) (a : Address) (r : ScrubReason) (w : World) :
  extends w (snd (scrubVacantMinipool B a r w)) [(a, r)].
Proof.
  unfold scrubVacantMinipool, extends. run_monad.
  repeat match goal with
         | |- context [NewMinipool ?b ?x ?y] => destruct (NewMinipool b x y)
         | |- context [GetNodeAccountTransactor ?b ?x] =>
           destruct (GetNodeAccountTransactor b x)
         | |- context [EstimateVoteScrubGas ?b ?x ?y ?z] =>
           destruct (EstimateVoteScrubGas b x y z)
         | |- context [PrintAndCheckGasInfo ?b ?x ?y ?z] =>
           destruct (PrintAndCheckGasInfo b x y z) as [[] ?]; cbn [fst snd negb]
         | |- context [VoteScrub ?b ?x ?y ?z] => destruct (VoteScrub b x y z)
         | |- context [PrintAndWaitForTransaction ?b ?x ?y] =>
           destruct (PrintAndWaitForTransaction b x y) as [[] ?]; cbn [fst snd]
         end;
    cbn [fst snd logOut errOut];
    rewrite ?decisions_app, ?decisions_external, ?app_nil_r; auto.
Qed.

Lemma auditMinipool_extends (B : Backend) (state : NetworkState)
  (mpd : NativeMinipoolDetails) (w : World) :
  extends w (snd (auditMinipool B state mpd w)) (verdict state mpd).
Proof.
  unfold auditMinipool, verdict, currentBalance, creationBalanceGwei.
  destruct (MinipoolStatus_eqb (Status mpd) Dissolved); [apply extends_refl|].
  destruct (negb (IsVacant mpd)); [apply extends_refl|].
  set (validator := default zeroValidatorStatus (ValidatorDetails state !! Pubkey mpd)).
  cbv zeta. unfold mbind at 1. unfold M_bind at 1.
  match goal with |- context [(if ?c then ?x else ?y) w] =>
    assert (Hfirst : extends w (snd ((if c then x else y) w))
              (if c then [(MinipoolAddress mpd, NotOnBeacon (MinipoolAddress mpd) (Pubkey mpd))] else []));
    [ destruct c; [|apply extends_refl];
      unfold mbind, M_bind, mret, M_ret;
      pose proof (scrubVacantMinipool_extends B (MinipoolAddress mpd)
                    (NotOnBeacon (MinipoolAddress mpd) (Pubkey mpd)) w) as Hs;
      destruct (scrubVacantMinipool B _ _ w); exact Hs
    | destruct ((if c then x else y) w) as [[] w1] ]
  end.
  simpl snd in Hfirst. eapply extends_trans; [exact Hfirst|]. clear Hfirst.
  assert (Hscrub : forall r w0,
    extends w0 (snd ((scrubVacantMinipool B (MinipoolAddress mpd) r;; mret tt) w0))
               [(MinipoolAddress mpd, r)]).
  { intros r w0. unfold mbind, M_bind, mret, M_ret.
    pose proof (scrubVacantMinipool_extends B (MinipoolAddress mpd) r w0) as Hs.
    destruct (scrubVacantMinipool B _ _ w0); exact Hs. }
  repeat match goal with
         | |- extends _ (snd ((if ?c then _ else _) _)) _ => destruct c
         | |- extends _ (snd (mret tt _)) [] => apply extends_refl
         | |- _ => apply Hscrub
         end.
Qed.

Lemma forEachMinipool_extends (B : Backend) (state : NetworkState)
  (mpds : list NativeMinipoolDetails) (w : World) :
  extends w (snd (forEachMinipool B state mpds w)) (concat (map (verdict state) mpds)).
Proof.
  revert w. induction mpds as [|mpd rest IH]; intros w; [apply extends_refl|].
  simpl forEachMinipool. unfold mbind, M_bind.
  pose proof (auditMinipool_extends B state mpd w) as H1.
  destruct (auditMinipool B state mpd w) as [[] w1]. simpl snd in H1.
  simpl. eapply extends_trans; [exact H1 | apply IH].
Qed.

(** [checkSoloMigrations] returns [nil], takes the decisions of [plan], and
    leaves the error log alone. *)
Lemma checkSoloMigrations_extends (B : Backend) (state : NetworkState) (w : World) :
  fst (checkSoloMigrations B state w) = None /\
  extends w (snd (checkSoloMigrations B state w)) (plan state).
Proof.
  unfold checkSoloMigrations, plan. run_monad.
  match goal with |- context [forEachMinipool B state ?l ?w1] =>
    pose proof (forEachMinipool_extends B state l w1) as H; 
    destruct (forEachMinipool B state l w1) as [[] w2] end.
  destruct H as [H1 H2]. cbn [fst snd logOut errOut] in *.
  split; [reflexivity|]. split; [|exact H2].
  rewrite H1, decisions_app. cbn [decisions omap]. rewrite app_nil_r. reflexivity.
Qed.

End WatchtowerFacts.

(** ** Arithmetic of the check on in-range inputs *)
Module RangeFacts.
Import Go Watchtower Spec GoFacts.

Lemma wrap_int64_small (z : Z) : minInt64 <= z <= maxInt64 -> wrap_int64 z = z.
Proof.
  unfold wrap_int64, minInt64, maxInt64. intros H.
  rewrite Z.mod_small by lia. lia.
Qed.

Lemma wrap_uint64_small (z : Z) : 0 <= z < 2 ^ 64 -> wrap_uint64 z = z.
Proof. unfold wrap_uint64. intros H. apply Z.mod_small. exact H. Qed.



Lemma wrap_int64_range (z : Z) : minInt64 <= wrap_int64 z <= maxInt64.
Proof.
  unfold wrap_int64, minInt64, maxInt64.
  pose proof (Z.mod_pos_bound (z + 2 ^ 63) (2 ^ 64) ltac:(lia)). lia.
Qed.

Lemma wrap_int64_add (a b : Z) : wrap_int64 (wrap_int64 a + b) = wrap_int64 (a + b).
Proof.
  unfold wrap_int64.
  replace ((a + 2 ^ 63) mod 2 ^ 64 - 2 ^ 63 + b + 2 ^ 63)
    with ((a + 2 ^ 63) mod 2 ^ 64 + b) by lia.
  rewrite Zplus_mod_idemp_l. f_equal. f_equal. lia.
Qed.

Lemma wrap_int64_mul (a b : Z) : wrap_int64 (wrap_int64 a * b) = wrap_int64 (a * b).
Proof.
  unfold wrap_int64.
  replace (((a + 2 ^ 63) mod 2 ^ 64 - 2 ^ 63) * b + 2 ^ 63)
    with ((a + 2 ^ 63) mod 2 ^ 64 * b + (2 ^ 63 - 2 ^ 63 * b)) by lia.
  rewrite <- Zplus_mod_idemp_l, Zmult_mod_idemp_l, Zplus_mod_idemp_l.
  f_equal. f_equal. lia.
Qed.

Lemma addSec_exact (e d : Z) :
  minInt64 <= e + d <= maxInt64 -> addSec e d = e + d.
Proof.
  intros H. unfold addSec. cbv zeta. rewrite (wrap_int64_small _ H).
  destruct (Z.ltb_spec e (e + d)), (Z.ltb_spec 0 d); cbn [Bool.eqb]; lia.
Qed.

(** Away from the ends of the range of the seconds, [Add] moves the
    instant by the duration. *)
Lemma Time_Add_exact (t : Time) (d : Duration) :
  0 <= nsec t < Second -> - 2 ^ 62 <= ext t <= 2 ^ 62 + 2 ^ 38 ->
  minInt64 <= d <= maxInt64 ->
  0 <= nsec (Time_Add t d) < Second /\
  ext t - 2 ^ 34 <= ext (Time_Add t d) <= ext t + 2 ^ 34 /\
  instant (Time_Add t d) = instant t + d.
Proof.
  unfold Second, minInt64, maxInt64, instant, Time_Add. intros Hn He Hd. cbv zeta.
  assert (Hq : Z.quot d 1000000000 * 1000000000 + Z.rem d 1000000000 = d /\
               - 1000000000 < Z.rem d 1000000000 < 1000000000 /\
               - 2 ^ 34 + 1 < Z.quot d 1000000000 < 2 ^ 34 - 1).
  { Z.to_euclidean_division_equations. lia. }
  set (q := Z.quot d 1000000000) in *. set (r := Z.rem d 1000000000) in *.
  destruct (Z.leb_spec 1000000000 (nsec t + r)); [|destruct (Z.ltb_spec (nsec t + r) 0)];
    cbn [ext nsec]; rewrite addSec_exact by (unfold minInt64, maxInt64; lia);
    unfold Second; lia.
Qed.

Lemma Unix_exact (sec : Z) :
  0 <= sec < 2 ^ 62 + 2 ^ 34 ->
  Unix sec = {| ext := sec + unixToInternal; nsec := 0 |}.
Proof.
  intros H. unfold Unix. rewrite wrap_int64_small; [reflexivity|].
  unfold unixToInternal, minInt64, maxInt64. lia.
Qed.

(** For settled times the sign of [Sub] is the sign of the difference of
    the instants, whether or not the difference fits a [Duration]. *)
Lemma Time_Sub_negative (t u : Time) :
  settled t -> settled u ->
  (Time_Sub t u <? 0) = true <-> instant t < instant u.
Proof.
  intros [Hnt Het] [Hnu Heu]. unfold Time_Sub. cbv zeta.
  rewrite wrap_int64_mul, wrap_int64_add.
  set (D := (ext t - ext u) * Second + (nsec t - nsec u)).
  assert (HD : instant t - instant u = D) by (unfold instant, D; lia).
  pose proof (wrap_int64_range D) as Hr.
  destruct (Time_Add_exact u (wrap_int64 D) Hnu ltac:(lia) Hr) as (Hn' & He' & Hi').
  destruct (Time_Equal (Time_Add u (wrap_int64 D)) t) eqn:Heq.
  - unfold Time_Equal in Heq. apply andb_true_iff in Heq. destruct Heq as [H1 H2].
    apply Z.eqb_eq in H1, H2.
    assert (Hd : wrap_int64 D = D).
    { unfold instant in Hi'. rewrite H1, H2 in Hi'. unfold Second in *.
      set (x := wrap_int64 D) in *. unfold D. lia. }
    rewrite Hd, Z.ltb_lt. lia.
  - unfold Time_Before, instant in *. unfold Second in *.
    destruct (Z.ltb_spec (ext t) (ext u)); cbn [orb].
    + unfold minDuration, minInt64. split; [lia|reflexivity].
    + destruct (Z.eqb_spec (ext t) (ext u)); cbn [andb].
      * destruct (Z.ltb_spec (nsec t) (nsec u)).
        { unfold minDuration, minInt64. split; [lia|reflexivity]. }
        { unfold maxDuration, maxInt64. split; [discriminate|lia]. }
      * unfold maxDuration, maxInt64. split; [discriminate|lia].
Qed.

(** [Seconds] of a whole number of seconds is that number, exactly. *)
Lemma Duration_Seconds_whole (p : Z) : 0 <= p < 2 ^ 48 ->
  Duration_Seconds (p * Second) = f64_of_int p.
Proof.
  intros Hp. unfold Duration_Seconds.
  rewrite Z.quot_mul, Z.rem_mul by (unfold Second; lia).
  change (f64_div (f64_of_int 0) (f64_of_int 1000000000)) with (S754_zero false).
  destruct p as [|q|q]; [reflexivity| |lia].
  pose proof (digits2_pos_bounds q) as Hb.
  assert (Hd : Zpos (digits2_pos q) - 1 < 48)
    by (apply (pow2_lt_inv _ _ (Zpos q)); lia).
  unfold f64_of_int.
  rewrite (binary_normalize_small q (53 - Zpos (digits2_pos q))) by lia.
  reflexivity.
Qed.

(** The scrub threshold of a period of [p] whole seconds is [17 * p / 20]
    seconds: 0.85 of the period, rounded down to a second. *)
Lemma scrubThreshold_whole (state : NetworkState) (p : Z) :
  PromotionScrubPeriod (networkDetails state) = p * Second ->
  0 <= p -> p * Second <= maxDuration ->
  scrubThreshold state = 17 * p / 20 * Second.
Proof.
  intros HP Hp0 Hp. unfold scrubThreshold. rewrite HP.
  unfold Second, maxDuration, maxInt64 in *.
  assert (Hp48 : 0 <= p < 2 ^ 48) by lia.
  fold Second. rewrite Duration_Seconds_whole by exact Hp48.
  unfold int64_of_f64. rewrite mul_085_trunc by exact Hp48.
  pose proof (Z.div_mod (17 * p) 20 ltac:(lia)) as Hdm.
  pose proof (Z.mod_pos_bound (17 * p) 20 ltac:(lia)) as Hrho.
  assert (HF : 0 <= 17 * p / 20 <= p) by lia.
  unfold minInt64, maxInt64.
  destruct (Z.leb_spec (- 2 ^ 63) (17 * p / 20)); [|lia].
  destruct (Z.leb_spec (17 * p / 20) (2 ^ 63 - 1)); [|lia].
  cbn [andb]. unfold mul_int64, Second.
  apply wrap_int64_small. unfold minInt64, maxInt64. lia.
Qed.

Lemma blockTime_in_range (state : NetworkState) :
  0 <= GenesisTime (beaconConfig state) < 2 ^ 62 ->
  0 <= BeaconSlotNumber state -> 0 <= SecondsPerSlot (beaconConfig state) ->
  BeaconSlotNumber state * SecondsPerSlot (beaconConfig state) * Second <= maxDuration ->
  blockTime state = Unix (snapshotBlockSeconds state) /\
  settled (blockTime state) /\
  instant (blockTime state) = snapshotBlockSeconds state * Second.
Proof.
  intros Hg Hs Hp Hm. unfold blockTime, genesisTime, secondsForSlot, snapshotBlockSeconds,
    mul_int64, mul_uint64.
  unfold Second, maxDuration, maxInt64 in *.
  set (n := BeaconSlotNumber state * SecondsPerSlot (beaconConfig state)) in *.
  assert (0 <= n) by (unfold n; lia).
  rewrite (wrap_int64_small (GenesisTime _)) by (unfold minInt64, maxInt64; lia).
  rewrite (wrap_uint64_small n) by lia.
  rewrite (wrap_int64_small n) by (unfold minInt64, maxInt64; lia).
  rewrite wrap_int64_small by (unfold minInt64, maxInt64; lia).
  rewrite !Unix_exact by lia.
  unfold Time_Add. cbn [ext nsec]. rewrite Z.quot_mul, Z.rem_mul by lia.
  change (0 + 0) with 0. change (1000000000 <=? 0) with false.
  change (0 <? 0) with false. cbv iota.
  rewrite addSec_exact by (unfold unixToInternal, minInt64, maxInt64; lia).
  unfold settled, instant, unixToInternal, Second. cbn [ext nsec].
  split; [f_equal; lia|]. split; lia.
Qed.

(** The remaining time of a minipool, on representable times: it is
    negative exactly when the status-change time plus the scrub threshold
    lies before the block time. *)
Lemma remainingTime_negative (state : NetworkState) (mpd : NativeMinipoolDetails) :
  timesRepresentable state mpd ->
  (Time_Sub (Time_Add (Unix (bigInt_Int64 (StatusTime mpd))) (scrubThreshold state))
            (blockTime state) <? 0) = true
  <-> StatusTime mpd * Second + scrubThreshold state < snapshotBlockSeconds state * Second.
Proof.
  intros (Hg & Hs & Hsps & Hslot & HT).
  destruct (blockTime_in_range state Hg Hs Hsps Hslot) as (_ & Hsb & Hib).
  unfold bigInt_Int64. rewrite wrap_int64_small by (unfold minInt64, maxInt64; lia).
  rewrite Unix_exact by lia.
  assert (Hthr : minInt64 <= scrubThreshold state <= maxInt64)
    by (unfold scrubThreshold, mul_int64; apply wrap_int64_range).
  set (thr := scrubThreshold state) in *.
  set (created := {| ext := StatusTime mpd + unixToInternal; nsec := 0 |}).
  assert (Hn0 : 0 <= nsec created < Second) by (cbn; unfold Second; lia).
  assert (He0 : - 2 ^ 62 <= ext created <= 2 ^ 62 + 2 ^ 38)
    by (cbn; unfold unixToInternal; lia).
  destruct (Time_Add_exact created thr Hn0 He0 Hthr) as (Hn & He & Hi).
  assert (Hst : settled (Time_Add created thr)).
  { split; [exact Hn|]. cbn [created ext] in He. unfold unixToInternal in He. lia. }
  rewrite (Time_Sub_negative _ _ Hst Hsb).
  rewrite Hi, Hib. unfold instant. cbn [created ext nsec]. lia.
Qed.

End RangeFacts.

(** ** The classification of a minipool *)
Module Classification.
Import Go Watchtower Spec GoFacts WatchtowerFacts RangeFacts.

(** A pass of the loop body scrubs exactly when its verdict is not empty. *)
Lemma scrubs_verdict (B : Backend) (state : NetworkState) (mpd : NativeMinipoolDetails)
  (w : World) :
  scrubs B state mpd w <-> verdict state mpd <> [].
Proof.
  unfold scrubs. rewrite (extends_newDecisions _ _ _ (auditMinipool_extends B state mpd w)).
  reflexivity.
Qed.

Lemma MinipoolStatus_eqb_neq (a b : MinipoolStatus) :
  a <> b -> MinipoolStatus_eqb a b = false.
Proof. destruct a, b; simpl; congruence. Qed.

(** The verdict on an auditable minipool is decided by the credentials and
    balances of its validator alone. *)
Lemma verdict_auditable (state : NetworkState) (mpd : NativeMinipoolDetails)
  (v : ValidatorStatus) :
  auditable state mpd v ->
  verdict state mpd =
    let a := MinipoolAddress mpd in
    let creds := vWithdrawalCredentials v in
    let creationTime := Unix (bigInt_Int64 (StatusTime mpd)) in
    if hash_byte0 creds =? blsPrefix then
      if Time_Sub (Time_Add creationTime (scrubThreshold state)) (blockTime state) <? 0
      then [(a, TimedOut creationTime (blockTime state) (scrubThreshold state))]
      else []
    else if hash_byte0 creds =? elPrefix then
      if negb (creds =? WithdrawalCredentials mpd) then
        [(a, CredentialsMismatch (WithdrawalCredentials mpd) creds)]
      else if currentBalance v mpd <? threshold then
        [(a, BelowThreshold (currentBalance v mpd) threshold)]
      else if currentBalance v mpd <? sub_uint64 (creationBalanceGwei mpd) buffer then
        [(a, BelowCreationBalance (currentBalance v mpd) (creationBalanceGwei mpd) buffer)]
      else []
    else [(a, UnexpectedPrefix creds)].
Proof.
  intros (Hnd & Hvac & Hlook & Hex & Hst). unfold verdict.
  rewrite (MinipoolStatus_eqb_neq _ _ Hnd), Hvac, Hlook. cbn [negb default from_option id].
  rewrite Hex, Hst. cbn [negb]. rewrite String.eqb_refl. reflexivity.
Qed.



End Classification.

(** ** Claims about the watchtower *)
Module WatchtowerClaims.
Import Go Watchtower Spec GoFacts WatchtowerFacts RangeFacts Classification.

Ltac auditable_here :=
  unfold auditable; repeat split; try discriminate; try reflexivity;
  vm_compute; reflexivity.


(** A scrub period with a sub-second part: the binary64 product
    [seconds * 0.85] rounds up to 2203205, one second above the exact
    [0.85 * period]; at a block time exactly 2203205 seconds after the status
    change the minipool is not scrubbed although the block time exceeds the
    status-change time plus 0.85 of the period. *)
Example fractional_period_rounds_up :
  scrubThreshold snapshotFraction = 2203205 * Second /\
  auditable snapshotFraction minipoolFraction validatorFraction /\
  credentialPolicy snapshotFraction minipoolFraction validatorFraction /\
  ~ scrubs approvingBackend snapshotFraction minipoolFraction (emptyWorld 0).
Proof.
  split; [vm_compute; reflexivity|]. split; [auditable_here|].
  split; [vm_compute; reflexivity|].
  rewrite scrubs_verdict. intros H. apply H. vm_compute. reflexivity.
Qed.



(** A vacant, non-dissolved minipool whose public key has no validator
    record gets two decisions in one pass: the missing-record branch does not
    end the pass, and the zero value's empty state is not active_ongoing. *)
Lemma unseen_validator_verdict (B : Backend) (state : NetworkState)
  (mpd : NativeMinipoolDetails) (w : World) :
  Status mpd <> Dissolved -> IsVacant mpd = true ->
  ValidatorDetails state !! Pubkey mpd = None ->
  newDecisions w (snd (auditMinipool B state mpd w)) =
    [(MinipoolAddress mpd, NotOnBeacon (MinipoolAddress mpd) (Pubkey mpd));
     (MinipoolAddress mpd, WrongState (MinipoolAddress mpd) (Pubkey mpd) "")].
Proof.
  intros Hnd Hvac Hlook.
  rewrite (extends_newDecisions _ _ _ (auditMinipool_extends B state mpd w)).
  unfold verdict. rewrite (MinipoolStatus_eqb_neq _ _ Hnd), Hvac, Hlook. reflexivity.
Qed.

(** C6 (the code departs from the claim): the minipool with public key 107
    has no validator record in [snapshotUnseen]; one pass over it issues two
    scrub decisions and, when every submission succeeds, two transactions. *)
Theorem C6_unseen_validator_scrubbed_twice :
  ValidatorDetails snapshotUnseen !! Pubkey minipoolUnseen = None /\
  newDecisions (emptyWorld 0)
    (snd (auditMinipool approvingBackend snapshotUnseen minipoolUnseen (emptyWorld 0)))
  = [(7, NotOnBeacon 7 107); (7, WrongState 7 107 "")] /\
  length (sentTxs (snd (auditMinipool approvingBackend snapshotUnseen minipoolUnseen
                          (emptyWorld 0)))) = 2%nat.
Proof.
  split; [vm_compute; reflexivity|]. split.
  - apply unseen_validator_verdict; [discriminate | reflexivity | vm_compute; reflexivity].
  - vm_compute. reflexivity.
Qed.

(** No scan writes to the error log: the goroutine of [run] reports only an
    error returned by [checkSoloMigrations], which returns [nil]. *)
Lemma scanGoroutine_errOut (B : Backend) (state : NetworkState) (w : World) :
  errOut (snd (scanGoroutine B state w)) = errOut w.
Proof.
  unfold scanGoroutine. run_monad.
  match goal with |- context [checkSoloMigrations B state ?w1] =>
    destruct (checkSoloMigrations_extends B state w1) as [Hnil [_ Herr]];
    destruct (checkSoloMigrations B state w1) as [err w2] end.
  cbn [fst snd] in *. subst err. exact Herr.
Qed.

(** C7 (the code departs from the claim): when the execution client
    rejects the transaction, the scrub of minipool 7 returns the error; the
    scan drops it: nothing reaches the error log, the log holds only the
    scrub blocks, and the scan goes on to classify minipool 8. *)
Theorem C7_scrub_error_dropped :
  fst (scrubVacantMinipool rejectingBackend 7 (NotOnBeacon 7 107) (emptyWorld 0))
  = Some (ExternalError "nonce too low") /\
  errOut (snd (scanGoroutine rejectingBackend snapshotUnseen (emptyWorld 0))) = [] /\
  logOut (snd (scanGoroutine rejectingBackend snapshotUnseen (emptyWorld 0)))
  = [MsgStarting; MsgCheckingSlot 750 5;
     MsgScrubbing 7 (NotOnBeacon 7 107); MsgScrubbing 7 (WrongState 7 107 "");
     MsgScrubbing 8 (UnexpectedPrefix oddCreds)].
Proof. vm_compute. repeat split; reflexivity. Qed.

(** C8: in [scrubVacantMinipool], once the binding and the transactor are
    obtained, a failed gas estimation returns an error (wrapping the cause)
    and a veto of the fee gate returns [nil]; in both cases no transaction is
    submitted. *)
Theorem C8_veto_and_estimate_failure (B : Backend) (address : Address)
  (reason : ScrubReason) (w : World) (opts : TransactOpts) :
  NewMinipool B address (entryWorld address reason w) = None ->
  GetNodeAccountTransactor B (entryWorld address reason w) = inl opts ->
  match EstimateVoteScrubGas B address opts (entryWorld address reason w) with
  | inr err =>
    fst (scrubVacantMinipool B address reason w) = Some (ErrEstimateGas err) /\
    sentTxs (snd (scrubVacantMinipool B address reason w)) = sentTxs w
  | inl gasInfo =>
    fst (PrintAndCheckGasInfo B gasInfo (watchtowerMaxFee B) (entryWorld address reason w))
    = false ->
    fst (scrubVacantMinipool B address reason w) = None /\
    sentTxs (snd (scrubVacantMinipool B address reason w)) = sentTxs w
  end.
Proof.
  unfold entryWorld, scrubVacantMinipool. run_monad. cbn [snd].
  intros Hmp Htr. rewrite Hmp, Htr.
  destruct (EstimateVoteScrubGas B address opts _) as [gasInfo|err]; [|split; reflexivity].
  intros Hveto.
  destruct (PrintAndCheckGasInfo B gasInfo _ _) as [ok lines]. cbn [fst snd] in *.
  subst ok. split; reflexivity.
Qed.

(** C8, witness: with a vetoing gate the scrub of minipool 1 returns [nil],
    with a failing estimation it returns the error; neither submits. *)
Lemma C8_veto_and_estimate_failure_witness :
  (fst (scrubVacantMinipool vetoingBackend 1 (UnexpectedPrefix oddCreds) (emptyWorld 0)) = None /\
   sentTxs (snd (scrubVacantMinipool vetoingBackend 1 (UnexpectedPrefix oddCreds) (emptyWorld 0)))
   = []) /\
  (fst (scrubVacantMinipool failingBackend 1 (UnexpectedPrefix oddCreds) (emptyWorld 0))
   = Some (ErrEstimateGas (ExternalError "execution reverted")) /\
   sentTxs (snd (scrubVacantMinipool failingBackend 1 (UnexpectedPrefix oddCreds) (emptyWorld 0)))
   = []).
Proof.
  split.
  - exact (C8_veto_and_estimate_failure vetoingBackend 1 (UnexpectedPrefix oddCreds)
             (emptyWorld 0) someOpts eq_refl eq_refl eq_refl).
  - exact (C8_veto_and_estimate_failure failingBackend 1 (UnexpectedPrefix oddCreds)
             (emptyWorld 0) someOpts eq_refl eq_refl).
Defined.

(** C9: the scrub decisions of a scan are a function of the snapshot alone:
    two runs over the same snapshot take the same decisions, [plan state],
    whatever the collaborators answer and whatever the earlier log and the
    wall clock of the machine are; and the block time every timeout is
    compared with is the genesis time plus slot number times seconds per
    slot of the snapshot (where Go represents these times without
    wrap-around). *)
Theorem C9_classification_deterministic (B1 B2 : Backend) (state : NetworkState)
  (w1 w2 : World) :
  newDecisions w1 (snd (checkSoloMigrations B1 state w1))
  = newDecisions w2 (snd (checkSoloMigrations B2 state w2)) /\
  newDecisions w1 (snd (checkSoloMigrations B1 state w1)) = plan state /\
  (0 <= GenesisTime (beaconConfig state) < 2 ^ 62 ->
   0 <= BeaconSlotNumber state -> 0 <= SecondsPerSlot (beaconConfig state) ->
   BeaconSlotNumber state * SecondsPerSlot (beaconConfig state) * Second <= maxDuration ->
   blockTime state
   = Unix (GenesisTime (beaconConfig state)
           + BeaconSlotNumber state * SecondsPerSlot (beaconConfig state))).
Proof.
  destruct (checkSoloMigrations_extends B1 state w1) as [_ H1].
  destruct (checkSoloMigrations_extends B2 state w2) as [_ H2].
  rewrite (extends_newDecisions _ _ _ H1), (extends_newDecisions _ _ _ H2).
  split; [reflexivity|]. split; [reflexivity|].
  intros Hg Hs Hsps Hslot. apply (blockTime_in_range state Hg Hs Hsps Hslot).
Qed.

(** C10, the claim as stated, fails: with a pre-migration balance of zero
    the subtraction wraps to [2^64 - 1_000_000], and a combined balance of
    [2^64 - 1] gwei is not below it: the minipool reaches the balance check
    and is not scrubbed. *)
Lemma C10_counterexample_not_scrubbed :
  reachesBalanceCheck snapshotEdge minipoolEdge validatorEdge /\
  creationBalanceGwei minipoolEdge < 1000000 /\
  ~ scrubs approvingBackend snapshotEdge minipoolEdge (emptyWorld 0).
Proof.
  split; [split; [auditable_here | split; reflexivity]|].
  split; [reflexivity|].
  rewrite scrubs_verdict. intros H. apply H. vm_compute. reflexivity.
Qed.

(** C10 (amended): for a minipool that reaches the balance check with
    [creationBalanceGwei] below the buffer of 1_000_000 gwei, the unsigned
    64-bit subtraction wraps to [2^64 - 1_000_000 + creationBalanceGwei], and
    the minipool is scrubbed exactly when its combined balance is below that
    value: in particular for every combined balance below
    [2^64 - 1_000_000], whether or not it has decreased. *)
Theorem C10_buffer_subtraction_wraps (B : Backend) (state : NetworkState)
  (mpd : NativeMinipoolDetails) (v : ValidatorStatus) (w : World) :
  reachesBalanceCheck state mpd v ->
  creationBalanceGwei mpd < 1000000 ->
  sub_uint64 (creationBalanceGwei mpd) buffer
  = 2 ^ 64 - 1000000 + creationBalanceGwei mpd /\
  (scrubs B state mpd w
   <-> currentBalance v mpd < 2 ^ 64 - 1000000 + creationBalanceGwei mpd) /\
  (currentBalance v mpd < 2 ^ 64 - 1000000 -> scrubs B state mpd w).
Proof.
  intros (Ha & Hp & Hc) Hsmall.
  assert (Hc0 : 0 <= creationBalanceGwei mpd).
  { unfold creationBalanceGwei, bigInt_Uint64. apply Z.mod_pos_bound. lia. }
  assert (Hsub : sub_uint64 (creationBalanceGwei mpd) buffer
                 = 2 ^ 64 - 1000000 + creationBalanceGwei mpd).
  { unfold sub_uint64, wrap_uint64, buffer.
    replace (creationBalanceGwei mpd - 1000000)
      with (2 ^ 64 - 1000000 + creationBalanceGwei mpd + (-1) * 2 ^ 64) by lia.
    rewrite Z.mod_add by lia. apply Z.mod_small. lia. }
  assert (Hiff : scrubs B state mpd w
                 <-> currentBalance v mpd < 2 ^ 64 - 1000000 + creationBalanceGwei mpd).
  { rewrite scrubs_verdict, (verdict_auditable _ _ _ Ha). cbv zeta.
    rewrite Hp, Hc, !Z.eqb_refl, Hsub. cbn [negb]. unfold blsPrefix, elPrefix, threshold.
    change (1 =? 0) with false. cbv iota.
    destruct (Z.ltb_spec (currentBalance v mpd) 32000000000);
      [split; [lia | intros _; discriminate]|].
    destruct (Z.ltb_spec (currentBalance v mpd)
                (2 ^ 64 - 1000000 + creationBalanceGwei mpd));
      [split; [lia | intros _; discriminate]|].
    split; [congruence | lia]. }
  split; [exact Hsub|]. split; [exact Hiff|]. intros H. apply Hiff. lia.
Qed.

(** C10, witness: a minipool with no pre-migration balance whose validator
    holds exactly 32 ETH reaches the balance check and is scrubbed. *)
Lemma C10_buffer_subtraction_wraps_witness :
  sub_uint64 (creationBalanceGwei minipoolNoDeposit) buffer
  = 2 ^ 64 - 1000000 + creationBalanceGwei minipoolNoDeposit /\
  (scrubs approvingBackend snapshotNoDeposit minipoolNoDeposit (emptyWorld 0)
   <-> currentBalance validatorNoDeposit minipoolNoDeposit
       < 2 ^ 64 - 1000000 + creationBalanceGwei minipoolNoDeposit) /\
  (currentBalance validatorNoDeposit minipoolNoDeposit < 2 ^ 64 - 1000000 ->
   scrubs approvingBackend snapshotNoDeposit minipoolNoDeposit (emptyWorld 0)).
Proof.
  apply C10_buffer_subtraction_wraps.
  - split; [unfold auditable; repeat split; try discriminate; reflexivity
           | split; reflexivity].
  - reflexivity.
Defined.

(** The four literal scenarios of the specification, in one snapshot: M1
    times out, M2 has the wrong credentials, M3 is below the threshold, M4 is
    not vacant and is skipped. *)
Example scenarios_M1_to_M4 :
  plan snapshotScenarios
  = [(1, TimedOut (Unix 1000) (Unix 10000) (8500 * Second));
     (2, CredentialsMismatch elCreds otherElCreds);
     (3, BelowThreshold 31999000000 32000000000)].
Proof. vm_compute. reflexivity. Qed.

End WatchtowerClaims.

(** ** The activity process *)
Module ActivityFacts.
Import Activity.

Section Process.
Variable Payload : Type.
Variable unmarshal : Payload -> option ServerMessage.
Variable beaconSend : ClientMessage -> option string.

Local Abbreviation step := (step Payload unmarshal beaconSend).
Local Abbreviation exec := (exec Payload unmarshal beaconSend).
Local Abbreviation appliedStatus := (appliedStatus Payload unmarshal).
Local Abbreviation lastApplied := (lastApplied Payload unmarshal).
Local Abbreviation isEpoch := (isEpoch Payload unmarshal).
Local Abbreviation onBeaconClientMessage := (onBeaconClientMessage Payload unmarshal beaconSend).

(** The handler keeps the key, and sets [validatorActive] as the status it
    applies says; it sends a heartbeat exactly on an epoch message while
    [validatorActive] holds. *)
Lemma onBeaconClientMessage_spec (p : ActivityProcess) (data : Payload) :
  let c := RecvMessage data in
  exists p' effs,
    (onBeaconClientMessage p data = Returns p' effs \/
     onBeaconClientMessage p data = Panics p' effs) /\
    pubkeyHex p' = pubkeyHex p /\
    validatorActive p' = activeAfter (appliedStatus (pubkeyHex p) c) (validatorActive p) /\
    sendsHeartbeat (pubkeyHex p) effs = isEpoch c && validatorActive p.
Proof.
  cbv zeta. unfold onBeaconClientMessage, Activity.onBeaconClientMessage,
    appliedStatus, Activity.appliedStatus, isEpoch, Activity.isEpoch, knownStatus.
  destruct (unmarshal data) as [message|];
    [|exists p, [Log LogErrDecoding]; repeat split; auto].
  destruct (String.eqb (Message message) "validator_status") eqn:Emsg.
  - apply String.eqb_eq in Emsg. rewrite Emsg. cbn [String.eqb Ascii.eqb Bool.eqb andb].
    destruct (String.eqb (pubkeyHex p) (sPubkey message)) eqn:Epk; cbn [negb andb];
      [|eexists _, _; split; [left; reflexivity|]; repeat split; reflexivity].
    destruct (String.eqb (StatusCode message) "inactive") eqn:E1.
    { apply String.eqb_eq in E1. rewrite E1.
      eexists _, _; split; [left; reflexivity|]; repeat split; reflexivity. }
    destruct (String.eqb (StatusCode message) "active") eqn:E2.
    { eexists _, _; split; [left; reflexivity|]. cbn [orb activeAfter]. rewrite E2.
      repeat split; reflexivity. }
    cbn [orb].
    destruct (String.eqb (StatusCode message) "exited"
              || String.eqb (StatusCode message) "withdrawable"
              || String.eqb (StatusCode message) "withdrawn") eqn:E3.
    + destruct (stop p);
        eexists _, _; (split; [(left; reflexivity) || (right; reflexivity)|]);
        cbn [activeAfter]; rewrite E2; repeat split; reflexivity.
    + eexists _, _; split; [left; reflexivity|]. repeat split; reflexivity.
  - destruct (String.eqb (Message message) "epoch") eqn:Eep.
    + destruct (validatorActive p) eqn:Eact; cbn [negb andb activeAfter];
        [|eexists _, _; split; [left; reflexivity|]; repeat split; auto].
      destruct (beaconSend (activityMessage p));
        eexists _, _; (split; [left; reflexivity|]); repeat split; auto;
        cbn [sendsHeartbeat existsb isHeartbeat activityMessage cMessage cPubkey];
        rewrite !String.eqb_refl; reflexivity.
    + cbn [andb activeAfter].
      destruct (String.eqb (Message message) "success");
        [destruct (String.eqb (Action message) "process_activity")|
         destruct (String.eqb (Message message) "error")];
        eexists _, _; (split; [left; reflexivity|]); repeat split; reflexivity.
Qed.

(** One step of the process: the same, for every communication. *)
Lemma step_spec (s s' : System) (c : Choice Payload) (effs : list Effect) :
  step s c = Some (s', effs) ->
  pubkeyHex (proc s') = pubkeyHex (proc s) /\
  validatorActive (proc s')
  = activeAfter (appliedStatus (pubkeyHex (proc s)) c) (validatorActive (proc s)) /\
  sendsHeartbeat (pubkeyHex (proc s)) effs = isEpoch c && validatorActive (proc s).
Proof.
  unfold step, Activity.step. destruct (crashed s); [discriminate|].
  destruct c as [|data| |].
  - destruct (subscribed s); [|discriminate]. unfold onBeaconClientConnected.
    destruct (beaconSend (statusRequest (proc s))); intros H; injection H as <- <-;
      repeat split; reflexivity.
  - destruct (subscribed s); [|discriminate].
    destruct (onBeaconClientMessage_spec (proc s) data) as (p' & effs' & Ho & Hk & Hv & Hh).
    intros H. destruct Ho as [Ho|Ho]; rewrite Ho in H; injection H as <- <-; auto.
  - destruct (subscribed s && isClosed (stop (proc s))); [|discriminate].
    intros H; injection H as <- <-. repeat split; reflexivity.
  - destruct (blocked s && isClosed (stop (proc s))); [|discriminate].
    intros H; injection H as <- <-. repeat split; reflexivity.
Qed.

Lemma lastApplied_cons (pubkey : string) (c : Choice Payload) (cs : list (Choice Payload)) :
  lastApplied pubkey (c :: cs)
  = match lastApplied pubkey cs with
    | Some code => Some code
    | None => appliedStatus pubkey c
    end.
Proof.
  unfold lastApplied, Activity.lastApplied.
  change (omap (appliedStatus pubkey) (c :: cs))
    with (match appliedStatus pubkey c with
          | Some y => y :: omap (appliedStatus pubkey) cs
          | None => omap (appliedStatus pubkey) cs
          end).
  destruct (appliedStatus pubkey c) as [code|];
    [|destruct (last (omap (appliedStatus pubkey) cs)); reflexivity].
  rewrite last_cons. reflexivity.
Qed.

(** Along a run, [validatorActive] is whether the status most recently
    applied is [active]. *)
Lemma exec_validatorActive (cs : list (Choice Payload)) (s s' : System) (effs : list Effect) :
  exec s cs = Some (s', effs) ->
  pubkeyHex (proc s') = pubkeyHex (proc s) /\
  validatorActive (proc s')
  = activeAfter (lastApplied (pubkeyHex (proc s)) cs) (validatorActive (proc s)).
Proof.
  revert s effs. induction cs as [|c cs IH]; intros s effs H.
  - injection H as <- <-. split; reflexivity.
  - cbn [Activity.exec] in H.
    destruct (step s c) as [[s1 e1]|] eqn:Hstep; [|discriminate].
    destruct (exec s1 cs) as [[s2 e2]|] eqn:Hexec; [|discriminate].
    injection H as <- <-.
    destruct (step_spec _ _ _ _ Hstep) as (Hk1 & Hv1 & _).
    destruct (IH _ _ Hexec) as (Hk2 & Hv2).
    split; [congruence|]. rewrite lastApplied_cons, Hv2, Hk1, Hv1.
    destruct (lastApplied (pubkeyHex (proc s)) cs); reflexivity.
Qed.

(** The done channel is signalled at most once, and only by [start] leaving
    its [select]. *)
Lemma exec_doneSignals (cs : list (Choice Payload)) (s s' : System) (effs : list Effect) :
  exec s cs = Some (s', effs) ->
  doneSignals s = (if blocked s then 0 else 1)%nat ->
  doneSignals s' = (if blocked s' then 0 else 1)%nat.
Proof.
  revert s effs. induction cs as [|c cs IH]; intros s effs H Hinv.
  - injection H as <- <-. exact Hinv.
  - cbn [Activity.exec] in H.
    destruct (step s c) as [[s1 e1]|] eqn:Hstep; [|discriminate].
    destruct (exec s1 cs) as [[s2 e2]|] eqn:Hexec; [|discriminate].
    injection H as <- <-. apply (IH _ _ Hexec).
    unfold step, Activity.step in Hstep. destruct (crashed s); [discriminate|].
    destruct c as [|data| |].
    + destruct (subscribed s); [|discriminate].
      destruct (onBeaconClientConnected beaconSend (proc s));
        injection Hstep as <- <-; exact Hinv.
    + destruct (subscribed s); [|discriminate].
      destruct (onBeaconClientMessage (proc s) data);
        injection Hstep as <- <-; exact Hinv.
    + destruct (subscribed s && isClosed (stop (proc s))); [|discriminate].
      injection Hstep as <- <-. exact Hinv.
    + destruct (blocked s) eqn:Eb; [|discriminate]. cbn [andb] in Hstep.
      destruct (isClosed (stop (proc s))); [|discriminate].
      injection Hstep as <- <-. cbn. rewrite Hinv. reflexivity.
Qed.

End Process.
End ActivityFacts.

(** ** Claims about the activity process *)
Module ActivityClaims.
Import Activity Scenarios ActivityFacts.

(** C3: along every sequence of communications of one activity process, a
    step sends a heartbeat if and only if it receives an epoch message and
    the most recently applied [validator_status] message for the key of the
    process carried status [active]; in the initial state (no status applied)
    and after an [inactive] status no step sends a heartbeat. *)
Theorem C3_heartbeat_iff_active (Payload : Type)
  (unmarshal : Payload -> option ServerMessage)
  (beaconSend : ClientMessage -> option string) (pubkey : string)
  (cs : list (Choice Payload)) (c : Choice Payload)
  (s s' : System) (effs effs' : list Effect) :
  exec Payload unmarshal beaconSend (startSystem pubkey) cs = Some (s, effs) ->
  step Payload unmarshal beaconSend s c = Some (s', effs') ->
  (sendsHeartbeat pubkey effs' = true
   <-> isEpoch Payload unmarshal c = true /\
       lastApplied Payload unmarshal pubkey cs = Some "active"%string) /\
  (lastApplied Payload unmarshal pubkey cs = None \/
   lastApplied Payload unmarshal pubkey cs = Some "inactive"%string ->
   sendsHeartbeat pubkey effs' = false).
Proof.
  intros Hexec Hstep.
  destruct (exec_validatorActive _ _ _ _ _ _ _ Hexec) as [Hk Hv].
  destruct (step_spec _ _ _ _ _ _ _ Hstep) as (_ & _ & Hh).
  cbn [startSystem proc newProcess pubkeyHex validatorActive] in Hk, Hv.
  rewrite Hk in Hh. rewrite Hh, Hv. unfold activeAfter. split.
  - rewrite andb_true_iff.
    destruct (lastApplied Payload unmarshal pubkey cs) as [code|].
    + rewrite String.eqb_eq. split; intros [H1 H2]; split; congruence.
    + split; intros [H1 H2]; discriminate.
  - intros [H|H]; rewrite H; apply andb_false_r.
Qed.

(** C3, witness: after an [active] status an epoch sends the heartbeat. *)
Lemma C3_heartbeat_iff_active_witness :
  (sendsHeartbeat key [Log (LogNewEpoch key); Send (activityMessage (newProcess key))] = true
   <-> isEpoch _ decoded (RecvMessage epochMessage) = true /\
       lastApplied _ decoded key [RecvMessage (statusMessage key "active")]
       = Some "active"%string) /\
  (lastApplied _ decoded key [RecvMessage (statusMessage key "active")] = None \/
   lastApplied _ decoded key [RecvMessage (statusMessage key "active")]
   = Some "inactive"%string ->
   sendsHeartbeat key [Log (LogNewEpoch key); Send (activityMessage (newProcess key))]
   = false).
Proof.
  exact (C3_heartbeat_iff_active _ decoded sendOk key
           [RecvMessage (statusMessage key "active")] (RecvMessage epochMessage)
           _ _ _ _ eq_refl eq_refl).
Defined.

(** C4 (the code departs from the claim): an [exited] status for the key
    is applied and closes [stop]; while the goroutine has not yet taken the
    [stop] case of its [select], a later [active] status sets
    [validatorActive] again and the next epoch sends a heartbeat. *)
Theorem C4_heartbeat_after_exit :
  lastApplied _ decoded key [RecvMessage (statusMessage key "exited")]
  = Some "exited"%string /\
  exec _ decoded sendOk process0 exitThenActive
  = Some ({| proc := {| pubkeyHex := key; validatorActive := true; stop := Closed |};
             subscribed := true; blocked := true; doneSignals := 0; crashed := false |},
          [Log (LogExited key); Log (LogActive key);
           Log (LogNewEpoch key); Send {| cMessage := "activity"; cPubkey := key |}]).
Proof. split; reflexivity. Qed.

(** Once [stop] is closed, every further exit-family status for the key of
    the process makes the handler panic. *)
Lemma exit_on_closed_stop_panics (Payload : Type)
  (unmarshal : Payload -> option ServerMessage)
  (beaconSend : ClientMessage -> option string)
  (p : ActivityProcess) (data : Payload) (message : ServerMessage) :
  unmarshal data = Some message ->
  Message message = "validator_status"%string -> sPubkey message = pubkeyHex p ->
  StatusCode message = "exited"%string \/ StatusCode message = "withdrawable"%string \/
  StatusCode message = "withdrawn"%string ->
  stop p = Closed ->
  onBeaconClientMessage Payload unmarshal beaconSend p data
  = Panics {| pubkeyHex := pubkeyHex p; validatorActive := false; stop := Closed |}
           [Log (LogExited (sPubkey message))].
Proof.
  intros Hdec Hmsg Hkey Hcode Hstop. unfold onBeaconClientMessage.
  rewrite Hdec, Hmsg, Hkey, !String.eqb_refl, Hstop. cbn [negb].
  destruct Hcode as [Hc|[Hc|Hc]]; rewrite Hc; reflexivity.
Qed.

(** C5 (the code departs from the claim): a second exit-family status
    for the key, handled after the first, closes the closed channel [stop]:
    the handler panics. *)
Theorem C5_second_exit_panics :
  onBeaconClientMessage _ decoded sendOk
    {| pubkeyHex := key; validatorActive := false; stop := Closed |}
    (statusMessage key "withdrawn")
  = Panics {| pubkeyHex := key; validatorActive := false; stop := Closed |}
           [Log (LogExited key)] /\
  exec _ decoded sendOk process0 exitTwice
  = Some ({| proc := {| pubkeyHex := key; validatorActive := false; stop := Closed |};
             subscribed := true; blocked := true; doneSignals := 0; crashed := true |},
          [Log (LogExited key); Log (LogExited key)]).
Proof. split; reflexivity. Qed.

(** A run in which the goroutine takes the [stop] case at once: one
    heartbeat while active, none later, and one signal on [done]. *)
Example activeThenExit_run :
  exec _ decoded sendOk process0 activeThenExit
  = Some ({| proc := {| pubkeyHex := key; validatorActive := false; stop := Closed |};
             subscribed := false; blocked := false; doneSignals := 1; crashed := false |},
          [Log (LogActive key); Log (LogNewEpoch key);
           Send {| cMessage := "activity"; cPubkey := key |};
           Log (LogExited key); Log (LogEnding key)]).
Proof. reflexivity. Qed.

End ActivityClaims.

(** ** Claims about the single-flight guard *)
Module SingleFlightClaims.
Import SingleFlight Scenarios.

(** A call that holds the lock and finds the flag set logs, unlocks and
    returns without starting a goroutine. *)
Lemma call_returns_when_running (t : Task) (i : nat) :
  threads t !! i = Some (Call CallCheck) -> isRunning t = true ->
  step t (Advance i)
  = Some (move (release (print t LineAlreadyRunning) true) i (Call (CallReturned false))).
Proof. intros Hth Hrun. unfold step. rewrite Hth, Hrun. reflexivity. Qed.

(** C2 (the code departs from the claim): the flag is set by the
    goroutine, not by the call that checked it.  A second call of [run] made
    after the first has returned, but before the first goroutine has set the
    flag, passes the check as well, and two scans are in flight together.
    When the first scan ends it clears the flag, and a third call made while
    the second scan still executes starts yet another scan. *)
Theorem C2_two_scans_in_flight :
  exec newTask twoCalls
  = Some {| isRunning := true; lock := None;
            threads := [Call (CallReturned false); Scan ScanInFlight;
                        Call (CallReturned false); Scan ScanInFlight];
            printed := [LineChecking; LineChecking; LineStarting; LineStarting] |} /\
  option_map scansInFlight (exec newTask twoCalls) = Some 2%nat /\
  exec newTask (twoCalls ++ thirdCall)
  = Some {| isRunning := true; lock := None;
            threads := [Call (CallReturned false); Scan ScanFinished;
                        Call (CallReturned false); Scan ScanInFlight;
                        Call (CallReturned false); Scan ScanInFlight];
            printed := [LineChecking; LineChecking; LineStarting; LineStarting;
                        LineChecking; LineStarting] |}.
Proof. repeat split; reflexivity. Qed.

End SingleFlightClaims.

(** ** Further properties of a scan *)
Module WatchtowerExtras.
Import Go Watchtower Spec ScanNotions GoFacts WatchtowerFacts RangeFacts Classification.

Ltac split_all := repeat match goal with |- _ /\ _ => split end.
Ltac settle := split_all; first [assumption | reflexivity].

Lemma MinipoolStatus_eqb_false (a b : MinipoolStatus) :
  MinipoolStatus_eqb a b = false -> a <> b.
Proof. destruct a, b; simpl; congruence. Qed.

Lemma in_one {A} (x y : A) : In x [y] -> y = x.
Proof. intros [H|[]]. exact H. Qed.

(** Every decision of a pass names the minipool of the pass, which is vacant
    and not dissolved, and gives a reason that holds in the snapshot. *)
Lemma verdict_justified (state : NetworkState) (mpd : NativeMinipoolDetails)
  (a : Address) (r : ScrubReason) :
  In (a, r) (verdict state mpd) ->
  a = MinipoolAddress mpd /\ IsVacant mpd = true /\ Status mpd <> Dissolved /\
  justified state mpd r.
Proof.
  unfold verdict, justified, validatorOf.
  destruct (MinipoolStatus_eqb (Status mpd) Dissolved) eqn:Ed; [intros []|].
  apply MinipoolStatus_eqb_false in Ed.
  destruct (IsVacant mpd) eqn:Ev; [|intros []]. cbn [negb].
  set (v := default zeroValidatorStatus (ValidatorDetails state !! Pubkey mpd)).
  cbv zeta. rewrite in_app_iff.
  destruct (Exists v) eqn:Ee; cbn [negb].
  all: destruct (String.eqb_spec (vStatus v) ValidatorState_ActiveOngoing) as [Es|Es]; cbn [negb].
  all: destruct (Z.eqb_spec (hash_byte0 (vWithdrawalCredentials v)) blsPrefix) as [Eb|Eb].
  all: destruct (Time_Sub (Time_Add (Unix (bigInt_Int64 (StatusTime mpd))) (scrubThreshold state))
                   (blockTime state) <? 0) eqn:Et.
  all: try (pose proof (fun H => proj1 (remainingTime_negative state mpd H) Et) as Et';
            apply Z.ltb_lt in Et).
  all: destruct (Z.eqb_spec (hash_byte0 (vWithdrawalCredentials v)) elPrefix) as [Ep|Ep].
  all: destruct (Z.eqb_spec (vWithdrawalCredentials v) (WithdrawalCredentials mpd)) as [Ec|Ec];
    cbn [negb].
  all: unfold threshold.
  all: destruct (Z.ltb_spec (currentBalance v mpd) 32000000000) as [Eth|Eth].
  all: destruct (Z.ltb_spec (currentBalance v mpd) (sub_uint64 (creationBalanceGwei mpd) buffer))
      as [Ecb|Ecb].
  all: intros [Hin|Hin]; try (destruct Hin; fail); apply in_one in Hin;
    injection Hin as Ha Hr; rewrite <- Ha, <- Hr; clear Ha Hr.
  all: settle.
Qed.

Lemma in_plan (state : NetworkState) (a : Address) (r : ScrubReason) :
  In (a, r) (plan state) ->
  exists mpd, In mpd (MinipoolDetails state) /\ In (a, r) (verdict state mpd).
Proof.
  unfold plan. rewrite in_concat. intros (l & Hl & Hin).
  apply in_map_iff in Hl. destruct Hl as (mpd & <- & Hmpd). eauto.
Qed.

(** X1: whatever the collaborators answer, every scrub decision of a scan
    concerns a minipool of the snapshot that is flagged vacant and is not
    dissolved: the scan never scrubs any other minipool. *)
Theorem X1_scan_scrubs_only_vacant (B : Backend) (state : NetworkState) (w : World)
  (a : Address) (r : ScrubReason) :
  In (a, r) (newDecisions w (snd (checkSoloMigrations B state w))) ->
  exists mpd, In mpd (MinipoolDetails state) /\ MinipoolAddress mpd = a /\
              IsVacant mpd = true /\ Status mpd <> Dissolved.
Proof.
  destruct (checkSoloMigrations_extends B state w) as [_ Hext].
  rewrite (extends_newDecisions _ _ _ Hext). intros Hin.
  destruct (in_plan _ _ _ Hin) as (mpd & Hmpd & Hv).
  destruct (verdict_justified _ _ _ _ Hv) as (Ha & Hvac & Hnd & _).
  exists mpd. auto.
Qed.

(** X1, witness: the timeout decision of the scenario snapshot concerns the
    vacant minipool M1. *)
Lemma X1_scan_scrubs_only_vacant_witness :
  exists mpd, In mpd (MinipoolDetails snapshotScenarios) /\ MinipoolAddress mpd = 1 /\
              IsVacant mpd = true /\ Status mpd <> Dissolved.
Proof.
  apply (X1_scan_scrubs_only_vacant approvingBackend snapshotScenarios (emptyWorld 0) 1
           (TimedOut (Unix 1000) (Unix 10000) (8500 * Second))).
  vm_compute. left. reflexivity.
Defined.

(** X2: every reason a pass of the loop gives is true of the snapshot: an
    unseen validator has no record, a wrong state is the recorded state and
    is not active_ongoing, a timeout means that the remaining time the check
    computed is negative (and, where genesis time, slot time and
    status-change time are such that Go represents them without
    wrap-around, that the status-change time plus the scrub threshold lies
    before the block time), a mismatch means differing credentials under
    prefix 0x01, and the balance reasons quote the combined balance the
    check computed and the bound it is below. *)
Theorem X2_reasons_are_justified (B : Backend) (state : NetworkState)
  (mpd : NativeMinipoolDetails) (w : World) (a : Address) (r : ScrubReason) :
  In (a, r) (newDecisions w (snd (auditMinipool B state mpd w))) ->
  a = MinipoolAddress mpd /\ justified state mpd r.
Proof.
  rewrite (extends_newDecisions _ _ _ (auditMinipool_extends B state mpd w)).
  intros Hin. destruct (verdict_justified _ _ _ _ Hin) as (Ha & _ & _ & Hj). auto.
Qed.

(** X2, witness: M1 is scrubbed for a timeout: its status changed at second
    1000, the threshold is 8500 s and the block time is second 10000. *)
Lemma X2_reasons_are_justified_witness :
  1 = MinipoolAddress minipoolM1 /\
  justified snapshotM1 minipoolM1 (TimedOut (Unix 1000) (Unix 10000) (8500 * Second)).
Proof.
  apply (X2_reasons_are_justified approvingBackend snapshotM1 minipoolM1 (emptyWorld 0)).
  vm_compute. left. reflexivity.
Defined.

(** Outside the representable times the seconds of [time.Unix] wrap
    around, and the check follows the wrapped times: a status-change time of
    [2^63 - 1] seconds becomes a time long before the epoch and the minipool
    is scrubbed for a timeout; with a genesis time of [2^63 - 1] seconds the
    block time becomes such a time and M1, 9000 s past its status change, is
    not scrubbed. *)
Example wrapped_times :
  plan snapshotFarFuture
  = [(11, TimedOut {| ext := - 2 ^ 63 + unixToInternal - 1; nsec := 0 |} (Unix 10000)
            (8500 * Second))] /\
  plan snapshotLateGenesis = [].
Proof. split; vm_compute; reflexivity. Qed.

(** X3: a pass of the loop takes at most two decisions for a minipool, and
    at most one when the validator record of the minipool exists. *)
Theorem X3_decisions_per_minipool (B : Backend) (state : NetworkState)
  (mpd : NativeMinipoolDetails) (w : World) :
  (length (newDecisions w (snd (auditMinipool B state mpd w))) <= 2)%nat /\
  (Exists (validatorOf state mpd) = true ->
   (length (newDecisions w (snd (auditMinipool B state mpd w))) <= 1)%nat).
Proof.
  rewrite (extends_newDecisions _ _ _ (auditMinipool_extends B state mpd w)).
  unfold verdict, validatorOf.
  set (v := default zeroValidatorStatus (ValidatorDetails state !! Pubkey mpd)).
  cbv zeta. split; [|intros ->; cbn [negb]].
  all: repeat match goal with |- context [if ?c then _ else _] => destruct c end.
  all: cbn [length app]; lia.
Qed.

(** *** Lifting a property of the calls of [scrubVacantMinipool] to a scan *)
Section Lifting.
Variable B : Backend.
Variable R : World -> World -> Prop.
Hypothesis R_refl : forall w, R w w.
Hypothesis R_trans : forall w1 w2 w3, R w1 w2 -> R w2 w3 -> R w1 w3.
Hypothesis R_check : forall slot elBlock w,
  R w (snd (printMessage (MsgCheckingSlot slot elBlock) w)).
Hypothesis R_scrub : forall a r w, R w (snd (scrubVacantMinipool B a r w)).

Lemma auditMinipool_lift (state : NetworkState) (mpd : NativeMinipoolDetails) (w : World) :
  R w (snd (auditMinipool B state mpd w)).
Proof.
  assert (Hscrub : forall r w0,
    R w0 (snd ((scrubVacantMinipool B (MinipoolAddress mpd) r;; mret tt) w0))).
  { intros r w0. unfold mbind, M_bind, mret, M_ret.
    pose proof (R_scrub (MinipoolAddress mpd) r w0) as Hs.
    destruct (scrubVacantMinipool B _ _ w0); exact Hs. }
  unfold auditMinipool.
  destruct (MinipoolStatus_eqb (Status mpd) Dissolved); [apply R_refl|].
  destruct (negb (IsVacant mpd)); [apply R_refl|].
  set (validator := default zeroValidatorStatus (ValidatorDetails state !! Pubkey mpd)).
  cbv zeta. unfold mbind at 1. unfold M_bind at 1.
  match goal with |- context [(if ?c then ?x else ?y) w] =>
    assert (Hfirst : R w (snd ((if c then x else y) w)));
    [ destruct c; [apply Hscrub | apply R_refl]
    | destruct ((if c then x else y) w) as [[] w1] ]
  end.
  simpl snd in Hfirst. eapply R_trans; [exact Hfirst|]. clear Hfirst.
  repeat match goal with
         | |- R _ (snd ((if ?c then _ else _) _)) => destruct c
         | |- R _ (snd (mret tt _)) => apply R_refl
         | |- _ => apply Hscrub
         end.
Qed.

Lemma forEachMinipool_lift (state : NetworkState) (mpds : list NativeMinipoolDetails)
  (w : World) :
  R w (snd (forEachMinipool B state mpds w)).
Proof.
  revert w. induction mpds as [|mpd rest IH]; intros w; [apply R_refl|].
  simpl forEachMinipool. unfold mbind, M_bind.
  pose proof (auditMinipool_lift state mpd w) as H1.
  destruct (auditMinipool B state mpd w) as [[] w1]. simpl snd in H1.
  eapply R_trans; [exact H1 | apply IH].
Qed.

Lemma checkSoloMigrations_lift (state : NetworkState) (w : World) :
  R w (snd (checkSoloMigrations B state w)).
Proof.
  unfold checkSoloMigrations. unfold mbind at 1. unfold M_bind at 1.
  pose proof (R_check (BeaconSlotNumber state) (ElBlockNumber state) w) as H0.
  destruct (printMessage _ w) as [[] w0]. simpl snd in H0.
  unfold mbind, M_bind, mret, M_ret.
  pose proof (forEachMinipool_lift state (MinipoolDetails state) w0) as H1.
  destruct (forEachMinipool B state _ w0) as [[] w1]. simpl snd in *.
  eapply R_trans; eassumption.
Qed.

End Lifting.

(** The case analysis of a call of [scrubVacantMinipool] on the answers of
    its collaborators. *)
Ltac scrub_cases :=
  unfold scrubVacantMinipool; run_monad;
  repeat match goal with
         | |- context [NewMinipool ?b ?x ?y] => destruct (NewMinipool b x y)
         | |- context [GetNodeAccountTransactor ?b ?x] =>
           destruct (GetNodeAccountTransactor b x)
         | |- context [EstimateVoteScrubGas ?b ?x ?y ?z] =>
           destruct (EstimateVoteScrubGas b x y z)
         | |- context [PrintAndCheckGasInfo ?b ?x ?y ?z] =>
           let E := fresh "Egate" in
           destruct (PrintAndCheckGasInfo b x y z) as [[] ?] eqn:E; cbn [fst snd negb]
         | |- context [VoteScrub ?b ?x ?y ?z] =>
           let E := fresh "Evote" in destruct (VoteScrub b x y z) eqn:E
         | |- context [PrintAndWaitForTransaction ?b ?x ?y] =>
           let E := fresh "Ewait" in
           destruct (PrintAndWaitForTransaction b x y) as [[] ?] eqn:E; cbn [fst snd]
         end;
  cbn [fst snd logOut errOut sentTxs wallClock].

Lemma appendsOnly_intro (w w' : World) (ls : list LogLine) (txs : list Tx) :
  logOut w' = logOut w ++ ls -> sentTxs w' = sentTxs w ++ txs ->
  errOut w' = errOut w -> wallClock w' = wallClock w ->
  appendsOnly w w' /\ newLines w w' = ls /\ newTxs w w' = txs.
Proof.
  intros Hl Ht He Hc. unfold appendsOnly, newLines, newTxs.
  rewrite Hl, Ht, !drop_app_length. auto.
Qed.

Lemma appendsOnly_refl (w : World) :
  appendsOnly w w /\ newLines w w = [] /\ newTxs w w = [].
Proof. apply appendsOnly_intro; rewrite ?app_nil_r; reflexivity. Qed.

Lemma appendsOnly_trans (w1 w2 w3 : World) :
  appendsOnly w1 w2 -> appendsOnly w2 w3 ->
  appendsOnly w1 w3 /\
  newLines w1 w3 = newLines w1 w2 ++ newLines w2 w3 /\
  newTxs w1 w3 = newTxs w1 w2 ++ newTxs w2 w3.
Proof.
  intros (Hl1 & Ht1 & He1 & Hc1) (Hl2 & Ht2 & He2 & Hc2).
  apply appendsOnly_intro; [| |congruence|congruence].
  - rewrite Hl2, Hl1 at 1. symmetry. apply app_assoc.
  - rewrite Ht2, Ht1 at 1. symmetry. apply app_assoc.
Qed.

Lemma newDecisions_newLines (w w' : World) :
  appendsOnly w w' -> newDecisions w w' = decisions (newLines w w').
Proof.
  intros (Hl & _). unfold newDecisions. rewrite Hl at 1.
  rewrite decisions_app. apply drop_app_length.
Qed.

Lemma submitsOwn_refl (B : Backend) (w : World) : submitsOwn B w w.
Proof.
  destruct (appendsOnly_refl w) as (Ha & Hl & Ht). unfold submitsOwn, submitsWithin.
  rewrite Ht. split; [exact Ha|]. split; [apply sublist_nil_l | constructor].
Qed.

Lemma submitsOwn_trans (B : Backend) (w1 w2 w3 : World) :
  submitsOwn B w1 w2 -> submitsOwn B w2 w3 -> submitsOwn B w1 w3.
Proof.
  unfold submitsOwn. intros (Ha1 & Hs1 & Hf1) (Ha2 & Hs2 & Hf2).
  destruct (appendsOnly_trans _ _ _ Ha1 Ha2) as (Ha & Hl & Ht).
  split; [exact Ha|].
  rewrite (newDecisions_newLines _ _ Ha), Hl, Ht, decisions_app, !map_app.
  rewrite <- !newDecisions_newLines by assumption.
  split; [apply sublist_app; assumption | apply Forall_app; auto].
Qed.

Lemma submitsOwn_check (B : Backend) (slot elBlock : Z) (w : World) :
  submitsOwn B w (snd (printMessage (MsgCheckingSlot slot elBlock) w)).
Proof.
  destruct (appendsOnly_intro w (snd (printMessage (MsgCheckingSlot slot elBlock) w))
              [MsgCheckingSlot slot elBlock] []) as (Ha & Hl & Ht);
    try reflexivity; [symmetry; apply app_nil_r|].
  unfold submitsOwn. split; [exact Ha|]. rewrite Ht. split; [apply sublist_nil_l | constructor].
Qed.

Lemma submitsOwn_scrub (B : Backend) (a : Address) (r : ScrubReason) (w : World) :
  submitsOwn B w (snd (scrubVacantMinipool B a r w)).
Proof.
  unfold submitsOwn.
  rewrite (extends_newDecisions _ _ _ (scrubVacantMinipool_extends B a r w)).
  scrub_cases.
  all: unfold submitsWithin.
  all: match goal with
       | |- appendsOnly ?w0 ?w1 /\ _ =>
         first
           [ destruct (appendsOnly_intro w0 w1 _ [] ltac:(cbn [logOut]; rewrite <- ?app_assoc; reflexivity)
                         ltac:(cbn [sentTxs]; rewrite ?app_nil_r; reflexivity) eq_refl eq_refl)
               as (Ha & _ & Ht)
           | destruct (appendsOnly_intro w0 w1 _ [_] ltac:(cbn [logOut]; rewrite <- ?app_assoc; reflexivity)
                         eq_refl eq_refl eq_refl)
               as (Ha & _ & Ht) ]
       end.
  all: rewrite Ht; split; [exact Ha|]; split;
    [first [apply sublist_nil_l | reflexivity]
    | repeat constructor].
Qed.

(** X4: a scan only appends to the log and to the submitted transactions and
    leaves the error log and the clock alone; it submits [voteScrub]
    transactions only for minipools it decided to scrub in this scan, in the
    order of its decisions and at most one per decision, each with the fee
    cap and the priority fee of the configuration. *)
Theorem X4_scan_submits_within_decisions (B : Backend) (state : NetworkState) (w : World) :
  submitsOwn B w (snd (checkSoloMigrations B state w)).
Proof.
  apply (checkSoloMigrations_lift B (submitsOwn B)).
  - apply submitsOwn_refl.
  - apply submitsOwn_trans.
  - apply submitsOwn_check.
  - apply submitsOwn_scrub.
Qed.

(** X5: when the fee gate rejects every estimate, no scan submits any
    transaction, whatever it decides. *)
Theorem X5_vetoed_scan_submits_nothing (B : Backend) (state : NetworkState) (w : World) :
  (forall gasInfo maxFee w0, fst (PrintAndCheckGasInfo B gasInfo maxFee w0) = false) ->
  sentTxs (snd (checkSoloMigrations B state w)) = sentTxs w.
Proof.
  intros Hveto.
  apply (checkSoloMigrations_lift B (fun w1 w2 => sentTxs w2 = sentTxs w1)).
  - reflexivity.
  - intros w1 w2 w3 H1 H2. congruence.
  - reflexivity.
  - intros a r w0. scrub_cases; try reflexivity.
    all: match goal with
         | E : PrintAndCheckGasInfo ?b ?g ?f ?w1 = _ |- _ =>
           pose proof (Hveto g f w1) as Hv; rewrite E in Hv; discriminate Hv
         end.
Qed.

(** X5, witness: the scan of the scenario snapshot against the vetoing fee
    gate. *)
Lemma X5_vetoed_scan_submits_nothing_witness :
  sentTxs (snd (checkSoloMigrations vetoingBackend snapshotScenarios (emptyWorld 0))) = [].
Proof.
  apply (X5_vetoed_scan_submits_nothing vetoingBackend snapshotScenarios (emptyWorld 0)).
  intros gasInfo maxFee w0. reflexivity.
Defined.

(** X6: for a promotion scrub period of a whole number of seconds, the
    [float64] computation of the scrub threshold is exact: the threshold is
    a whole number of seconds, at most 0.85 of the period and less than a
    second below it. *)
Theorem X6_threshold_is_85_percent (state : NetworkState) (p : Z) :
  PromotionScrubPeriod (networkDetails state) = p * Second ->
  0 <= p -> p * Second <= maxDuration ->
  Z.rem (scrubThreshold state) Second = 0 /\
  100 * scrubThreshold state <= 85 * (p * Second) < 100 * (scrubThreshold state + Second).
Proof.
  intros HP Hp0 Hp. rewrite (scrubThreshold_whole state p HP Hp0 Hp).
  split; [apply Z.rem_mul; unfold Second; lia|].
  pose proof (Z.div_mod (17 * p) 20 ltac:(lia)) as Hdm.
  pose proof (Z.mod_pos_bound (17 * p) 20 ltac:(lia)) as Hrho.
  unfold Second. lia.
Qed.

(** X6, witness: a period of 10000 s gives a threshold of 8500 s. *)
Lemma X6_threshold_is_85_percent_witness :
  Z.rem (scrubThreshold snapshotM1) Second = 0 /\
  100 * scrubThreshold snapshotM1 <= 85 * (10000 * Second)
  < 100 * (scrubThreshold snapshotM1 + Second).
Proof.
  apply (X6_threshold_is_85_percent snapshotM1 10000).
  - reflexivity.
  - lia.
  - unfold Second, maxDuration, maxInt64. lia.
Defined.




Lemma voted_not_external (a : Address) (texts : list string) :
  ~ In (MsgVoted a) (map MsgExternal texts).
Proof. rewrite in_map_iff. intros (t & Ht & _). discriminate Ht. Qed.

(** X8: a call of [scrubVacantMinipool] logs the line "Successfully voted
    to scrub minipool" exactly when it returns [nil] after submitting a
    transaction; the transaction is then the only one it submitted. *)
Theorem X8_voted_line_means_submitted (B : Backend) (a : Address) (r : ScrubReason)
  (w : World) :
  let res := scrubVacantMinipool B a r w in
  In (MsgVoted a) (newLines w (snd res))
  <-> fst res = None /\ exists tx, newTxs w (snd res) = [tx] /\ txMinipool tx = a.
Proof.
  cbv zeta. scrub_cases.
  all: match goal with
       | |- context [newLines ?w0 ?w1] =>
         first
           [ destruct (appendsOnly_intro w0 w1 _ [] ltac:(cbn [logOut]; rewrite <- ?app_assoc; reflexivity)
                         ltac:(cbn [sentTxs]; rewrite ?app_nil_r; reflexivity) eq_refl eq_refl)
               as (_ & Hl & Ht)
           | destruct (appendsOnly_intro w0 w1 _ [_] ltac:(cbn [logOut]; rewrite <- ?app_assoc; reflexivity)
                         eq_refl eq_refl eq_refl)
               as (_ & Hl & Ht) ]
       end.
  all: rewrite Hl, Ht; clear Hl Ht.
  all: rewrite ?in_app_iff; cbn [In]; split.
  all: try (intros [_ (tx & Htx & _)]; discriminate Htx).
  all: try (intros [Hn _]; discriminate Hn).
  all: try (intros _; split; [reflexivity|]; eexists; split; reflexivity).
  all: try (intros _; auto 10; fail).
  all: intros H; exfalso;
    repeat match goal with
           | H : _ \/ _ |- _ => destruct H as [H|H]
           | H : In _ (map MsgExternal _) |- _ => apply voted_not_external in H
           | H : MsgScrubbing _ _ = MsgVoted _ |- _ => discriminate H
           | H : False |- _ => exact H
           end.
Qed.

(** X24: an error of [scrubVacantMinipool] does not mean that nothing was
    sent.  When a call returns an error and has submitted a transaction, the
    transaction is the one for the minipool of the call, [VoteScrub] had
    accepted it, and the error is the one
    [PrintAndWaitForTransaction] returned for its hash; the errors of the
    binding, the transactor, the gas estimation and [VoteScrub] come with no
    transaction. *)
Theorem X24_error_after_submission (B : Backend) (a : Address) (r : ScrubReason)
  (w : World) (e : GoError) :
  let res := scrubVacantMinipool B a r w in
  fst res = Some e -> newTxs w (snd res) <> [] ->
  exists tx hash w0 w1,
    newTxs w (snd res) = [tx] /\ txMinipool tx = a /\
    VoteScrub B a (txOpts tx) w0 = inl hash /\
    fst (PrintAndWaitForTransaction B hash w1) = Some e.
Proof.
  cbv zeta. scrub_cases.
  all: intros He; try discriminate He.
  all: match goal with
       | |- context [newTxs ?w0 ?w1] =>
         first
           [ destruct (appendsOnly_intro w0 w1 _ [] ltac:(cbn [logOut]; rewrite <- ?app_assoc; reflexivity)
                         ltac:(cbn [sentTxs]; rewrite ?app_nil_r; reflexivity) eq_refl eq_refl)
               as (_ & _ & Ht)
           | destruct (appendsOnly_intro w0 w1 _ [_] ltac:(cbn [logOut]; rewrite <- ?app_assoc; reflexivity)
                         eq_refl eq_refl eq_refl)
               as (_ & _ & Ht) ]
       end.
  all: rewrite Ht; clear Ht; intros Htx; try (exfalso; apply Htx; reflexivity).
  injection He as <-. eexists _, _, _, _. split; [reflexivity|]. split; [reflexivity|].
  split; [exact Evote|]. rewrite Ewait. reflexivity.
Qed.

(** X24, witness: the transaction is sent, then waiting for it fails. *)
Lemma X24_error_after_submission_witness :
  exists tx hash w0 w1,
    newTxs (emptyWorld 0)
      (snd (scrubVacantMinipool stallingBackend 8 (UnexpectedPrefix oddCreds) (emptyWorld 0)))
    = [tx] /\ txMinipool tx = 8 /\
    VoteScrub stallingBackend 8 (txOpts tx) w0 = inl hash /\
    fst (PrintAndWaitForTransaction stallingBackend hash w1)
    = Some (ExternalError "timed out waiting for the transaction").
Proof.
  apply (X24_error_after_submission stallingBackend 8 (UnexpectedPrefix oddCreds)
           (emptyWorld 0)).
  - reflexivity.
  - discriminate.
Defined.

End WatchtowerExtras.

(** ** Further properties of the activity process *)
Module ActivityExtras.
Import Activity ActivityNotions Scenarios Endings ActivityFacts.

Section Process.
Variable Payload : Type.
Variable unmarshal : Payload -> option ServerMessage.

Local Abbreviation appliedStatus := (appliedStatus Payload unmarshal).
Local Abbreviation appliesExit := (appliesExit Payload unmarshal).
Local Abbreviation exitCount := (exitCount Payload unmarshal).

(** What the message handler does to [stop]: it closes the channel on an
    exit-family status for the key, and panics when the channel is closed
    already. *)
Lemma onBeaconClientMessage_stop (beaconSend : ClientMessage -> option string)
  (p : ActivityProcess) (data : Payload) :
  let c := RecvMessage data in
  exists p' effs,
    onBeaconClientMessage Payload unmarshal beaconSend p data
    = (if isClosed (stop p) && appliesExit (pubkeyHex p) c then Panics p' effs
       else Returns p' effs) /\
    isClosed (stop p') = isClosed (stop p) || appliesExit (pubkeyHex p) c.
Proof.
  cbv zeta. unfold onBeaconClientMessage, appliesExit, ActivityNotions.appliesExit,
    appliedStatus, Activity.appliedStatus, knownStatus, isExitCode.
  destruct (unmarshal data) as [message|];
    [|rewrite !andb_false_r, orb_false_r; eauto].
  destruct (String.eqb (Message message) "validator_status") eqn:Emsg.
  - cbn [andb].
    destruct (String.eqb (pubkeyHex p) (sPubkey message)) eqn:Epk; cbn [negb andb];
      [|rewrite !andb_false_r, orb_false_r; eauto].
    destruct (String.eqb (StatusCode message) "inactive") eqn:E1.
    { apply String.eqb_eq in E1. rewrite E1. cbn [String.eqb Ascii.eqb Bool.eqb orb andb].
      rewrite !andb_false_r, orb_false_r. eauto. }
    destruct (String.eqb (StatusCode message) "active") eqn:E2.
    { apply String.eqb_eq in E2. rewrite E2. cbn [String.eqb Ascii.eqb Bool.eqb orb andb].
      rewrite !andb_false_r, orb_false_r. eauto. }
    cbn [orb].
    destruct (String.eqb (StatusCode message) "exited"
              || String.eqb (StatusCode message) "withdrawable"
              || String.eqb (StatusCode message) "withdrawn") eqn:E3.
    + destruct (stop p); cbn [isClosed andb orb]; rewrite ?E3; eauto.
    + rewrite !andb_false_r, orb_false_r. eauto.
  - cbn [andb]. rewrite !andb_false_r, orb_false_r.
    repeat match goal with
           | |- context [if ?c then _ else _] => destruct c
           | |- context [match ?c with Some _ => _ | None => _ end] => destruct c
           end; eauto.
Qed.

End Process.

Section Runs.
Variable Payload : Type.
Variable unmarshal : Payload -> option ServerMessage.
Variable beaconSend : ClientMessage -> option string.

Local Abbreviation step := (step Payload unmarshal beaconSend).
Local Abbreviation exec := (exec Payload unmarshal beaconSend).
Local Abbreviation appliedStatus := (appliedStatus Payload unmarshal).
Local Abbreviation appliesExit := (appliesExit Payload unmarshal).
Local Abbreviation exitCount := (exitCount Payload unmarshal).

(** One step of the process, seen from its channels: [stop] is closed by
    an exit-family status and stays closed; the step panics when it
    closes [stop] again; [start] and the goroutine leave only through the
    [stop] cases, which need the closed channel. *)
Lemma step_channels (s s' : System) (c : Choice Payload) (effs : list Effect) :
  step s c = Some (s', effs) ->
  crashed s = false /\
  pubkeyHex (proc s') = pubkeyHex (proc s) /\
  isClosed (stop (proc s'))
  = isClosed (stop (proc s)) || appliesExit (pubkeyHex (proc s)) c /\
  crashed s' = isClosed (stop (proc s)) && appliesExit (pubkeyHex (proc s)) c /\
  (blocked s' = blocked s \/ blocked s' = false /\ isClosed (stop (proc s)) = true) /\
  (subscribed s' = subscribed s \/
   subscribed s' = false /\ isClosed (stop (proc s)) = true).
Proof.
  unfold step, Activity.step, afterHandler. destruct (crashed s); [discriminate|].
  destruct c as [|data| |].
  - destruct (subscribed s); [|discriminate]. unfold onBeaconClientConnected.
    destruct (beaconSend (statusRequest (proc s))); intros H; injection H as <- <-;
      cbn; rewrite andb_false_r, orb_false_r; auto 10.
  - destruct (subscribed s) eqn:Es; [|discriminate].
    destruct (onBeaconClientMessage_stop Payload unmarshal beaconSend (proc s) data)
      as (p' & effs' & Ho & Hc).
    assert (Hk : pubkeyHex p' = pubkeyHex (proc s)).
    { destruct (onBeaconClientMessage_spec Payload unmarshal beaconSend (proc s) data)
        as (p2 & e2 & Ho2 & Hk & _).
      rewrite Ho in Ho2.
      destruct (isClosed (stop (proc s)) && _), Ho2 as [Ho2|Ho2]; congruence. }
    rewrite Ho. intros H.
    destruct (isClosed (stop (proc s)) && _) eqn:Ecr; injection H as <- <-;
      cbn; auto 10.
  - destruct (subscribed s); [|discriminate]. cbn [andb].
    destruct (isClosed (stop (proc s))) eqn:Ecl; [|discriminate].
    intros H; injection H as <- <-. cbn. rewrite Ecl. auto 10.
  - destruct (blocked s); [|discriminate]. cbn [andb].
    destruct (isClosed (stop (proc s))) eqn:Ecl; [|discriminate].
    intros H; injection H as <- <-. cbn. rewrite Ecl. auto 10.
Qed.

Lemma exec_cons (s s'' : System) (c : Choice Payload) (cs : list (Choice Payload))
  (effs : list Effect) :
  exec s (c :: cs) = Some (s'', effs) ->
  exists s' e1 e2, step s c = Some (s', e1) /\ exec s' cs = Some (s'', e2) /\
                   effs = e1 ++ e2.
Proof.
  cbn [Activity.exec]. destruct (step s c) as [[s1 e1]|]; [|discriminate].
  destruct (exec s1 cs) as [[s2 e2]|] eqn:Hexec; [|discriminate].
  intros H; injection H as <- <-. eauto 10.
Qed.

(** After a panic nothing runs. *)
Lemma exec_crashed (s s' : System) (cs : list (Choice Payload)) (effs : list Effect) :
  crashed s = true -> exec s cs = Some (s', effs) -> cs = [] /\ s' = s.
Proof.
  intros Hcr. destruct cs as [|c cs].
  - intros H; injection H as <- <-. auto.
  - cbn [Activity.exec]. unfold step, Activity.step. rewrite Hcr. discriminate.
Qed.

(** Along a run, [stop] is closed exactly when it was closed before or an
    exit-family status was applied; whoever has left its [select] has seen
    [stop] closed. *)
Lemma exec_channels (cs : list (Choice Payload)) (s s' : System) (effs : list Effect) :
  exec s cs = Some (s', effs) ->
  pubkeyHex (proc s') = pubkeyHex (proc s) /\
  isClosed (stop (proc s'))
  = isClosed (stop (proc s)) || existsb (appliesExit (pubkeyHex (proc s))) cs /\
  (blocked s' = false -> blocked s = false \/ isClosed (stop (proc s')) = true) /\
  (subscribed s' = false -> subscribed s = false \/ isClosed (stop (proc s')) = true).
Proof.
  revert s effs. induction cs as [|c cs IH]; intros s effs H.
  - injection H as <- <-. cbn. rewrite orb_false_r. auto.
  - apply exec_cons in H. destruct H as (s1 & e1 & e2 & Hstep & Hexec & _).
    destruct (step_channels _ _ _ _ Hstep) as (_ & Hk1 & Hc1 & _ & Hb1 & Hs1).
    destruct (IH _ _ Hexec) as (Hk2 & Hc2 & Hb2 & Hs2).
    rewrite Hk1 in *. cbn [existsb].
    assert (Hmono : isClosed (stop (proc s)) = true -> isClosed (stop (proc s')) = true).
    { intros Hcl. rewrite Hc2, Hc1, Hcl. reflexivity. }
    split; [congruence|]. split; [rewrite Hc2, Hc1, orb_assoc; reflexivity|]. split.
    + intros Hb. destruct (Hb2 Hb) as [Hb'|Hb']; [|auto].
      destruct Hb1 as [Hb1|[_ Hb1]]; [left; congruence | auto].
    + intros Hs. destruct (Hs2 Hs) as [Hs'|Hs']; [|auto].
      destruct Hs1 as [Hs1|[_ Hs1]]; [left; congruence | auto].
Qed.

Lemma exec_crash_count (cs : list (Choice Payload)) (s s' : System) (effs : list Effect) :
  exec s cs = Some (s', effs) -> crashed s = false ->
  let k := (exitCount (pubkeyHex (proc s)) cs
            + (if isClosed (stop (proc s)) then 1 else 0))%nat in
  crashed s' = (2 <=? k)%nat /\ (k <= 2)%nat.
Proof.
  cbv zeta. revert s effs. induction cs as [|c cs IH]; intros s effs H Hcr.
  - injection H as <- <-. rewrite Hcr. cbn.
    destruct (isClosed (stop (proc s))); cbn; auto.
  - apply exec_cons in H. destruct H as (s1 & e1 & e2 & Hstep & Hexec & _).
    destruct (step_channels _ _ _ _ Hstep) as (_ & Hk1 & Hc1 & Hcr1 & _).
    unfold exitCount, ActivityNotions.exitCount in *. cbn [List.filter].
    destruct (crashed s1) eqn:Ecr.
    + destruct (exec_crashed _ _ _ _ Ecr Hexec) as [-> ->].
      symmetry in Hcr1. apply andb_true_iff in Hcr1. destruct Hcr1 as [-> ->].
      rewrite Ecr. cbn. auto.
    + specialize (IH _ _ Hexec Ecr). rewrite Hk1, Hc1 in IH.
      destruct (isClosed (stop (proc s))), (appliesExit (pubkeyHex (proc s)) c);
        cbn [andb orb length] in *; try discriminate Hcr1;
        rewrite ?Nat.add_0_r in *; rewrite ?Nat.add_1_r in *; exact IH.
Qed.

End Runs.

(** X9: the activity process ends only after an exit-family status for its
    own key was applied: [start] leaves its [select] and signals [done], and
    the goroutine unsubscribes, only then.  [done] is signalled at most
    once, exactly when [start] has left its [select]. *)
Theorem X9_ends_only_after_exit (Payload : Type)
  (unmarshal : Payload -> option ServerMessage)
  (beaconSend : ClientMessage -> option string) (pubkey : string)
  (cs : list (Choice Payload)) (s' : System) (effs : list Effect) :
  exec Payload unmarshal beaconSend (startSystem pubkey) cs = Some (s', effs) ->
  doneSignals s' = (if blocked s' then 0 else 1)%nat /\
  (blocked s' = false \/ subscribed s' = false ->
   existsb (appliesExit Payload unmarshal pubkey) cs = true).
Proof.
  intros Hexec. split.
  - apply (exec_doneSignals _ _ _ _ _ _ _ Hexec). reflexivity.
  - destruct (exec_channels _ _ _ _ _ _ _ Hexec) as (_ & Hc & Hb & Hs).
    cbn in Hc, Hb, Hs. rewrite <- Hc.
    intros [H|H]; [destruct (Hb H) as [H'|H'] | destruct (Hs H) as [H'|H']];
      first [discriminate H' | exact H'].
Qed.

(** X9, witness: the run in which the validator is active, then exits. *)
Lemma X9_ends_only_after_exit_witness :
  doneSignals endedSystem = (if blocked endedSystem then 0 else 1)%nat /\
  (blocked endedSystem = false \/ subscribed endedSystem = false ->
   existsb (appliesExit _ decoded key) activeThenExit = true).
Proof.
  exact (X9_ends_only_after_exit _ decoded sendOk key activeThenExit endedSystem
           _ eq_refl).
Defined.

(** X10: once an exit-family status for the key was applied and the
    process has not panicked, [start] can leave its [select]: it logs the
    ending line and signals [done]; and the goroutine can unsubscribe. *)
Theorem X10_exit_lets_the_process_end (Payload : Type)
  (unmarshal : Payload -> option ServerMessage)
  (beaconSend : ClientMessage -> option string) (pubkey : string)
  (cs : list (Choice Payload)) (s' : System) (effs : list Effect) :
  exec Payload unmarshal beaconSend (startSystem pubkey) cs = Some (s', effs) ->
  existsb (appliesExit Payload unmarshal pubkey) cs = true ->
  crashed s' = false ->
  (blocked s' = true ->
   step Payload unmarshal beaconSend s' MainStop
   = Some ({| proc := proc s'; subscribed := subscribed s'; blocked := false;
              doneSignals := 1; crashed := false |}, [Log (LogEnding pubkey)])) /\
  (subscribed s' = true ->
   step Payload unmarshal beaconSend s' LoopStop
   = Some ({| proc := proc s'; subscribed := false; blocked := blocked s';
              doneSignals := doneSignals s'; crashed := false |}, [])).
Proof.
  intros Hexec Hexit Hcr.
  destruct (exec_channels _ _ _ _ _ _ _ Hexec) as (Hk & Hc & _).
  pose proof (exec_doneSignals _ _ _ _ _ _ _ Hexec eq_refl) as Hd.
  cbn in Hk, Hc. rewrite Hexit in Hc.
  unfold step. rewrite Hcr, Hc, Hk.
  split; intros Hb; rewrite Hb in *; rewrite ?Hd; reflexivity.
Qed.

(** X10, witness: after an [exited] status, before anyone has seen [stop]
    closed. *)
Lemma X10_exit_lets_the_process_end_witness :
  (blocked exitedSystem = true ->
   step _ decoded sendOk exitedSystem MainStop
   = Some ({| proc := exitedProcess; subscribed := true; blocked := false;
              doneSignals := 1; crashed := false |}, [Log (LogEnding key)])) /\
  (subscribed exitedSystem = true ->
   step _ decoded sendOk exitedSystem LoopStop = Some (unsubscribedSystem, [])).
Proof.
  exact (X10_exit_lets_the_process_end _ decoded sendOk key
           [RecvMessage (statusMessage key "exited")] exitedSystem _
           eq_refl eq_refl eq_refl).
Defined.

(** X11: the process panics exactly when a second exit-family status for
    its key is applied: a run that has applied at most one has not
    panicked, and no run applies more than two. *)
Theorem X11_panics_on_second_exit (Payload : Type)
  (unmarshal : Payload -> option ServerMessage)
  (beaconSend : ClientMessage -> option string) (pubkey : string)
  (cs : list (Choice Payload)) (s' : System) (effs : list Effect) :
  exec Payload unmarshal beaconSend (startSystem pubkey) cs = Some (s', effs) ->
  crashed s' = (2 <=? exitCount Payload unmarshal pubkey cs)%nat /\
  (exitCount Payload unmarshal pubkey cs <= 2)%nat.
Proof.
  intros Hexec.
  pose proof (exec_crash_count _ _ _ _ _ _ _ Hexec eq_refl) as H.
  cbn in H. rewrite Nat.add_0_r in H. exact H.
Qed.

(** X11, witness: two exit-family statuses in sequence. *)
Lemma X11_panics_on_second_exit_witness :
  crashed crashedSystem = (2 <=? exitCount _ decoded key exitTwice)%nat /\
  (exitCount _ decoded key exitTwice <= 2)%nat.
Proof.
  exact (X11_panics_on_second_exit _ decoded sendOk key exitTwice crashedSystem
           _ eq_refl).
Defined.

(** X12: once the goroutine has unsubscribed, no event is handled any
    more: all that can still happen is that [start] leaves its [select];
    the process state stays as it is and nothing is sent to the beacon
    node. *)
Theorem X12_nothing_after_unsubscribing (Payload : Type)
  (unmarshal : Payload -> option ServerMessage)
  (beaconSend : ClientMessage -> option string)
  (s s' : System) (cs : list (Choice Payload)) (effs : list Effect) :
  subscribed s = false ->
  exec Payload unmarshal beaconSend s cs = Some (s', effs) ->
  (cs = [] \/ cs = [MainStop]) /\ proc s' = proc s /\ sends effs = [].
Proof.
  intros Hsub Hexec. destruct cs as [|c cs].
  { injection Hexec as <- <-. auto. }
  apply exec_cons in Hexec. destruct Hexec as (s1 & e1 & e2 & Hstep & Hexec & ->).
  unfold step in Hstep. rewrite Hsub in Hstep.
  destruct (crashed s); [discriminate|].
  destruct c as [|data| |]; try discriminate Hstep.
  destruct (blocked s && isClosed (stop (proc s))); [|discriminate].
  injection Hstep as <- <-.
  destruct cs as [|c cs].
  { injection Hexec as <- <-. auto. }
  apply exec_cons in Hexec. destruct Hexec as (s2 & e3 & e4 & Hstep & _).
  unfold step in Hstep. cbn in Hstep.
  destruct c; discriminate Hstep.
Qed.

(** X12, witness: after an exit and the unsubscription, [start] ends. *)
Lemma X12_nothing_after_unsubscribing_witness :
  ([@MainStop (option ServerMessage)] = [] \/
   [@MainStop (option ServerMessage)] = [MainStop]) /\
  proc endedSystem = proc unsubscribedSystem /\ sends [Log (LogEnding key)] = [].
Proof.
  exact (X12_nothing_after_unsubscribing _ decoded sendOk unsubscribedSystem endedSystem
           [MainStop] _ eq_refl eq_refl).
Defined.

(** X13: only a decodable [validator_status] message for the key of the
    process with one of the five known codes changes the state of the
    process: every other communication (a message that does not decode, a
    status for another key or with an unknown code, an epoch, success or
    error message, a reconnection) leaves [validatorActive] and [stop] as
    they are. *)
Theorem X13_other_messages_keep_the_state (Payload : Type)
  (unmarshal : Payload -> option ServerMessage)
  (beaconSend : ClientMessage -> option string)
  (s s' : System) (c : Choice Payload) (effs : list Effect) :
  appliedStatus Payload unmarshal (pubkeyHex (proc s)) c = None ->
  step Payload unmarshal beaconSend s c = Some (s', effs) ->
  proc s' = proc s /\ crashed s' = false.
Proof.
  unfold step, afterHandler. destruct (crashed s); [intros _; discriminate|].
  destruct c as [|data| |]; cbn [appliedStatus].
  - intros _. destruct (subscribed s); [|discriminate]. unfold onBeaconClientConnected.
    destruct (beaconSend _); intros H; injection H as <- <-; auto.
  - destruct (subscribed s); [|intros _; discriminate].
    unfold onBeaconClientMessage, knownStatus.
    destruct (unmarshal data) as [message|]; [|intros _ H; injection H as <- <-; auto].
    destruct (String.eqb (Message message) "validator_status"); cbn [andb].
    + destruct (String.eqb (pubkeyHex (proc s)) (sPubkey message)); cbn [andb negb];
        [|intros _ H; injection H as <- <-; auto].
      destruct (String.eqb (StatusCode message) "inactive"); [discriminate|].
      destruct (String.eqb (StatusCode message) "active"); [discriminate|].
      cbn [orb].
      destruct (String.eqb (StatusCode message) "exited"
                || String.eqb (StatusCode message) "withdrawable"
                || String.eqb (StatusCode message) "withdrawn"); [discriminate|].
      intros _ H; injection H as <- <-; auto.
    + intros _.
      repeat match goal with
             | |- context [if ?b then _ else _] => destruct b
             | |- context [match ?b with Some _ => _ | None => _ end] => destruct b
             end; intros H; injection H as <- <-; auto.
  - intros _. destruct (subscribed s && _); [|discriminate].
    intros H; injection H as <- <-; auto.
  - intros _. destruct (blocked s && _); [|discriminate].
    intros H; injection H as <- <-; auto.
Qed.

(** X13, witness: a status for another key. *)
Lemma X13_other_messages_keep_the_state_witness :
  proc process0 = proc process0 /\ false = false.
Proof.
  exact (X13_other_messages_keep_the_state _ decoded sendOk process0 _
           (RecvMessage (statusMessage "77aa" "exited")) _ eq_refl eq_refl).
Defined.

Lemma sends_app (e1 e2 : list Effect) : sends (e1 ++ e2) = sends e1 ++ sends e2.
Proof. unfold sends. apply omap_app. Qed.

(** X14: everything the process sends to the beacon node carries its own
    public key, and it sends one status request for every reconnection it
    handles, whether or not the validator has exited. *)
Theorem X14_sends_for_its_own_key (Payload : Type)
  (unmarshal : Payload -> option ServerMessage)
  (beaconSend : ClientMessage -> option string)
  (cs : list (Choice Payload)) (s s' : System) (effs : list Effect) :
  exec Payload unmarshal beaconSend s cs = Some (s', effs) ->
  Forall (fun m => cPubkey m = pubkeyHex (proc s)) (sends effs) /\
  length (List.filter isStatusRequest (sends effs))
  = length (List.filter (isConnected Payload) cs).
Proof.
  revert s effs. induction cs as [|c cs IH]; intros s effs H.
  { injection H as <- <-. split; [constructor | reflexivity]. }
  apply exec_cons in H. destruct H as (s1 & e1 & e2 & Hstep & Hexec & ->).
  destruct (step_channels _ _ _ _ _ _ _ Hstep) as (_ & Hk & _).
  destruct (IH _ _ Hexec) as [IH1 IH2]. rewrite Hk in IH1.
  rewrite sends_app, List.filter_app, length_app, IH2. cbn [List.filter].
  assert (Hc : Forall (fun m => cPubkey m = pubkeyHex (proc s)) (sends e1) /\
               length (List.filter isStatusRequest (sends e1))
               = if isConnected Payload c then 1%nat else 0%nat).
  { clear IH IH1 IH2 Hexec Hk. unfold step, afterHandler in Hstep.
    destruct (crashed s); [discriminate|].
    destruct c as [|data| |].
    - destruct (subscribed s); [|discriminate]. unfold onBeaconClientConnected in Hstep.
      destruct (beaconSend _); injection Hstep as <- <-; cbn;
        (split; [repeat constructor | reflexivity]).
    - destruct (subscribed s); [|discriminate]. unfold onBeaconClientMessage in Hstep.
      repeat match type of Hstep with
             | context [if ?b then _ else _] => destruct b
             | context [match ?b with Some _ => _ | None => _ end] => destruct b
             | context [match stop ?p with Open => _ | Closed => _ end] => destruct (stop p)
             end; injection Hstep as <- <-; cbn;
        (split; [repeat constructor | reflexivity]).
    - destruct (subscribed s && _); [|discriminate]. injection Hstep as <- <-.
      split; [constructor | reflexivity].
    - destruct (blocked s && _); [|discriminate]. injection Hstep as <- <-.
      split; [constructor | reflexivity]. }
  destruct Hc as [Hc1 Hc2]. split; [apply Forall_app; auto|].
  rewrite Hc2. destruct (isConnected Payload c); reflexivity.
Qed.

(** X14, witness: a reconnection after the validator has exited still
    sends a status request. *)
Lemma X14_sends_for_its_own_key_witness :
  Forall (fun m => cPubkey m = key)
    (sends [Log (LogExited key); Send (statusRequest (newProcess key))]) /\
  length (List.filter isStatusRequest
            (sends [Log (LogExited key); Send (statusRequest (newProcess key))]))
  = length (List.filter (isConnected (option ServerMessage))
              [RecvMessage (statusMessage key "exited"); RecvConnected]).
Proof.
  exact (X14_sends_for_its_own_key _ decoded sendOk
           [RecvMessage (statusMessage key "exited"); RecvConnected] process0 _ _ eq_refl).
Defined.

Lemma step_send_independent (Payload : Type)
  (unmarshal : Payload -> option ServerMessage)
  (send1 send2 : ClientMessage -> option string)
  (s s' : System) (c : Choice Payload) (e1 : list Effect) :
  step Payload unmarshal send1 s c = Some (s', e1) ->
  exists e2, step Payload unmarshal send2 s c = Some (s', e2) /\ sends e2 = sends e1.
Proof.
  unfold step, afterHandler. destruct (crashed s); [discriminate|].
  destruct c as [|data| |]; [| | eauto | eauto].
  - destruct (subscribed s); [|discriminate]. unfold onBeaconClientConnected.
    destruct (send1 _), (send2 _); intros H; injection H as <- <-; eauto.
  - destruct (subscribed s); [|discriminate]. unfold onBeaconClientMessage.
    destruct (unmarshal data) as [message|]; [|eauto].
    destruct (String.eqb (Message message) "validator_status"); [eauto|].
    destruct (String.eqb (Message message) "epoch"); [|eauto].
    destruct (negb (validatorActive (proc s))); [eauto|].
    destruct (send1 _), (send2 _); intros H; injection H as <- <-; eauto.
Qed.

(** X15: whether [Beacon.Send] succeeds or fails makes no difference to
    what the process does: against any two beacon connections, the same
    communications lead to the same state and the same messages sent; only
    the log differs. *)
Theorem X15_send_errors_change_nothing (Payload : Type)
  (unmarshal : Payload -> option ServerMessage)
  (send1 send2 : ClientMessage -> option string)
  (cs : list (Choice Payload)) (s s' : System) (e1 : list Effect) :
  exec Payload unmarshal send1 s cs = Some (s', e1) ->
  exists e2, exec Payload unmarshal send2 s cs = Some (s', e2) /\ sends e2 = sends e1.
Proof.
  revert s e1. induction cs as [|c cs IH]; intros s e1 H.
  { injection H as <- <-. exists []. auto. }
  apply exec_cons in H. destruct H as (s1 & ea & eb & Hstep & Hexec & ->).
  destruct (step_send_independent _ _ send1 send2 _ _ _ _ Hstep) as (ea' & Hstep' & Ha).
  destruct (IH _ _ Hexec) as (eb' & Hexec' & Hb).
  exists (ea' ++ eb'). cbn [exec]. rewrite Hstep', Hexec', !sends_app, Ha, Hb. auto.
Qed.

(** X15, witness: the run of [activeThenExit] against a connection on
    which every send fails. *)
Lemma X15_send_errors_change_nothing_witness :
  exists e2,
    exec _ decoded (fun _ => Some "broken pipe"%string) process0 activeThenExit
    = Some (endedSystem, e2) /\
    sends e2 = sends [Log (LogActive key); Log (LogNewEpoch key);
                      Send {| cMessage := "activity"; cPubkey := key |};
                      Log (LogExited key); Log (LogEnding key)].
Proof.
  exact (X15_send_errors_change_nothing _ decoded sendOk (fun _ => Some "broken pipe"%string)
           activeThenExit process0 _ _ eq_refl).
Defined.

End ActivityExtras.

(** ** Further properties of the guard of [run] *)
Module GuardExtras.
Import SingleFlight GuardNotions Scenarios.

Lemma holder_at (t : Task) (i : nat) (th : Thread) :
  threads t !! i = Some th -> (holder t i <-> holdsLock th = true).
Proof.
  intros Hth. unfold holder. split.
  - intros (th' & Hth' & Hh). congruence.
  - eauto.
Qed.

Lemma holder_move (t : Task) (i j : nat) (th th' : Thread) :
  threads t !! i = Some th ->
  holder (move t i th') j <-> (j = i /\ holdsLock th' = true) \/ (j <> i /\ holder t j).
Proof.
  intros Hth. apply lookup_lt_Some in Hth. unfold holder, move. cbn [threads].
  split.
  - intros (th2 & Hl & Hh). apply list_lookup_insert_Some in Hl.
    destruct Hl as [(-> & -> & _)|(Hne & Hl)]; [auto | right; eauto].
  - intros [(-> & Hh)|(Hne & th2 & Hl & Hh)].
    + exists th'. split; [|exact Hh]. apply list_lookup_insert_Some. auto.
    + exists th2. split; [|exact Hh]. apply list_lookup_insert_Some. auto.
Qed.

Lemma holder_spawn (t : Task) (j : nat) (th : Thread) :
  holdsLock th = false -> holder (spawn t th) j <-> holder t j.
Proof.
  intros Hno. unfold holder, spawn. cbn [threads]. split.
  - intros (th2 & Hl & Hh). apply lookup_snoc_Some in Hl.
    destruct Hl as [(_ & Hl)|(_ & <-)]; [eauto | congruence].
  - intros (th2 & Hl & Hh). exists th2. split; [|exact Hh].
    apply lookup_snoc_Some. left. split; [|exact Hl]. eapply lookup_lt_Some, Hl.
Qed.

Ltac holder_moved Hth :=
  match goal with
  | |- context [holder (move ?t0 ?i ?th') ?j] => rewrite (holder_move t0 i j _ th' Hth)
  end.

(** Every statement of [run] and of its goroutine keeps the mutex
    consistent. *)
Lemma step_mutexConsistent (t t' : Task) (a : Action) :
  mutexConsistent t -> step t a = Some t' -> mutexConsistent t'.
Proof.
  intros Hinv Hstep j. pose proof (Hinv j) as Hj.
  destruct a as [synced deployed|i]; cbn [step] in Hstep.
  { injection Hstep as <-. rewrite holder_spawn by reflexivity. exact Hj. }
  pose proof (Hinv i) as Hi.
  destruct (threads t !! i) as [th|] eqn:Hth; [|discriminate].
  rewrite (holder_at _ _ _ Hth) in Hi.
  assert (Hfree : lock t = None -> ~ holder t j).
  { intros Hl Hh. apply Hj in Hh. congruence. }
  destruct th as [[synced deployed| | | |failed]|[| | | | | |]]; try discriminate Hstep;
    cbn [holdsLock] in Hi;
    repeat match type of Hstep with
           | context [if ?b then _ else _] => destruct b
           | context [acquire _ _] => unfold acquire in Hstep
           | context [lock t] => destruct (lock t) eqn:Hl
           end;
    try discriminate Hstep; injection Hstep as <-;
    rewrite ?holder_spawn by reflexivity; holder_moved Hth;
    unfold holder in Hj, Hfree |- *;
    cbn [threads print release lock move spawn isRunning printed holdsLock];
    destruct (decide (j = i)) as [->|Hne]; intuition congruence.
Qed.

Lemma exec_invariant (P : Task -> Prop) :
  (forall t t' a, P t -> step t a = Some t' -> P t') ->
  forall sched t t', P t -> exec t sched = Some t' -> P t'.
Proof.
  intros Hstep sched. induction sched as [|a rest IH]; intros t t' HP Hexec.
  - injection Hexec as <-. exact HP.
  - cbn [exec] in Hexec. destruct (step t a) as [t1|] eqn:Hs; [|discriminate].
    eapply IH; [|exact Hexec]. eapply Hstep; eassumption.
Qed.

Lemma newTask_mutexConsistent : mutexConsistent newTask.
Proof.
  intros i. split; [discriminate|]. intros (th & Hth & _). discriminate Hth.
Qed.

Lemma exec_mutexConsistent (sched : list Action) (t : Task) :
  exec newTask sched = Some t -> mutexConsistent t.
Proof.
  apply (exec_invariant mutexConsistent step_mutexConsistent).
  exact newTask_mutexConsistent.
Qed.

(** X16: mutual exclusion.  Under every schedule of calls of [run] and of
    their goroutines, the mutex is held exactly by the thread that is
    between a [Lock] and its [Unlock], so no two threads are ever inside
    such a section together. *)
Theorem X16_mutual_exclusion (sched : list Action) (t : Task) :
  exec newTask sched = Some t ->
  mutexConsistent t /\
  forall i j, holder t i -> holder t j -> i = j.
Proof.
  intros Hexec. pose proof (exec_mutexConsistent _ _ Hexec) as Hinv.
  split; [exact Hinv|]. intros i j Hi Hj.
  apply Hinv in Hi. apply Hinv in Hj. congruence.
Qed.

(** X16, witness: the schedule of two overlapping calls. *)
Lemma X16_mutual_exclusion_witness :
  exists t, exec newTask twoCalls = Some t /\
            mutexConsistent t /\ forall i j, holder t i -> holder t j -> i = j.
Proof.
  eexists. split; [reflexivity|].
  apply (X16_mutual_exclusion twoCalls). reflexivity.
Defined.

(** X17: the guard never deadlocks.  Under every schedule, as long as some
    call or goroutine has not run to its end, some thread can execute its
    next statement. *)
Theorem X17_no_deadlock (sched : list Action) (t : Task) (i : nat) (th : Thread) :
  exec newTask sched = Some t ->
  threads t !! i = Some th -> finished th = false ->
  exists j t', step t (Advance j) = Some t'.
Proof.
  intros Hexec Hth Hfin. pose proof (exec_mutexConsistent _ _ Hexec) as Hinv.
  destruct (lock t) as [j|] eqn:Hl.
  - destruct (proj1 (Hinv j) Hl) as (thj & Hthj & Hh). exists j.
    cbn [step]. rewrite Hthj.
    destruct thj as [[| | | |]|[| | | | | |]]; try discriminate Hh; eauto.
    destruct (isRunning t); eauto.
  - exists i. cbn [step]. rewrite Hth. unfold acquire. rewrite Hl.
    destruct th as [[synced deployed| | | |]|[| | | | | |]]; try discriminate Hfin;
      cbn [option_map]; eauto.
    + destruct (negb synced); [|destruct (negb deployed)]; eauto.
    + destruct (isRunning t); eauto.
Qed.

(** X17, witness: after the two overlapping calls, goroutine 1 can go on. *)
Lemma X17_no_deadlock_witness :
  exists j t', step {| isRunning := true; lock := None;
                       threads := [Call (CallReturned false); Scan ScanInFlight;
                                   Call (CallReturned false); Scan ScanInFlight];
                       printed := [LineChecking; LineChecking; LineStarting; LineStarting] |}
                 (Advance j) = Some t'.
Proof.
  exact (X17_no_deadlock twoCalls _ 1%nat (Scan ScanInFlight) eq_refl eq_refl eq_refl).
Defined.

Lemma pending_move (t : Task) (i j : nat) (th' thj : Thread) :
  threads t !! j = Some thj -> pending thj = true ->
  j <> i \/ pending th' = true ->
  exists k thk, threads (move t i th') !! k = Some thk /\ pending thk = true.
Proof.
  intros Hthj Hp Hcase. destruct (decide (j = i)) as [->|Hne].
  - destruct Hcase as [Hne|Hp']; [congruence|].
    exists i, th'. split; [|exact Hp']. cbn [move threads].
    apply list_lookup_insert_Some. left. repeat split. eapply lookup_lt_Some, Hthj.
  - exists j, thj. split; [|exact Hp]. cbn [move threads].
    apply list_lookup_insert_Some. right. auto.
Qed.

(** The flag is set only while some goroutine still has to clear it. *)
Lemma step_flag (t t' : Task) (a : Action) :
  (isRunning t = true -> exists k thk, threads t !! k = Some thk /\ pending thk = true) ->
  step t a = Some t' ->
  isRunning t' = true -> exists k thk, threads t' !! k = Some thk /\ pending thk = true.
Proof.
  intros Hinv Hstep.
  destruct a as [synced deployed|i]; cbn [step] in Hstep.
  { injection Hstep as <-. cbn [spawn isRunning threads]. intros Hrun.
    destruct (Hinv Hrun) as (k & thk & Hk & Hp). exists k, thk. split; [|exact Hp].
    apply lookup_snoc_Some. left. split; [|exact Hk]. eapply lookup_lt_Some, Hk. }
  destruct (threads t !! i) as [th|] eqn:Hth; [|discriminate].
  assert (Hkeep : forall th' t0, threads t0 = threads t ->
            (isRunning t = true) ->
            pending th = false \/ pending th' = true ->
            exists k thk, threads (move t0 i th') !! k = Some thk /\ pending thk = true).
  { intros th' t0 Ht0 Hrun Hcase. destruct (Hinv Hrun) as (k & thk & Hk & Hp).
    apply (pending_move t0 i k th' thk); [rewrite Ht0; exact Hk | exact Hp |].
    destruct Hcase as [Hno|Hyes]; [|auto]. left. intros ->. congruence. }
  destruct th as [[synced deployed| | | |failed]|[| | | | | |]]; try discriminate Hstep.
  - destruct (negb synced); [|destruct (negb deployed)]; injection Hstep as <-;
      cbn [isRunning move print]; intros Hrun; apply Hkeep; auto.
  - unfold acquire in Hstep. destruct (lock t); [discriminate|].
    injection Hstep as <-. cbn [isRunning move]. intros Hrun. apply Hkeep; auto.
  - destruct (isRunning t) eqn:Erun; injection Hstep as <-;
      cbn [isRunning move release print]; intros Hrun; [|discriminate Hrun].
    apply Hkeep; auto.
  - injection Hstep as <-. cbn [isRunning move spawn threads]. intros Hrun.
    destruct (Hkeep (Call (CallReturned false)) t eq_refl Hrun (or_introl eq_refl))
      as (k & thk & Hk & Hp).
    exists k, thk. split; [|exact Hp].
    apply lookup_snoc_Some. left. split; [|exact Hk]. eapply lookup_lt_Some, Hk.
  - unfold acquire in Hstep. destruct (lock t); [discriminate|].
    injection Hstep as <-. cbn [isRunning move]. intros Hrun. apply Hkeep; auto.
  - injection Hstep as <-. intros _. exists i, (Scan ScanAnnounce).
    split; [|reflexivity]. cbn [move threads release].
    apply list_lookup_insert_Some. left. repeat split. eapply lookup_lt_Some, Hth.
  - injection Hstep as <-. cbn [isRunning move print]. intros Hrun. apply Hkeep; auto.
  - injection Hstep as <-. cbn [isRunning move]. intros Hrun. apply Hkeep; auto.
  - unfold acquire in Hstep. destruct (lock t); [discriminate|].
    injection Hstep as <-. cbn [isRunning move]. intros Hrun. apply Hkeep; auto.
  - injection Hstep as <-. cbn [isRunning move release]. discriminate.
Qed.

(** X18: the flag is never left set.  Under every schedule, when
    [isRunning] is set, some goroutine that has set it is still on its way
    to the statement that clears it; in particular the flag is clear
    whenever no goroutine is under way. *)
Theorem X18_flag_is_cleared (sched : list Action) (t : Task) :
  exec newTask sched = Some t -> isRunning t = true ->
  exists k thk, threads t !! k = Some thk /\ pending thk = true.
Proof.
  intros Hexec.
  apply (exec_invariant
           (fun t => isRunning t = true ->
                     exists k thk, threads t !! k = Some thk /\ pending thk = true)
           step_flag sched newTask t); [discriminate | exact Hexec].
Qed.

(** X18, witness: after the two overlapping calls. *)
Lemma X18_flag_is_cleared_witness :
  exists k thk,
    [Call (CallReturned false); Scan ScanInFlight;
     Call (CallReturned false); Scan ScanInFlight] !! k = Some thk /\ pending thk = true.
Proof.
  exact (X18_flag_is_cleared twoCalls _ eq_refl eq_refl).
Defined.

Lemma sum_list_with_insert {A : Type} (f : A -> nat) (l : list A) (i : nat) (x y : A) :
  l !! i = Some x ->
  (sum_list_with f (<[i := y]> l) + f x = sum_list_with f l + f y)%nat.
Proof.
  revert i. induction l as [|z l IH]; intros [|i] Hl; try discriminate Hl.
  - injection Hl as ->. change (<[0%nat := y]> (x :: l)) with (y :: l).
    cbn [sum_list_with]. lia.
  - change (<[S i := y]> (z :: l)) with (z :: <[i := y]> l).
    change ((z :: l) !! S i) with (l !! i) in Hl.
    cbn [sum_list_with]. specialize (IH i Hl). lia.
Qed.

Lemma work_move (t : Task) (i : nat) (th th' : Thread) :
  threads t !! i = Some th ->
  (work (move t i th') + remaining th = work t + remaining th')%nat.
Proof. intros Hth. unfold work. cbn [move threads]. apply sum_list_with_insert, Hth. Qed.

(** Every statement uses up work; a call of [run] adds that of one call. *)
Lemma step_work (t t' : Task) (a : Action) :
  step t a = Some t' ->
  (work t' + (if isAdvance a then 1 else 0) <= work t + (if isInvoke a then 10 else 0))%nat.
Proof.
  destruct a as [synced deployed|i]; cbn [step isAdvance isInvoke].
  { intros H; injection H as <-. unfold work. cbn [spawn threads].
    rewrite sum_list_with_app. cbn. lia. }
  destruct (threads t !! i) as [th|] eqn:Hth; [|discriminate].
  destruct th as [[synced deployed| | | |failed]|[| | | | | |]]; try discriminate;
    intros Hstep;
    repeat match type of Hstep with
           | context [if ?b then _ else _] => destruct b
           | context [acquire _ _] => unfold acquire in Hstep
           | context [lock t] => destruct (lock t)
           end;
    try discriminate Hstep; injection Hstep as <-;
    match goal with
    | |- context [work (spawn (move ?t0 i ?th') ?g)] =>
      pose proof (work_move t0 i _ th' Hth) as Hw;
      unfold work in *; cbn [spawn threads] in *; rewrite sum_list_with_app
    | |- context [work (move ?t0 i ?th')] =>
      pose proof (work_move t0 i _ th' Hth) as Hw; unfold work in *
    end;
    cbn [threads print release remaining sum_list_with] in *; lia.
Qed.

Lemma exec_work (sched : list Action) (t t' : Task) :
  exec t sched = Some t' ->
  (work t' + length (List.filter isAdvance sched)
   <= work t + 10 * length (List.filter isInvoke sched))%nat.
Proof.
  revert t. induction sched as [|a rest IH]; intros t Hexec.
  - injection Hexec as <-. cbn. lia.
  - cbn [exec] in Hexec. destruct (step t a) as [t1|] eqn:Hs; [|discriminate].
    specialize (IH _ Hexec). apply step_work in Hs. cbn [List.filter].
    destruct a; cbn [isAdvance isInvoke length] in *; lia.
Qed.

(** X25: the threads of [run] do not loop.  Under every schedule, the
    statements executed by the calls of [run] and by their goroutines number
    at most ten for every call made (four of the call and six of the
    goroutine it may start). *)
Theorem X25_bounded_work (sched : list Action) (t : Task) :
  exec newTask sched = Some t ->
  (length (List.filter isAdvance sched) + work t
   <= 10 * length (List.filter isInvoke sched))%nat.
Proof.
  intros Hexec. apply exec_work in Hexec. unfold work at 2 in Hexec.
  cbn [newTask threads sum_list_with] in Hexec. lia.
Qed.

(** X25, witness: the schedule of two overlapping calls, fourteen
    statements so far. *)
Lemma X25_bounded_work_witness :
  (length (List.filter isAdvance twoCalls)
   + work {| isRunning := true; lock := None;
             threads := [Call (CallReturned false); Scan ScanInFlight;
                         Call (CallReturned false); Scan ScanInFlight];
             printed := [LineChecking; LineChecking; LineStarting; LineStarting] |}
   <= 10 * length (List.filter isInvoke twoCalls))%nat.
Proof.
  exact (X25_bounded_work twoCalls _ eq_refl).
Defined.

End GuardExtras.

(** ** The constructor of the task *)
Module TaskSetupExtras.
Import Watchtower.

(** X19: [newCheckSoloMigrations] returns a task exactly when all five
    service getters succeed, and otherwise the error of the first getter
    that fails, in the order config, wallet, execution client, Rocket Pool,
    beacon client.  A task it returns holds the services obtained, carries
    the prefix "[Solo Migration]", and its guard is in the initial state: the
    flag clear, the mutex free. *)
Theorem X19_constructor_first_error
  (Config Wallet EthClient RocketPool BeaconClient Logger : Type)
  (c : TaskSetup.Context Config Wallet EthClient RocketPool BeaconClient)
  (logger errorLogger : Logger) :
  match TaskSetup.newCheckSoloMigrations _ _ _ _ _ _ c logger errorLogger with
  | inl t =>
    TaskSetup.firstError (TaskSetup.getterFailures _ _ _ _ _ c) = None /\
    TaskSetup.GetConfig _ _ _ _ _ c = inl (TaskSetup.cfg _ _ _ _ _ _ t) /\
    TaskSetup.GetWallet _ _ _ _ _ c = inl (TaskSetup.w _ _ _ _ _ _ t) /\
    TaskSetup.GetEthClient _ _ _ _ _ c = inl (TaskSetup.ec _ _ _ _ _ _ t) /\
    TaskSetup.GetRocketPool _ _ _ _ _ c = inl (TaskSetup.rp _ _ _ _ _ _ t) /\
    TaskSetup.GetBeaconClient _ _ _ _ _ c = inl (TaskSetup.bc _ _ _ _ _ _ t) /\
    TaskSetup.log _ _ _ _ _ _ t = logger /\ TaskSetup.errLog _ _ _ _ _ _ t = errorLogger /\
    TaskSetup.generationPrefix _ _ _ _ _ _ t = "[Solo Migration]"%string /\
    TaskSetup.guardOf _ _ _ _ _ _ t = SingleFlight.newTask
  | inr err => TaskSetup.firstError (TaskSetup.getterFailures _ _ _ _ _ c) = Some err
  end.
Proof.
  unfold TaskSetup.newCheckSoloMigrations, TaskSetup.getterFailures, TaskSetup.firstError.
  destruct (TaskSetup.GetConfig _ _ _ _ _ c); [|reflexivity].
  destruct (TaskSetup.GetWallet _ _ _ _ _ c); [|reflexivity].
  destruct (TaskSetup.GetEthClient _ _ _ _ _ c); [|reflexivity].
  destruct (TaskSetup.GetRocketPool _ _ _ _ _ c); [|reflexivity].
  destruct (TaskSetup.GetBeaconClient _ _ _ _ _ c); [|reflexivity].
  repeat split; reflexivity.
Qed.

End TaskSetupExtras.

(** ** The service commands *)
Module ServiceCliExtras.
Import ServiceCli.

(** X20: the commands that pause and stop the service act only on the
    user's word.  Their run opens with the prompt; the service method is
    called only if the user agreed; and if the user declined, nothing
    happens but the line "Cancelled.": no client is requested, no method is
    called, and [nil] is returned. *)
Theorem X20_interruption_needs_confirmation (c : Context) (cmd : Command) :
  interrupts cmd = true ->
  let run := runCommand c cmd in
  (exists prompt, head (fst run) = Some (EvConfirm prompt (Confirm c prompt))) /\
  (existsb isCall (fst run) = true -> agreed (fst run) = true) /\
  (declined (fst run) = true ->
   exists prompt, run = ([EvConfirm prompt false; EvPrintln "Cancelled."], None)).
Proof.
  destruct cmd; try discriminate; intros _; cbv zeta;
    unfold runCommand, pauseService, stopService;
    match goal with
    | |- context [Confirm c ?p] =>
      destruct (Confirm c p) eqn:Ec; cbn [negb]; destruct (GetRocketPoolClient c); cbn;
      (split; [exists p; rewrite Ec; reflexivity|]);
      (split; intros H; first [discriminate H | reflexivity | eauto])
    end.
Qed.

(** X20, witness: stopping the service, declined. *)
Lemma X20_interruption_needs_confirmation_witness :
  let run := runCommand decliningContext CmdStop in
  (exists prompt, head (fst run) = Some (EvConfirm prompt (Confirm decliningContext prompt))) /\
  (existsb isCall (fst run) = true -> agreed (fst run) = true) /\
  (declined (fst run) = true ->
   exists prompt, run = ([EvConfirm prompt false; EvPrintln "Cancelled."], None)).
Proof.
  exact (X20_interruption_needs_confirmation decliningContext CmdStop eq_refl).
Defined.

(** X21: every command of the file either runs to its one method call (the
    client was obtained, the method of the command is called once, the
    client is closed after the call, and the error of the method is what
    the command returns) or calls no method and closes nothing; in that
    case it returns the error of the client getter, or [nil] when the user
    declined. *)
Theorem X21_client_closed_after_the_call (c : Context) (cmd : Command) :
  let run := runCommand c cmd in
  (exists before rp,
     GetRocketPoolClient c = inl rp /\
     fst run = before ++ [EvGetClient true; EvCall (methodOf cmd); EvClose] /\
     existsb isCall before = false /\ existsb isClose before = false /\
     snd run = rp (methodOf cmd)) \/
  (existsb isCall (fst run) = false /\ existsb isClose (fst run) = false /\
   (snd run = None /\ declined (fst run) = true \/
    exists err, GetRocketPoolClient c = inr err /\ snd run = Some err)).
Proof.
  cbv zeta.
  destruct cmd; unfold runCommand, serviceStatus, startService, pauseService, stopService,
    serviceLogs, serviceStats;
    repeat match goal with
           | |- context [Confirm c ?p] => destruct (Confirm c p) eqn:Ec; cbn [negb]
           | |- context [match GetRocketPoolClient c with _ => _ end] =>
             destruct (GetRocketPoolClient c) as [rp|err] eqn:Eg
           end;
    cbn [fst snd methodOf];
    first [ right; repeat split; first [reflexivity | left; split; reflexivity
                                       | right; eexists; split; reflexivity]
          | left; exists [], rp; repeat split; reflexivity
          | left; eexists [_], rp; repeat split; reflexivity ].
Qed.

End ServiceCliExtras.

(** ** The node status command *)
Module NodeStatusExtras.
Import NodeStatus.

Ltac answers s :=
  unfold getNodeStatus;
  destruct (NodeAccountExists s) eqn:Eacc; cbn [negb];
  [ destruct (dial s) as [e|] eqn:Edial;
    [| destruct (newContractManager s) as [e|] eqn:Emanager;
       [| destruct (loadContracts s) as [e|] eqn:Econtracts;
          [| destruct (loadABIs s) as [e|] eqn:Eabis;
             [| destruct (getAccountBalances s) as [accountBalances|e] eqn:Eaccount;
                [ destruct (getContract s) as [nodeContractAddress|e] eqn:Econtract;
                  [ destruct (Z.eqb_spec nodeContractAddress 0) as [Ezero|Ezero];
                    [| destruct (newContract s) as [e|] eqn:Enew;
                       [| destruct (getTimezoneLocation s) as [nodeTimezone|e] eqn:Etz;
                          [ destruct (getBalances s) as [balances|e] eqn:Ebal | ] ] ]
                  | ]
                | ] ] ] ] ]
  | ];
  cbv zeta; cbn [fst snd app].

(** X22: a run of [getNodeStatus] stops at the first call that fails and
    reports it.  When it returns an error, the last thing it did is a call
    that failed, every call before succeeded, nothing is printed after the
    failure, and the message returned ends with the error of that call.
    When it returns [nil], every call it made succeeded and the last thing
    it did is to print a line. *)
Theorem X22_error_is_the_last_call (s : Services) :
  let run := getNodeStatus s in
  Forall (recordsTruly s) (fst run) /\
  match snd run with
  | Some msg =>
    exists before r e,
      fst run = before ++ [Called r false] /\ existsb isFailure before = false /\
      failureOf s r = Some e /\ exists prefix, msg = (prefix ++ e)%string
  | None =>
    existsb isFailure (fst run) = false /\
    exists before l, fst run = before ++ [Printed l]
  end.
Proof.
  cbv zeta. answers s.
  all: split;
    [ repeat constructor; cbn [recordsTruly failureOf];
      rewrite ?Edial, ?Emanager, ?Econtracts, ?Eabis, ?Eaccount, ?Econtract, ?Enew, ?Etz,
        ?Ebal; congruence |].
  all: match goal with
       | |- exists before r e, ?tr = _ /\ _ =>
         exists (removelast tr); eexists _, _; split; [reflexivity|];
         split; [reflexivity|]; cbn [failureOf];
         rewrite ?Edial, ?Emanager, ?Econtracts, ?Eabis, ?Eaccount, ?Econtract, ?Enew,
           ?Etz, ?Ebal;
         split; [reflexivity|];
         first [exists ""%string; reflexivity | eexists; reflexivity]
       | |- _ /\ exists before l, ?tr = _ =>
         split; [reflexivity|]; exists (removelast tr); eexists; reflexivity
       end.
Qed.

(** X23: what a run that returns [nil] has done.  Either there is no node
    account, and it printed that and called nothing; or the registry
    answered with the zero address, and it printed the account balances and
    that the node is not registered, without asking for the contract, the
    timezone or the contract balances; or it made all nine calls and
    printed the account balances and the registration, with the contract
    address, timezone and balances the services gave. *)
Theorem X23_successful_runs (s : Services) :
  snd (getNodeStatus s) = None ->
  let events := fst (getNodeStatus s) in
  (NodeAccountExists s = false /\ events = [Printed NotInitialized]) \/
  (exists accountBalances,
     getAccountBalances s = inl accountBalances /\ getContract s = inl 0 /\
     printedLines events = [AccountBalance (NodeAccount s) accountBalances; NotRegistered] /\
     calls events = [Dial; NewContractManager; LoadContracts; LoadABIs;
                     GetAccountBalances; GetContract]) \/
  (exists accountBalances contract timezone balances,
     getAccountBalances s = inl accountBalances /\ getContract s = inl contract /\
     contract <> 0 /\ getTimezoneLocation s = inl timezone /\
     getBalances s = inl balances /\
     printedLines events = [AccountBalance (NodeAccount s) accountBalances;
                            Registered contract timezone balances] /\
     calls events = [Dial; NewContractManager; LoadContracts; LoadABIs;
                     GetAccountBalances; GetContract; NewContract;
                     GetTimezoneLocation; GetBalances]).
Proof.
  cbv zeta. answers s. all: intros Hnil; try discriminate Hnil.
  - right. left. subst. eexists. repeat split; reflexivity.
  - right. right. eexists _, _, _, _. repeat split; try reflexivity. exact Ezero.
  - left. split; reflexivity.
Qed.

(** X23, witness: the registered node. *)
Lemma X23_successful_runs_witness :
  let events := fst (getNodeStatus registeredNode) in
  (NodeAccountExists registeredNode = false /\ events = [Printed NotInitialized]) \/
  (exists accountBalances,
     getAccountBalances registeredNode = inl accountBalances /\
     getContract registeredNode = inl 0 /\
     printedLines events
     = [AccountBalance (NodeAccount registeredNode) accountBalances; NotRegistered] /\
     calls events = [Dial; NewContractManager; LoadContracts; LoadABIs;
                     GetAccountBalances; GetContract]) \/
  (exists accountBalances contract timezone balances,
     getAccountBalances registeredNode = inl accountBalances /\
     getContract registeredNode = inl contract /\
     contract <> 0 /\ getTimezoneLocation registeredNode = inl timezone /\
     getBalances registeredNode = inl balances /\
     printedLines events = [AccountBalance (NodeAccount registeredNode) accountBalances;
                            Registered contract timezone balances] /\
     calls events = [Dial; NewContractManager; LoadContracts; LoadABIs;
                     GetAccountBalances; GetContract; NewContract;
                     GetTimezoneLocation; GetBalances]).
Proof.
  exact (X23_successful_runs registeredNode eq_refl).
Defined.

End NodeStatusExtras.
